(** * geoid-toolkit: Legendre polynomials and the ICGEM gravity-model reader

    A shallow embedding of [geoid_toolkit/legendre_polynomials.py] and
    [geoid_toolkit/read_ICGEM_harmonics.py], and the properties of the two
    functions that the specification states.

    Conventions of the embedding
    - Python exceptions are values of [exn]; a computation that may raise
      has type [result A], with the bind of the error monad.
    - Floating-point arithmetic is an interface, [FloatArith]: every
      theorem is proved for every implementation of the operations, and
      [binary64] (IEEE double precision, numpy's default [np.float]) is the
      instance that the examples run on.
    - A numpy matrix is its number of columns and its list of rows; an
      index is normalised the way numpy does it (a negative index counts
      from the end, anything else out of range raises [IndexError]).
    - The dictionary [model_input] is a [gmap string value].
    - A string is a [string] of the first 256 code points; integers are
      unbounded and memory is not a limit.
    - The file is what [f.read()] returns for it: the reader takes the
      text as an argument. *)

From Stdlib Require Import ZArith Lia Floats Ascii String.
From stdpp Require Import base option list gmap strings.

Local Open Scope string_scope.
Local Open Scope Z_scope.

(** ** Exceptions and the error monad *)

Inductive exn : Set :=
| IndexError
| ValueError
| KeyError
| TypeError
| NameError
| OverflowError.

Inductive result (A : Type) : Type :=
| Ok (a : A)
| Raise (e : exn).
Arguments Ok {A} a.
Arguments Raise {A} e.

#[global] Instance result_ret : MRet result := fun A a => Ok a.
#[global] Instance result_bind : MBind result := fun A B f m =>
  match m with
  | Ok a => f a
  | Raise e => Raise e
  end.

Definition of_option {A} (e : exn) (o : option A) : result A :=
  match o with
  | Some a => Ok a
  | None => Raise e
  end.

Definition is_ok {A} (r : result A) : bool :=
  match r with
  | Ok _ => true
  | Raise _ => false
  end.

(** The exception that a computation raises, if any. *)
Definition raised {A} (r : result A) : option exn :=
  match r with
  | Ok _ => None
  | Raise e => Some e
  end.

(** [for x in xs: body], threading the loop's variables through the body. *)
Fixpoint for_each {A S : Type} (xs : list A) (body : A → S → result S) (s : S)
  : result S :=
  match xs with
  | [] => Ok s
  | x :: xs' => s' ← body x s; for_each xs' body s'
  end.

(** [range(a, b)] *)
Definition py_range (a b : Z) : list Z := seqZ a (b - a).

(** ** Floating-point operations *)

Class FloatArith (F : Type) := {
  fadd : F → F → F;
  fsub : F → F → F;
  fmul : F → F → F;
  fdiv : F → F → F;
  (** [np.sqrt] *)
  fsqrt : F → F;
  (** the power with exponent two: [x**2] and [l**2.0] *)
  fsquare : F → F;
  (** [np.floor] *)
  ffloor : F → F;
  (** [a % b] on floats *)
  fmod : F → F → F;
  (** [a == b] on floats *)
  feqb : F → F → bool;
  (** the float of an integer: the conversion of an [int] operand, and a
      literal with an integral value such as [2.0] or [367.0] *)
  of_int : Z → F;
  (** a decimal literal with [k] digits after the point:
      [fdec 17210285 1] is [1721028.5] *)
  fdec : Z → nat → F;
  (** [float(s)] of a string, [None] where Python raises [ValueError] *)
  float_of_string : string → option F
}.

(** The conversion of an [int] to a float raises [OverflowError] when
    the integer is too large for a double, whose format Python's floats
    have: when it rounds to [2^1024] or beyond. *)
Definition int_overflows (z : Z) : bool :=
  bool_decide (2 ^ 1024 - 2 ^ 970 ≤ Z.abs z).

(** ** numpy matrices *)

Section NumPy.
Context {F : Type} `{FloatArith F}.

Record ndarray : Type := mk_ndarray {
  ncols : nat;
  rows : list (list F)
}.

Definition shape (a : ndarray) : nat * nat := (length (rows a), ncols a).

(** [np.zeros((n, m))]: a negative dimension is a [ValueError]. *)
Definition np_zeros (n m : Z) : result ndarray :=
  if bool_decide (n < 0 ∨ m < 0) then Raise ValueError
  else Ok (mk_ndarray (Z.to_nat m)
             (replicate (Z.to_nat n) (replicate (Z.to_nat m) (of_int 0)))).

(** An index [i] into an axis of size [n]. *)
Definition np_index (n : nat) (i : Z) : result nat :=
  if bool_decide (0 ≤ i < Z.of_nat n) then Ok (Z.to_nat i)
  else if bool_decide (- Z.of_nat n ≤ i < 0) then Ok (Z.to_nat (i + Z.of_nat n))
  else Raise IndexError.

(** [a[i,:]] *)
Definition get_row (a : ndarray) (i : Z) : result (list F) :=
  k ← np_index (length (rows a)) i;
  of_option IndexError (rows a !! k).

(** [a[i,:] = v] for a one-dimensional [v]: a value of one element is
    broadcast over the row, any other length than that of the row is a
    [ValueError]. *)
Definition set_row (a : ndarray) (i : Z) (v : list F) : result ndarray :=
  k ← np_index (length (rows a)) i;
  if bool_decide (length v = ncols a)
  then Ok (mk_ndarray (ncols a) (<[k := v]> (rows a)))
  else match v with
       | [c] => Ok (mk_ndarray (ncols a) (<[k := replicate (ncols a) c]> (rows a)))
       | _ => Raise ValueError
       end.

(** [a[i,:] = c] for a scalar [c] *)
Definition set_row_scalar (a : ndarray) (i : Z) (c : F) : result ndarray :=
  set_row a i (replicate (ncols a) c).

(** [a[i,j]] *)
Definition get_item (a : ndarray) (i j : Z) : result F :=
  k ← np_index (length (rows a)) i;
  c ← np_index (ncols a) j;
  r ← of_option IndexError (rows a !! k);
  of_option IndexError (r !! c).

(** [a[i,j] = v] *)
Definition set_item (a : ndarray) (i j : Z) (v : F) : result ndarray :=
  k ← np_index (length (rows a)) i;
  c ← np_index (ncols a) j;
  r ← of_option IndexError (rows a !! k);
  Ok (mk_ndarray (ncols a) (<[k := <[c := v]> r]> (rows a))).

(** The entry in row [l] and column [j], when there is one. *)
Definition entry (a : ndarray) (l j : nat) : option F :=
  r ← rows a !! l; r !! j.

(** Every row has [ncols] entries. *)
Definition well_shaped (a : ndarray) : Prop :=
  Forall (λ r, length r = ncols a) (rows a).
End NumPy.

Arguments ndarray F : clear implicits.

(** ** legendre_polynomials.py *)

Section Legendre.
Context {F : Type} `{FloatArith F}.

(** The argument [x]: a scalar ([np.ndim(x) = 0]) or a one-dimensional
    array. *)
Inductive xarg : Type :=
| XScalar (v : F)
| XArray (v : list F).

(** The values of [x], one per column of the output. A scalar is
    broadcast over the single column, with the same operations as a
    one-element array. (On a scalar that is a Python float, line 69
    evaluates [x**2] with C's [pow], not as [x*x], and raises
    [OverflowError] beyond about 1.3e154: the model of a scalar is
    exact for [pl], and for [dpl] where the two squares agree.) *)
Definition x_values (x : xarg) : list F :=
  match x with
  | XScalar v => [v]
  | XArray v => v
  end.

(** Lines 61-63: the round of the recurrence for degree [l]. *)
Definition recurrence_step (xs : list F) (l : Z) (st : ndarray F * ndarray F)
  : result (ndarray F * ndarray F) :=
  let '(ptemp, pl) := st in
  pm1 ← get_row ptemp (l - 1);
  pm2 ← get_row ptemp (l - 2);
  let a := fdiv (fsub (fmul (of_int 2) (of_int l)) (of_int 1)) (of_int l) in
  let b := fdiv (fsub (of_int l) (of_int 1)) (of_int l) in
  ptemp ← set_row ptemp l
    (zip_with fsub (zip_with fmul (fmul a <$> xs) pm1) (fmul b <$> pm2));
  pt ← get_row ptemp l;
  pl ← set_row pl l
    (fmul (fsqrt (fadd (fmul (of_int 2) (of_int l)) (of_int 1))) <$> pt);
  Ok (ptemp, pl).

(** Lines 68-69: the derivative of degree [l]. *)
Definition derivative_step (xs : list F) (pl : ndarray F) (l : Z) (dpl : ndarray F)
  : result (ndarray F) :=
  let fl := fsqrt (fdiv (fmul (fsquare (of_int l))
                              (fadd (fmul (of_int 2) (of_int l)) (of_int 1)))
                        (fsub (fmul (of_int 2) (of_int l)) (of_int 1))) in
  pll ← get_row pl l;
  plm1 ← get_row pl (l - 1);
  set_row dpl l
    (zip_with fmul
       ((λ xv, fdiv (of_int 1) (fsqrt (fsub (of_int 1) (fsquare xv)))) <$> xs)
       (zip_with fsub (zip_with fmul (fmul (of_int l) <$> xs) pll)
                      (fmul fl <$> plm1))).

(** [legendre_polynomials(lmax, x)], with the default [ASTYPE]: the
    matrices of the polynomials and of their first derivatives. *)
Definition legendre_polynomials (lmax : Z) (x : xarg)
  : result (ndarray F * ndarray F) :=
  let xs := x_values x in
  let nx := Z.of_nat (length xs) in
  pl ← np_zeros (lmax + 1) nx;
  ptemp ← np_zeros (lmax + 1) nx;
  ptemp ← set_row_scalar ptemp 0 (of_int 1);
  ptemp ← set_row ptemp 1 xs;
  p0 ← get_row ptemp 0;
  pl ← set_row pl 0 p0;
  p1 ← get_row ptemp 1;
  pl ← set_row pl 1 (fmul (fsqrt (of_int 3)) <$> p1);
  '(ptemp, pl) ← for_each (py_range 2 (lmax + 1)) (recurrence_step xs) (ptemp, pl);
  dpl ← np_zeros (lmax + 1) nx;
  dpl ← for_each (py_range 1 (lmax + 1)) (derivative_step xs pl) dpl;
  Ok (pl, dpl).
End Legendre.

Arguments xarg F : clear implicits.

(** ** Python strings *)

Definition is_space (c : ascii) : bool :=
  let n := N_of_ascii c in
  ((9 <=? n) && (n <=? 13) || (28 <=? n) && (n <=? 32) || (n =? 133) || (n =? 160))%N.

Definition is_digit (c : ascii) : bool :=
  let n := N_of_ascii c in ((48 <=? n) && (n <=? 57))%N.

Definition digit_value (c : ascii) : Z := Z.of_N (N_of_ascii c) - 48.

(** [needle in s] *)
Fixpoint contains (needle s : string) : bool :=
  if String.prefix needle s then true
  else match s with
       | "" => false
       | String _ s' => contains needle s'
       end.

(** [os.path.basename(p)]: what follows the last slash. *)
Fixpoint basename (p : string) : string :=
  match p with
  | "" => ""
  | String c p' =>
      if contains "/" p' then basename p'
      else if Ascii.eqb c "/" then p' else p
  end.

Fixpoint drop_str (n : nat) (s : string) : string :=
  match n, s with
  | S n', String _ s' => drop_str n' s'
  | _, _ => s
  end.

Fixpoint take_str (n : nat) (s : string) : string :=
  match n, s with
  | S n', String c s' => String c (take_str n' s')
  | _, _ => ""
  end.

(** [s[a:b]] for constants [0 <= a <= b] *)
Definition slice_str (a b : nat) (s : string) : string :=
  take_str (b - a) (drop_str a s).

(** [l[:k]]: a negative [k] counts from the end. *)
Definition py_take {A} (k : Z) (l : list A) : list A :=
  if bool_decide (k < 0) then take (length l - Z.to_nat (- k)) l
  else take (Z.to_nat k) l.

(** [l[i]] for a constant [i >= 0] *)
Definition py_nth {A} (l : list A) (i : nat) : result A :=
  of_option IndexError (l !! i).

Definition cons_token (w : string) (ws : list string) : list string :=
  match w with
  | "" => ws
  | _ => w :: ws
  end.

(** The token that is being read at the head of [s], and the tokens after
    it. *)
Fixpoint split_go (s : string) : string * list string :=
  match s with
  | "" => ("", [])
  | String c s' =>
      let '(w, ws) := split_go s' in
      if is_space c then ("", cons_token w ws) else (String c w, ws)
  end.

(** [s.split()] *)
Definition py_split (s : string) : list string :=
  let '(w, ws) := split_go s in cons_token w ws.

(** The white space that [int] and [float] skip at the two ends of a
    string: C's [isspace], and the two spaces beyond ASCII, which are
    turned into blanks first. The separators 0x1C to 0x1F, white space
    for [split], are not skipped. *)
Definition is_number_space (c : ascii) : bool :=
  let n := N_of_ascii c in
  ((9 <=? n) && (n <=? 13) || (n =? 32) || (n =? 133) || (n =? 160))%N.

Fixpoint lstrip (s : string) : string :=
  match s with
  | "" => ""
  | String c s' => if is_number_space c then lstrip s' else s
  end.

Fixpoint rstrip (s : string) : string :=
  match s with
  | "" => ""
  | String c s' =>
      match rstrip s' with
      | "" => if is_number_space c then "" else String c ""
      | t => String c t
      end
  end.

(** A string without the white space that [int] and [float] skip. *)
Definition strip (s : string) : string := rstrip (lstrip s).

(** Decimal digits, where an underscore may stand between two digits. *)
Fixpoint digits_go (s : string) (acc : Z) (after_digit : bool) : option Z :=
  match s with
  | "" => if after_digit then Some acc else None
  | String c s' =>
      if is_digit c then digits_go s' (10 * acc + digit_value c) true
      else if Ascii.eqb c "_" && after_digit then digits_go s' acc false
      else None
  end.

Definition split_sign (s : string) : bool * string :=
  match s with
  | String "-" r => (true, r)
  | String "+" r => (false, r)
  | _ => (false, s)
  end.

Fixpoint count_digits (s : string) : nat :=
  match s with
  | "" => 0%nat
  | String c s' => if is_digit c then S (count_digits s') else count_digits s'
  end.

(** [sys.int_info.default_max_str_digits]: from CPython 3.11 on, [int]
    refuses a string of more digits with a [ValueError]. *)
Definition max_str_digits : nat := 4300.

(** [int(s)] of a string, [None] where Python raises [ValueError]. *)
Definition py_int (s : string) : option Z :=
  let '(neg, body) := split_sign (strip s) in
  if bool_decide (max_str_digits < count_digits body)%nat then None
  else
    d ← digits_go body 0 false;
    Some (if neg then - d else d).

(** [f.read().splitlines()]: the line boundaries among the first 256
    code points. *)
Definition is_linebreak (c : ascii) : bool :=
  let n := N_of_ascii c in
  ((10 <=? n) && (n <=? 13) || (28 <=? n) && (n <=? 30) || (n =? 133))%N.

Fixpoint splitlines_go (s : string) : string * list string :=
  match s with
  | "" => ("", [])
  | String c s' =>
      let '(w, ws) := splitlines_go s' in
      if is_linebreak c then
        match c, s' with
        | "013"%char, String "010"%char _ => ("", ws)
        | _, "" => ("", [])
        | _, _ => ("", w :: ws)
        end
      else (String c w, ws)
  end.

Definition splitlines (s : string) : list string :=
  match s with
  | "" => []
  | _ => let '(w, ws) := splitlines_go s in w :: ws
  end.

(** [re.sub('d', 'e', s, flags=re.IGNORECASE)] *)
Fixpoint sub_d_e (s : string) : string :=
  match s with
  | "" => ""
  | String c s' =>
      String (if Ascii.eqb c "d" || Ascii.eqb c "D" then "e"%char else c) (sub_d_e s')
  end.

(** ** Regular expressions

    The constructs that the patterns of the reader use, matched by
    backtracking in the order of Python's [re]: the first alternative
    first, a lazy star as short as possible, a greedy one as long as
    possible. *)

Inductive cclass : Set :=
| CAny    (** [.]: any character but a newline *)
| CDigit. (** [\d] *)

Inductive regex : Type :=
| RLit (s : string)          (** literal text *)
| RLazy (c : cclass)         (** [c*?] *)
| RPlus (c : cclass)         (** [c+] *)
| RSeq (r1 r2 : regex)
| RAlt (r1 r2 : regex)       (** [r1|r2] *)
| RGroup (i : nat) (r : regex) (** the capturing group number [i], from 0 *)
| ROpt (r : regex)           (** [r?] *)
| REnd.                      (** [$] *)

Definition in_class (c : cclass) (a : ascii) : bool :=
  match c with
  | CAny => negb (Ascii.eqb a "010")
  | CDigit => is_digit a
  end.

Definition or_else {A} (o : option A) (k : unit → option A) : option A :=
  match o with
  | Some a => Some a
  | None => k tt
  end.

Section Matcher.
Context {R : Type}.

Fixpoint lazy_star (c : cclass) (s : string) (k : string → option R) : option R :=
  or_else (k s) (λ _,
    match s with
    | String a s' => if in_class c a then lazy_star c s' k else None
    | "" => None
    end).

Fixpoint greedy_star (c : cclass) (s : string) (k : string → option R) : option R :=
  match s with
  | String a s' =>
      if in_class c a then or_else (greedy_star c s' k) (λ _, k s) else k s
  | "" => k s
  end.
End Matcher.

(** [re_go r s caps k]: match [r] at the head of [s], then continue with
    [k] on the rest of the text and the groups captured so far. *)
Fixpoint re_go {R : Type} (r : regex) (s : string) (caps : list string)
    (k : string → list string → option R) : option R :=
  match r with
  | RLit t => if String.prefix t s then k (drop_str (String.length t) s) caps else None
  | RLazy c => lazy_star c s (λ s', k s' caps)
  | RPlus c =>
      match s with
      | String a s' => if in_class c a then greedy_star c s' (λ s'', k s'' caps) else None
      | "" => None
      end
  | RSeq r1 r2 => re_go r1 s caps (λ s' caps', re_go r2 s' caps' k)
  | RAlt r1 r2 => or_else (re_go r1 s caps k) (λ _, re_go r2 s caps k)
  | RGroup i r1 =>
      re_go r1 s caps (λ s' caps',
        k s' (<[i := take_str (String.length s - String.length s') s]> caps'))
  | ROpt r1 => or_else (re_go r1 s caps k) (λ _, k s caps)
  | REnd =>
      if bool_decide (s = "" ∨ s = String "010" "") then k s caps else None
  end.

(** A match of [r] at the head of [s]: the text after it and the [n]
    groups, a group that took no part being the empty string. *)
Definition match_at (n : nat) (r : regex) (s : string) : option (string * list string) :=
  re_go r s (replicate n "") (λ s' caps, Some (s', caps)).

(** [re.match(r, s)] is not [None] *)
Definition re_match (r : regex) (s : string) : bool :=
  bool_decide (is_Some (match_at 0 r s)).

(** [re.findall]: the groups of the matches from left to right, none
    overlapping. [skip] characters belong to the match before. After a
    match of no character the search moves on by one character; the three
    patterns that the reader searches with hold literal text, so none of
    their matches is empty. *)
Fixpoint findall_go (n : nat) (r : regex) (s : string) (skip : nat) : list (list string) :=
  match skip, s with
  | S j, String _ s' => findall_go n r s' j
  | S _, "" => []
  | O, _ =>
      match match_at n r s with
      | Some (rest, caps) =>
          caps :: match s with
                  | String _ s' =>
                      findall_go n r s' (String.length s - String.length rest - 1)
                  | "" => []
                  end
      | None =>
          match s with
          | String _ s' => findall_go n r s' 0
          | "" => []
          end
      end
  end.

Definition findall (n : nat) (r : regex) (s : string) : list (list string) :=
  findall_go n r s 0.

(** [l.pop()] for its value: the last element. *)
Definition pop {A} (l : list A) : result A := of_option IndexError (last l).

Fixpoint rseq (rs : list regex) : regex :=
  match rs with
  | [] => RLit ""
  | [r] => r
  | r :: rs' => RSeq r (rseq rs')
  end.

(** ['|'.join(words)] as a pattern *)
Fixpoint ralt (words : list string) : regex :=
  match words with
  | [] => RLit ""
  | [w] => RLit w
  | w :: ws => RAlt (RLit w) (ralt ws)
  end.

Definition suffixes : regex := ralt [".gz"; ".gfc"; ".txt"].

(** [(.*?)-(Grace_operational|Grace2018)_(.*?)_(\d+)-(\d+)(\.gz|\.gfc|\.txt)] *)
Definition rx_ITSG : regex :=
  rseq [RGroup 0 (RLazy CAny); RLit "-";
        RGroup 1 (ralt ["Grace_operational"; "Grace2018"]); RLit "_";
        RGroup 2 (RLazy CAny); RLit "_";
        RGroup 3 (RPlus CDigit); RLit "-";
        RGroup 4 (RPlus CDigit);
        RGroup 5 suffixes].

(** [(SW)_(.*?)_(EGF_SHA_2)__(.*?)_(.*?)_(.*?)(\.gz|\.gfc|\.txt)] *)
Definition rx_SWARM : regex :=
  rseq [RGroup 0 (RLit "SW"); RLit "_";
        RGroup 1 (RLazy CAny); RLit "_";
        RGroup 2 (RLit "EGF_SHA_2"); RLit "__";
        RGroup 3 (RLazy CAny); RLit "_";
        RGroup 4 (RLazy CAny); RLit "_";
        RGroup 5 (RLazy CAny);
        RGroup 6 suffixes].

(** [(.*?)-2_(\d+)-(\d+)_(.*?)_(COSTG)_(.*?)_(\d+)(.*?)(\.gz|\.gfc|\.txt)?$] *)
Definition rx_COSTG : regex :=
  rseq [RGroup 0 (RLazy CAny); RLit "-2_";
        RGroup 1 (RPlus CDigit); RLit "-";
        RGroup 2 (RPlus CDigit); RLit "_";
        RGroup 3 (RLazy CAny); RLit "_";
        RGroup 4 (RLit "COSTG"); RLit "_";
        RGroup 5 (RLazy CAny); RLit "_";
        RGroup 6 (RPlus CDigit);
        RGroup 7 (RLazy CAny);
        ROpt (RGroup 8 suffixes);
        REnd].

Definition header_parameters : list string :=
  ["modelname"; "earth_gravity_constant"; "radius"; "max_degree"; "errors";
   "norm"; "tide_system"].

(** ['(' + '|'.join(header_parameters) + ')'] *)
Definition parameters_regex : regex := RGroup 0 (ralt header_parameters).

(** ** read_ICGEM_harmonics.py *)

Section Reader.
Context {F : Type} `{FloatArith F}.

(** Modelled from the spec: [calculate_tidal_offset(TIDE, GM, R, ellipsoid)]
    of [geoid_toolkit/calculate_tidal_offset.py], a pure function that
    returns the offset to add to C(2,0). *)
Variable calculate_tidal_offset : string → F → F → string → F.

(** What [model_input] holds under a key. *)
Inductive value : Type :=
| VStr (s : string)
| VNum (x : F)
| VMat (a : ndarray F).

(** The local variables that the branch of the file name sets. *)
Inductive filename_vars : Type :=
| NoVars
| YearMonth (year month : Z)
| StartEnd (start_yr end_yr start_day end_day : F).

Definition py_float (s : string) : result F :=
  of_option ValueError (float_of_string s).

Definition int_of (s : string) : result Z :=
  of_option ValueError (py_int s).

(** Lines 107-142: the parameters in the name of the file. *)
Definition filename_fields (model_file : string) : result filename_vars :=
  if contains "ITSG" model_file then
    t ← pop (findall 6 rx_ITSG (basename model_file));
    match t with
    | [PFX; SAT; trunc; year; month; SFX] =>
        year ← int_of year;
        month ← int_of month;
        Ok (YearMonth year month)
    | _ => Raise ValueError
    end
  else if contains "SW_" model_file then
    t ← pop (findall 7 rx_SWARM (basename model_file));
    match t with
    | [SAT; tmp; PROD; start_date; end_date; RL; SFX] =>
        year ← int_of (slice_str 0 4 start_date);
        month ← int_of (slice_str 4 6 start_date);
        Ok (YearMonth year month)
    | _ => Raise ValueError
    end
  else if contains "COSTG" model_file then
    t ← pop (findall 9 rx_COSTG (basename model_file));
    match t with
    | [PFX; SD; ED; N; PRC; F1; DRL; F2; SFX] =>
        start_yr ← py_float (take_str 4 SD);
        end_yr ← py_float (take_str 4 ED);
        start_day ← py_float (drop_str 4 SD);
        end_day ← py_float (drop_str 4 ED);
        Ok (StartEnd start_yr end_yr start_day end_day)
    | _ => Raise ValueError
    end
  else Ok NoVars.

(** The result of [np.sum] on a list of integers: an integer, and the
    float [0.0] on the empty list. *)
Inductive num : Type :=
| NInt (n : Z)
| NFloat (x : F).

Definition np_sum (l : list Z) : num :=
  match l with
  | [] => NFloat (of_int 0)
  | _ => NInt (foldr Z.add 0 l)
  end.

Definition num_add (a : num) (n : Z) : num :=
  match a with
  | NInt k => NInt (k + n)
  | NFloat x => NFloat (fadd x (of_int n))
  end.

Definition to_float (a : num) : F :=
  match a with
  | NInt k => of_int k
  | NFloat x => x
  end.

(** [np.mean([a, b])] *)
Definition np_mean2 (a b : F) : F := fdiv (fadd a b) (of_int 2).

Definition dpm_leap : list Z := [31; 29; 31; 30; 31; 30; 31; 31; 30; 31; 30; 31].
Definition dpm_standard : list Z := [31; 28; 31; 30; 31; 30; 31; 31; 30; 31; 30; 31].

(** Lines 147-155: the days per year, the table of days per month and
    the first and last day of the month. *)
Definition month_days (year month : Z) : Z * num * num :=
  let '(dpy, dpm) :=
    if bool_decide (year `mod` 4 = 0) then (366, dpm_leap) else (365, dpm_standard) in
  let start_day := num_add (np_sum (py_take (month - 1) dpm)) 1 in
  let end_day := np_sum (py_take month dpm) in
  (dpy, start_day, end_day).

(** Lines 162-164: the Julian date of day [day] of year [year]. *)
Definition julian_date (year day : F) : F :=
  fadd (fadd (fadd (fsub (fsub (fmul (of_int 367) year)
                               (ffloor (fdiv (fmul (of_int 7) year) (of_int 4))))
                         (ffloor (fdiv
                            (fmul (of_int 3)
                               (fadd (ffloor (fdiv (fsub year (fdiv (of_int 8) (of_int 7)))
                                                   (of_int 100)))
                                     (of_int 1)))
                            (of_int 4))))
                   (ffloor (fdiv (of_int 275) (of_int 9))))
             day)
       (fdec 17210285 1).

(** Lines 144-190: the dates of the series. The integer [year] is
    first turned into a float in [year + mid_day / dpy], on line 160. *)
Definition temporal_fields (model_file : string) (vars : filename_vars)
    (model_input : gmap string value) : result (gmap string value) :=
  if contains "ITSG" model_file || contains "SW_" model_file then
    match vars with
    | YearMonth year month =>
        let '(dpy, start_day, end_day) := month_days year month in
        let mid_day := np_mean2 (to_float start_day) (to_float end_day) in
        if int_overflows year then Raise OverflowError else
        let model_input :=
          <["time" := VNum (fadd (of_int year) (fdiv mid_day (of_int dpy)))]> model_input in
        let model_input :=
          <["start" := VNum (julian_date (of_int year) (to_float start_day))]> model_input in
        Ok (<["end" := VNum (julian_date (of_int year) (to_float end_day))]> model_input)
    | _ => Raise NameError
    end
  else if contains "COSTG" model_file then
    match vars with
    | StartEnd start_yr end_yr start_day end_day =>
        let dpy :=
          if feqb (fmod start_yr (of_int 4)) (of_int 0) then of_int 366 else of_int 365 in
        let end_cyclic := fadd (fmul (fsub end_yr start_yr) dpy) end_day in
        let mid_day := np_mean2 start_day end_cyclic in
        let model_input :=
          <["time" := VNum (fadd start_yr (fdiv mid_day dpy))]> model_input in
        let model_input :=
          <["start" := VNum (julian_date start_yr start_day)]> model_input in
        Ok (<["end" := VNum (julian_date end_yr end_day)]> model_input)
    | _ => Raise NameError
    end
  else Ok model_input.

(** [model_input[key]] where a string is expected *)
Definition lookup_str (model_input : gmap string value) (key : string) : result string :=
  v ← of_option KeyError (model_input !! key);
  match v with
  | VStr s => Ok s
  | _ => Raise TypeError
  end.

(** [model_input[key]] where a matrix is expected *)
Definition lookup_mat (model_input : gmap string value) (key : string)
  : result (ndarray F) :=
  v ← of_option KeyError (model_input !! key);
  match v with
  | VMat a => Ok a
  | _ => Raise TypeError
  end.

(** Lines 199-203: the parameters of the header. *)
Definition read_header (file_contents : list string) (model_input : gmap string value)
  : result (gmap string value) :=
  for_each (List.filter (re_match parameters_regex) file_contents)
    (λ line model_input,
      let line_contents := py_split line in
      v ← py_nth line_contents 1;
      k ← py_nth line_contents 0;
      Ok (<[k := VStr v]> model_input))
    model_input.

(** [not LMAX]: [None] and [0] are the false values. *)
Definition py_not (LMAX : option Z) : bool :=
  match LMAX with
  | None => true
  | Some n => bool_decide (n = 0)
  end.

(** Line 205: the degree of truncation. *)
Definition truncation (model_input : gmap string value) (LMAX : option Z) : result Z :=
  if py_not LMAX then
    s ← lookup_str model_input "max_degree";
    int_of s
  else of_option TypeError LMAX.

(** Lines 207-211: the matrices of zeros. *)
Definition allocate (model_file : string) (LMAX : Z) (model_input : gmap string value)
  : result (gmap string value) :=
  clm ← np_zeros (LMAX + 1) (LMAX + 1);
  let model_input := <["clm" := VMat clm]> model_input in
  slm ← np_zeros (LMAX + 1) (LMAX + 1);
  let model_input := <["slm" := VMat slm]> model_input in
  if negb (contains "SW_" model_file) then
    eclm ← np_zeros (LMAX + 1) (LMAX + 1);
    let model_input := <["eclm" := VMat eclm]> model_input in
    eslm ← np_zeros (LMAX + 1) (LMAX + 1);
    Ok (<["eslm" := VMat eslm]> model_input)
  else Ok model_input.

(** [model_input[key][l1,m1] = np.float(line_contents[i])] *)
Definition store (key : string) (l1 m1 : Z) (line_contents : list string) (i : nat)
    (model_input : gmap string value) : result (gmap string value) :=
  t ← py_nth line_contents i;
  v ← py_float t;
  a ← lookup_mat model_input key;
  a ← set_item a l1 m1 v;
  Ok (<[key := VMat a]> model_input).

(** Lines 217-227: one line of data. *)
Definition read_line (model_file : string) (LMAX : Z) (line : string)
    (model_input : gmap string value) : result (gmap string value) :=
  let line_contents := py_split (sub_d_e line) in
  t ← py_nth line_contents 1;
  l1 ← int_of t;
  t ← py_nth line_contents 2;
  m1 ← int_of t;
  if bool_decide (l1 ≤ LMAX ∧ m1 ≤ LMAX)%Z then
    model_input ← store "clm" l1 m1 line_contents 3 model_input;
    model_input ← store "slm" l1 m1 line_contents 4 model_input;
    if negb (contains "SW_" model_file) then
      model_input ← store "eclm" l1 m1 line_contents 5 model_input;
      store "eslm" l1 m1 line_contents 6 model_input
    else Ok model_input
  else Ok model_input.

(** Lines 213-227: the lines of data. *)
Definition read_data (model_file : string) (LMAX : Z) (FLAG : regex)
    (file_contents : list string) (model_input : gmap string value)
  : result (gmap string value) :=
  for_each (List.filter (re_match FLAG) file_contents) (read_line model_file LMAX)
    model_input.

(** Lines 229-233: the change of the tide system. *)
Definition tide_correction (TIDE : string) (model_input : gmap string value)
  : result (gmap string value) :=
  if bool_decide (TIDE = "mean_tide" ∨ TIDE = "zero_tide") then
    let model_input := <["tide_system" := VStr TIDE]> model_input in
    s ← lookup_str model_input "earth_gravity_constant";
    GM ← py_float s;
    s ← lookup_str model_input "radius";
    R ← py_float s;
    clm ← lookup_mat model_input "clm";
    c20 ← get_item clm 2 0;
    clm ← set_item clm 2 0 (fadd c20 (calculate_tidal_offset TIDE GM R "WGS84"));
    Ok (<["clm" := VMat clm]> model_input)
  else Ok model_input.

(** Lines 104-227: everything before the tide system is looked at;
    the degree of truncation is returned along with [model_input]. *)
Definition parse_model (model_file : string) (text : string) (LMAX : option Z)
    (FLAG : regex) : result (Z * gmap string value) :=
  vars ← filename_fields model_file;
  model_input ← temporal_fields model_file vars ∅;
  let file_contents := splitlines text in
  model_input ← read_header file_contents model_input;
  LMAX ← truncation model_input LMAX;
  model_input ← allocate model_file LMAX model_input;
  model_input ← read_data model_file LMAX FLAG file_contents model_input;
  Ok (LMAX, model_input).

(** [read_ICGEM_harmonics(model_file, LMAX, TIDE, FLAG)], where [text] is
    what [f.read()] returns for the file. *)
Definition read_ICGEM_harmonics (model_file : string) (text : string)
    (LMAX : option Z) (TIDE : string) (FLAG : regex) : result (gmap string value) :=
  '(LMAX, model_input) ← parse_model model_file text LMAX FLAG;
  tide_correction TIDE model_input.
(** The degree of truncation of a call. *)
Definition effective_LMAX (model_file : string) (text : string) (LMAX : option Z)
    (FLAG : regex) : result Z :=
  '(LMAX, _) ← parse_model model_file text LMAX FLAG; Ok LMAX.
End Reader.

Arguments value F : clear implicits.
Arguments filename_vars F : clear implicits.
Arguments num F : clear implicits.

(** ** IEEE double precision *)

Module B64.
Definition of_spec (m e : Z) : float :=
  SF2Prim (binary_normalize prec emax m e false).

(** The double nearest to an integer. *)
Definition b_of_int (z : Z) : float := of_spec z 0.

(** The double nearest to [m / d], for [d > 0]: a quotient of more than
    55 bits and a sticky bit for the remainder, rounded once. *)
Definition of_ratio (m d : Z) : float :=
  if bool_decide (m = 0) then 0%float else
  let s := Z.max 0 (57 + Z.log2 d - Z.log2 (Z.abs m)) in
  let n := Z.abs m * 2 ^ s in
  let q := 2 * (n / d) + (if bool_decide (n mod d = 0) then 0 else 1) in
  of_spec (Z.sgn m * q) (- (s + 1)).

Definition b_dec (m : Z) (k : nat) : float := of_ratio m (10 ^ Z.of_nat k).

(** [floor] of a double: below [2^52] in magnitude, adding and removing
    [2^52] rounds to an integer, which is then one too large or right. *)
Definition b_floor (x : float) : float :=
  let big := 4503599627370496%float in
  if PrimFloat.ltb (PrimFloat.abs x) big then
    if PrimFloat.eqb x 0 then x else
    let t := if PrimFloat.ltb x 0 then ((x - big) + big)%float
             else ((x + big) - big)%float in
    if PrimFloat.ltb x t then (t - 1)%float else t
  else x.

(** The integer [n] and exponent [e] of a finite double [n * 2^e]. *)
Definition to_scaled (x : float) : option (Z * Z) :=
  match Prim2SF x with
  | S754_zero _ => Some (0, 0)
  | S754_finite s m e => Some (if s then Z.neg m else Z.pos m, e)
  | _ => None
  end.

(** Python's [a % b]: C's exact [fmod], moved to the sign of [b]. *)
Definition b_mod (a b : float) : float :=
  match to_scaled a, to_scaled b with
  | Some (ma, ea), Some (mb, eb) =>
      if bool_decide (mb = 0) then nan else
      let e := Z.min ea eb in
      let r := Z.rem (ma * 2 ^ (ea - e)) (mb * 2 ^ (eb - e)) in
      if bool_decide (r = 0) then (if PrimFloat.ltb b 0 then (-0)%float else 0%float)
      else
        let m := of_spec r e in
        if bool_decide (Z.sgn r = Z.sgn mb) then m else (m + b)%float
  | Some _, None => if PrimFloat.is_nan b then nan else a
  | None, _ => nan
  end.

Definition lower (c : ascii) : ascii :=
  let n := N_of_ascii c in
  if ((65 <=? n) && (n <=? 90))%N then ascii_of_N (n + 32) else c.

Fixpoint lower_str (s : string) : string :=
  match s with
  | "" => ""
  | String c s' => String (lower c) (lower_str s')
  end.

(** The digits at the head of [s], continuing the number [acc]: the
    number, how many digits were read, and the text after them. An
    underscore is read only between two digits. *)
Fixpoint scan_digits (s : string) (acc : Z) (cnt : nat) : Z * nat * string :=
  match s with
  | String c s' =>
      if is_digit c then scan_digits s' (10 * acc + digit_value c) (S cnt)
      else if Ascii.eqb c "_" && bool_decide (cnt ≠ 0%nat) then
        match s' with
        | String d _ => if is_digit d then scan_digits s' acc cnt else (acc, cnt, s)
        | "" => (acc, cnt, s)
        end
      else (acc, cnt, s)
  | "" => (acc, cnt, s)
  end.

(** The exponent part after the digits, [None] when it is malformed. *)
Definition scan_exponent (s : string) : option Z :=
  match s with
  | "" => Some 0
  | String c s' =>
      if Ascii.eqb (lower c) "e" then
        let '(neg, body) := split_sign s' in
        match scan_digits body 0 0 with
        | (e, S _, "") => Some (if neg then - e else e)
        | _ => None
        end
      else None
  end.

Definition scale (m e : Z) : float :=
  if bool_decide (0 ≤ e) then b_of_int (m * 10 ^ e) else of_ratio m (10 ^ (- e)).

(** A decimal number without its sign. *)
Definition scan_number (s : string) : option float :=
  let '(m1, c1, r1) := scan_digits s 0 0 in
  let '(m, c2, r2) :=
    match r1 with
    | String "." r => scan_digits r m1 0
    | _ => (m1, 0%nat, r1)
    end in
  if bool_decide ((c1 + c2)%nat = 0%nat) then None
  else e ← scan_exponent r2; Some (scale m (e - Z.of_nat c2)).

(** [float(s)]: a decimal number, an infinity or a NaN. *)
Definition b_of_string (s : string) : option float :=
  let '(neg, body) := split_sign (strip s) in
  let name := lower_str body in
  x ← (if bool_decide (name = "inf" ∨ name = "infinity") then Some infinity
       else if bool_decide (name = "nan") then Some nan
       else scan_number body);
  Some (if neg then (- x)%float else x).
End B64.

#[global] Instance binary64 : FloatArith float := {|
  fadd := PrimFloat.add;
  fsub := PrimFloat.sub;
  fmul := PrimFloat.mul;
  fdiv := PrimFloat.div;
  fsqrt := PrimFloat.sqrt;
  fsquare := λ x, PrimFloat.mul x x;
  ffloor := B64.b_floor;
  fmod := B64.b_mod;
  feqb := PrimFloat.eqb;
  of_int := B64.b_of_int;
  fdec := B64.b_dec;
  float_of_string := B64.b_of_string
|}.

(** A stand-in for the tidal offset in the examples that run the reader:
    the theorems hold for every such function. *)
Definition sample_offset (TIDE : string) (GM R : float) (ellipsoid : string) : float :=
  if bool_decide (TIDE = "mean_tide") then B64.b_dec (-5) 1 else B64.b_dec (-25) 2.

(** ** The Legendre recurrence as the specification writes it *)

Section LegendreSpec.
Context {F : Type} `{FloatArith F}.

(** [2l+1] and [2l-1] *)
Definition two_l_plus_1 (l : Z) : F := fadd (fmul (of_int 2) (of_int l)) (of_int 1).
Definition two_l_minus_1 (l : Z) : F := fsub (fmul (of_int 2) (of_int l)) (of_int 1).

(** [ptemp[l] = ((2l-1)/l) * x * ptemp[l-1] - ((l-1)/l) * ptemp[l-2]] *)
Definition ptemp_next (l : Z) (x pm1 pm2 : F) : F :=
  fsub (fmul (fmul (fdiv (two_l_minus_1 l) (of_int l)) x) pm1)
       (fmul (fdiv (fsub (of_int l) (of_int 1)) (of_int l)) pm2).

(** The pair [(ptemp[l], ptemp[l+1])], from [ptemp[0] = 1] and
    [ptemp[1] = x]. *)
Fixpoint ptemp_pair (x : F) (l : nat) : F * F :=
  match l with
  | O => (of_int 1, x)
  | S n =>
      let '(pm2, pm1) := ptemp_pair x n in
      (pm1, ptemp_next (Z.of_nat (S (S n))) x pm1 pm2)
  end.

Definition ptemp_spec (x : F) (l : nat) : F := fst (ptemp_pair x l).

(** [pl[0] = 1] and [pl[l] = sqrt(2l+1) * ptemp[l]] for [l >= 1] *)
Definition pl_spec (x : F) (l : nat) : F :=
  match l with
  | O => of_int 1
  | _ => fmul (fsqrt (two_l_plus_1 (Z.of_nat l))) (ptemp_spec x l)
  end.

(** [fl = sqrt(l^2 * (2l+1) / (2l-1))] *)
Definition fl_spec (l : Z) : F :=
  fsqrt (fdiv (fmul (fsquare (of_int l)) (two_l_plus_1 l)) (two_l_minus_1 l)).

(** [(1/sqrt(1-x^2)) * (l*x*p - fl*q)] *)
Definition dpl_next (l : Z) (x p q : F) : F :=
  fmul (fdiv (of_int 1) (fsqrt (fsub (of_int 1) (fsquare x))))
       (fsub (fmul (fmul (of_int l) x) p) (fmul (fl_spec l) q)).

(** [dpl[0] = 0] and
    [dpl[l] = (1/sqrt(1-x^2)) * (l*x*pl[l] - fl*pl[l-1])] for [l >= 1] *)
Definition dpl_spec (x : F) (l : nat) : F :=
  match l with
  | O => of_int 0
  | S n => dpl_next (Z.of_nat l) x (pl_spec x l) (pl_spec x n)
  end.

(** The values that the code stores: as above, with the factor of degree
    1 written [sqrt(3.0)]. *)
Definition pl_value (x : F) (l : nat) : F :=
  match l with
  | O => of_int 1
  | S O => fmul (fsqrt (of_int 3)) x
  | _ => fmul (fsqrt (two_l_plus_1 (Z.of_nat l))) (ptemp_spec x l)
  end.

Definition dpl_value (x : F) (l : nat) : F :=
  match l with
  | O => of_int 0
  | S n => dpl_next (Z.of_nat l) x (pl_value x l) (pl_value x n)
  end.

(** The state of the first loop after its first [k] rounds. *)
Definition rows_done (xs : list F) (n k : nat) (st : ndarray F * ndarray F) : Prop :=
  let '(ptemp, pl) := st in
  ncols ptemp = length xs ∧ length (rows ptemp) = S n ∧
  ncols pl = length xs ∧ length (rows pl) = S n ∧
  ∀ l, (l < k + 2)%nat →
    rows ptemp !! l = Some ((λ x, ptemp_spec x l) <$> xs) ∧
    rows pl !! l = Some ((λ x, pl_value x l) <$> xs).

(** The state of the second loop after its first [k] rounds. *)
Definition drows_done (xs : list F) (n k : nat) (dpl : ndarray F) : Prop :=
  ncols dpl = length xs ∧ length (rows dpl) = S n ∧
  ∀ l, (l < k + 1)%nat → rows dpl !! l = Some ((λ x, dpl_value x l) <$> xs).
End LegendreSpec.

(** ** Notions that the properties of the reader are stated with *)

(** [key] starts with one of the seven keywords of the header. *)
Definition is_header_key (key : string) : bool :=
  existsb (λ kw, String.prefix kw key) header_parameters.

(** The degree and order that a line of data carries in its second and
    third fields. *)
Definition line_indices (line : string) : option (Z * Z) :=
  let line_contents := py_split (sub_d_e line) in
  t1 ← line_contents !! 1%nat;
  l1 ← py_int t1;
  t2 ← line_contents !! 2%nat;
  m1 ← py_int t2;
  Some (l1, m1).

(** The lines of data of a file. *)
Definition data_lines (FLAG : regex) (text : string) : list string :=
  List.filter (re_match FLAG) (splitlines text).

(** Every line of data has an order between 0 and its degree. *)
Definition orders_within_degrees (FLAG : regex) (text : string) : Prop :=
  ∀ line l1 m1,
    In line (data_lines FLAG text) → line_indices line = Some (l1, m1) →
    0 ≤ m1 ≤ l1.

Section Matrices.
Context {F : Type} `{FloatArith F}.

(** A matrix of [LMAX+1] rows and columns. *)
Definition square (LMAX : Z) (a : ndarray F) : Prop :=
  shape a = (Z.to_nat (LMAX + 1), Z.to_nat (LMAX + 1)) ∧ well_shaped a.

(** Every entry above the diagonal is zero. *)
Definition lower_triangular (a : ndarray F) : Prop :=
  ∀ (l m : nat) (x : F), (l < m)%nat → entry a l m = Some x → x = of_int 0.

(** [model_input[key]] is a matrix with the property [P]. *)
Definition has_matrix (P : ndarray F → Prop) (model_input : gmap string (value F))
    (key : string) : Prop :=
  ∃ a, model_input !! key = Some (VMat a) ∧ P a.

(** The matrices of a record: [clm] and [slm], and [eclm] and [eslm]
    unless the path contains [SW_], in which case the two keys are
    absent. *)
Definition matrices (P : ndarray F → Prop) (model_file : string)
    (model_input : gmap string (value F)) : Prop :=
  has_matrix P model_input "clm" ∧ has_matrix P model_input "slm" ∧
  if contains "SW_" model_file
  then model_input !! "eclm" = None ∧ model_input !! "eslm" = None
  else has_matrix P model_input "eclm" ∧ has_matrix P model_input "eslm".

Definition matrix_keys : list string := ["clm"; "slm"; "eclm"; "eslm"].
End Matrices.

(** ** Files for the examples *)

Definition unlines (ls : list string) : string :=
  foldr (λ l acc, l ++ String "010" acc) "" ls.

(** A model of degree 2 in the format of ICGEM. *)
Definition sample_model : string := unlines [
  "product_type gravity_field";
  "modelname SAMPLE";
  "earth_gravity_constant 0.3986004415E+15";
  "radius 0.6378136300E+07";
  "max_degree 2";
  "errors formal";
  "norm fully_normalized";
  "tide_system tide_free";
  "key L M C S sigma_C sigma_S";
  "end_of_head ====";
  "gfc 0 0 1.0D+00 0.0 0.0 0.0";
  "gfc 1 0 0.0 0.0 0.0 0.0";
  "gfc 2 0 -4.84D-04 0.0 1.0d-11 0.0";
  "gfc 2 1 -2.0e-10 1.0e-09 1.0e-11 1.0e-11";
  "gfc 2 2 2.4e-06 -1.4e-06 1.0e-11 1.0e-11"].

(** A file with a line of data whose order, 1, is above its degree, 0. *)
Definition sample_above_diagonal : string := unlines [
  "earth_gravity_constant 0.3986004415E+15";
  "radius 0.6378136300E+07";
  "max_degree 1";
  "gfc 0 0 1.0 0.0 0.0 0.0";
  "gfc 0 1 5.0 0.0 0.0 0.0"].

(** A file of degree 2 whose header gives neither the gravity constant
    nor the radius. *)
Definition sample_without_constants : string := unlines [
  "max_degree 2";
  "gfc 0 0 1.0 0.0 0.0 0.0";
  "gfc 2 0 -4.84e-04 0.0 0.0 0.0"].

(** The record that a call returns, and the empty one when it raises. *)
Definition record_of {F : Type} (r : result (gmap string (value F)))
  : gmap string (value F) :=
  match r with
  | Ok m => m
  | Raise _ => ∅
  end.

(** The reader on double precision, with the stand-in for the tidal
    offset. *)
Definition read_b64 : string → string → option Z → string → regex →
    result (gmap string (value float)) :=
  read_ICGEM_harmonics sample_offset.


(** ** Notions for the further properties *)

Section Coefficients.
Context {F : Type} `{FloatArith F}.

(** The entry [(l, m)] of the matrix under [key], when the record has
    one. *)
Definition coefficient (model_input : gmap string (value F)) (key : string)
    (l m : nat) : option F :=
  match model_input !! key with
  | Some (VMat a) => entry a l m
  | _ => None
  end.

(** The float in the field number [i] of a line of data. *)
Definition line_value (i : nat) (line : string) : option F :=
  t ← py_split (sub_d_e line) !! i;
  float_of_string t.

(** The matrices that the lines of data are stored in, each with the
    number of its field: the four of them, and two when the path
    contains [SW_]. *)
Definition columns (model_file : string) : list (string * nat) :=
  if contains "SW_" model_file
  then [("clm", 3%nat); ("slm", 4%nat)]
  else [("clm", 3%nat); ("slm", 4%nat); ("eclm", 5%nat); ("eslm", 6%nat)].
End Coefficients.

(** The lines of the header of a file. *)
Definition header_lines (text : string) : list string :=
  List.filter (re_match parameters_regex) (splitlines text).

(** The degree and order of a line are within the truncation, or the
    line has none to read. *)
Definition within_truncation (LMAX : Z) (line : string) : bool :=
  match line_indices line with
  | Some (l1, m1) => bool_decide (l1 ≤ LMAX ∧ m1 ≤ LMAX)
  | None => true
  end.

(** The path contains one of the three substrings of the series with
    dates. *)
Definition has_dates (model_file : string) : bool :=
  contains "ITSG" model_file || contains "SW_" model_file
  || contains "COSTG" model_file.

(** The keys of the header hold text. *)
Definition header_strings {F : Type} (model_input : gmap string (value F)) : Prop :=
  ∀ k v, is_header_key k = true → model_input !! k = Some v → ∃ s, v = VStr s.

(** The exceptions of an index, of a conversion and of a lookup. *)
Definition reader_error (e : exn) : Prop :=
  e = IndexError ∨ e = ValueError ∨ e = KeyError ∨ e = OverflowError.

(** Lines 200-203, the body of the loop over the header: a line sets
    the key in its first word to its second word. *)
Definition header_step {F : Type} (line : string) (m : gmap string (value F))
  : result (gmap string (value F)) :=
  v ← py_nth (py_split line) 1;
  k ← py_nth (py_split line) 0;
  Ok (<[k := VStr v]> m).

(** The keys of the header: the first word of each of its lines. *)
Definition header_keys (text : string) : list string :=
  omap (λ line, py_split line !! 0%nat) (header_lines text).

(** The month after a month. *)
Definition next_month (year month : Z) : Z * Z :=
  if bool_decide (month = 12) then (year + 1, 1) else (year, month + 1).

(** The number under a key of the record. *)
Definition date {F : Type} (model_input : gmap string (value F)) (key : string)
  : option F :=
  match model_input !! key with
  | Some (VNum x) => Some x
  | _ => None
  end.

(** ** Names of files *)

Fixpoint string_forall (p : ascii → bool) (s : string) : bool :=
  match s with
  | "" => true
  | String a s' => p a && string_forall p s'
  end.

(** A character that [.] matches and that is not [sep]. *)
Definition plain (sep : ascii) (a : ascii) : bool :=
  in_class CAny a && negb (Ascii.eqb a sep).

(** The number that a string of decimal digits writes. *)
Fixpoint decimal_go (s : string) (acc : Z) : Z :=
  match s with
  | "" => acc
  | String c s' => decimal_go s' (10 * acc + digit_value c)
  end.

Definition decimal (s : string) : Z := decimal_go s 0.

(** ** More files for the examples *)

(** A header with a keyword and no value. *)
Definition sample_header_without_value : string := unlines [
  "max_degree 2";
  "modelname";
  "gfc 0 0 1.0 0.0 0.0 0.0"].

(** A header without the degree of the model. *)
Definition sample_without_max_degree : string := unlines [
  "modelname SAMPLE";
  "gfc 0 0 1.0 0.0 0.0 0.0"].

(** The model of degree 2 followed by a line of degree 3 whose value is
    no number. *)
Definition sample_beyond_truncation : string :=
  sample_model ++ unlines ["gfc 3 0 not_a_number 0.0 0.0 0.0"].

(** The name of a file of the series of GRAZ with a year of 310 digits,
    too large for a float. *)
Fixpoint nines (n : nat) : string :=
  match n with
  | O => ""
  | S k => String "9" (nines k)
  end.

Definition sample_large_year : string :=
  "ITSG-Grace2018_n96_" ++ nines 310 ++ "-05.gfc".

(** * Properties *)

(** ** The error monad and loops *)

Lemma bind_Ok {A B} (f : A → result B) (a : A) : (Ok a ≫= f) = f a.
Proof. reflexivity. Qed.

Lemma bind_Ok_inv {A B} (f : A → result B) (m : result A) (b : B) :
  (m ≫= f) = Ok b → ∃ a, m = Ok a ∧ f a = Ok b.
Proof. destruct m as [a|e]; [eauto | discriminate]. Qed.

Lemma for_each_inv {A St} (I : nat → St → Prop) (body : A → St → result St) xs s :
  I 0%nat s →
  (∀ k x s, xs !! k = Some x → I k s → ∃ s', body x s = Ok s' ∧ I (S k) s') →
  ∃ s', for_each xs body s = Ok s' ∧ I (length xs) s'.
Proof.
  revert I s. induction xs as [|x xs IH]; intros I s H0 Hstep.
  - exists s. split; [reflexivity | exact H0].
  - destruct (Hstep 0%nat x s eq_refl H0) as (s1 & Hb & H1).
    destruct (IH (λ k, I (S k)) s1 H1) as (s' & Hf & Hl).
    { intros k y t Hk Ht. apply (Hstep (S k) y t Hk Ht). }
    exists s'. split; [| exact Hl].
    simpl. rewrite Hb. exact Hf.
Qed.

(** The same for a loop whose body may raise: what holds before holds
    after whenever the loop ends. *)
Lemma for_each_preserves {A St} (I : St → Prop) (body : A → St → result St) xs s s' :
  I s →
  (∀ x s s', x ∈ xs → I s → body x s = Ok s' → I s') →
  for_each xs body s = Ok s' → I s'.
Proof.
  revert s. induction xs as [|x xs IH]; intros s H0 Hstep Hrun.
  - simpl in Hrun. congruence.
  - simpl in Hrun. apply bind_Ok_inv in Hrun as (s1 & Hb & Hrun).
    apply (IH s1); [| | exact Hrun].
    + apply (Hstep x s s1); [left | exact H0 | exact Hb].
    + intros y t t' Hy. apply Hstep. right. exact Hy.
Qed.

(** ** numpy matrices *)

Section NumPyFacts.
Context {F : Type} `{FloatArith F}.

Lemma np_index_nat (n k : nat) : (k < n)%nat → np_index n (Z.of_nat k) = Ok k.
Proof.
  intros Hk. unfold np_index.
  rewrite bool_decide_eq_true_2 by lia. by rewrite Nat2Z.id.
Qed.

Lemma np_index_Ok (n : nat) (i : Z) (k : nat) :
  np_index n i = Ok k → (k < n)%nat ∧ (i = Z.of_nat k ∨ i = Z.of_nat k - Z.of_nat n).
Proof.
  unfold np_index. repeat case_bool_decide; intros [= <-]; lia.
Qed.


Lemma np_zeros_nat (n m : nat) :
  np_zeros (Z.of_nat n) (Z.of_nat m)
  = Ok (mk_ndarray m (replicate n (replicate m (of_int 0)))).
Proof.
  unfold np_zeros. rewrite bool_decide_eq_false_2 by lia. by rewrite !Nat2Z.id.
Qed.

Lemma get_row_nat (a : ndarray F) (k : nat) (r : list F) :
  rows a !! k = Some r → get_row a (Z.of_nat k) = Ok r.
Proof.
  intros Hr. unfold get_row.
  rewrite np_index_nat by (eapply lookup_lt_Some; exact Hr).
  rewrite bind_Ok, Hr. reflexivity.
Qed.

Lemma set_row_nat (a : ndarray F) (k : nat) (v : list F) :
  (k < length (rows a))%nat → length v = ncols a →
  set_row a (Z.of_nat k) v = Ok (mk_ndarray (ncols a) (<[k := v]> (rows a))).
Proof.
  intros Hk Hv. unfold set_row. rewrite np_index_nat by exact Hk.
  rewrite bind_Ok. by rewrite bool_decide_eq_true_2.
Qed.

Lemma zip_with_fmap_same {A B C D} (f : B → C → D) (g : A → B) (h : A → C) (l : list A) :
  zip_with f (g <$> l) (h <$> l) = (λ x, f (g x) (h x)) <$> l.
Proof. induction l as [|x l IH]; [reflexivity | csimpl; by f_equal]. Qed.

Lemma replicate_as_fmap {A B} (l : list A) (c : B) :
  replicate (length l) c = (λ _, c) <$> l.
Proof. induction l as [|x l IH]; [reflexivity | csimpl; by f_equal]. Qed.
End NumPyFacts.

(** ** legendre_polynomials *)

Section LegendreFacts.
Context {F : Type} `{FloatArith F}.

Lemma ptemp_spec_SS (x : F) (n : nat) :
  ptemp_spec x (S (S n))
  = ptemp_next (Z.of_nat (S (S n))) x (ptemp_spec x (S n)) (ptemp_spec x n).
Proof.
  unfold ptemp_spec. simpl ptemp_pair.
  destruct (ptemp_pair x n) as [pm2 pm1]. reflexivity.
Qed.

Lemma recurrence_step_ok (xs : list F) (n k : nat) (st : ndarray F * ndarray F) :
  (k + 2 ≤ n)%nat → rows_done xs n k st →
  ∃ st', recurrence_step xs (2 + Z.of_nat k) st = Ok st' ∧ rows_done xs n (S k) st'.
Proof.
  destruct st as [ptemp pl]. intros Hk (Hc & Hr & Hc' & Hr' & Hrows).
  destruct (Hrows k ltac:(lia)) as [Hpk _].
  destruct (Hrows (S k) ltac:(lia)) as [HpSk _].
  unfold recurrence_step.
  replace (2 + Z.of_nat k - 1) with (Z.of_nat (S k)) by lia.
  replace (2 + Z.of_nat k - 2) with (Z.of_nat k) by lia.
  replace (2 + Z.of_nat k) with (Z.of_nat (S (S k))) by lia.
  rewrite (get_row_nat _ _ _ HpSk), bind_Ok.
  rewrite (get_row_nat _ _ _ Hpk), bind_Ok.
  rewrite <- list_fmap_compose, !zip_with_fmap_same.
  rewrite set_row_nat by (rewrite ?length_fmap; lia).
  rewrite bind_Ok.
  erewrite get_row_nat by (simpl; apply list_lookup_insert_eq; lia).
  rewrite bind_Ok, <- list_fmap_compose.
  rewrite set_row_nat by (rewrite ?length_fmap; lia).
  rewrite bind_Ok.
  eexists. split; [reflexivity |].
  repeat split; simpl; rewrite ?length_insert; try assumption.
  - destruct (decide (l = S (S k))) as [-> | Hne].
    + rewrite list_lookup_insert_eq by lia. f_equal.
      apply list_fmap_ext. intros _ xv _. simpl. by rewrite ptemp_spec_SS.
    + rewrite list_lookup_insert_ne by done. apply Hrows. lia.
  - destruct (decide (l = S (S k))) as [-> | Hne].
    + rewrite list_lookup_insert_eq by lia. f_equal.
      apply list_fmap_ext. intros _ xv _. simpl. by rewrite ptemp_spec_SS.
    + rewrite list_lookup_insert_ne by done. apply Hrows. lia.
Qed.

Lemma derivative_step_ok (xs : list F) (n k : nat) (pl dpl : ndarray F) :
  (k + 1 ≤ n)%nat →
  (∀ l, (l ≤ n)%nat → rows pl !! l = Some ((λ x, pl_value x l) <$> xs)) →
  drows_done xs n k dpl →
  ∃ dpl', derivative_step xs pl (1 + Z.of_nat k) dpl = Ok dpl' ∧
          drows_done xs n (S k) dpl'.
Proof.
  intros Hk Hpl (Hc & Hr & Hrows).
  unfold derivative_step.
  replace (1 + Z.of_nat k - 1) with (Z.of_nat k) by lia.
  replace (1 + Z.of_nat k) with (Z.of_nat (S k)) by lia.
  rewrite (get_row_nat _ _ _ (Hpl (S k) ltac:(lia))), bind_Ok.
  rewrite (get_row_nat _ _ _ (Hpl k ltac:(lia))), bind_Ok.
  rewrite <- list_fmap_compose, !zip_with_fmap_same.
  rewrite set_row_nat by (rewrite ?length_fmap; lia).
  eexists. split; [reflexivity |].
  repeat split; simpl; rewrite ?length_insert; try assumption.
  intros l Hl. destruct (decide (l = S k)) as [-> | Hne].
  - rewrite list_lookup_insert_eq by lia. reflexivity.
  - rewrite list_lookup_insert_ne by done. apply Hrows. lia.
Qed.

Lemma legendre_rows (n : nat) (x : xarg F) :
  (1 ≤ n)%nat →
  ∃ pl dpl,
    legendre_polynomials (Z.of_nat n) x = Ok (pl, dpl) ∧
    shape pl = (S n, length (x_values x)) ∧
    shape dpl = (S n, length (x_values x)) ∧
    ∀ l, (l ≤ n)%nat →
      rows pl !! l = Some ((λ xv, pl_value xv l) <$> x_values x) ∧
      rows dpl !! l = Some ((λ xv, dpl_value xv l) <$> x_values x).
Proof.
  intros Hn. unfold legendre_polynomials.
  set (xs := x_values x). set (nx := length xs).
  replace (Z.of_nat n + 1) with (Z.of_nat (S n)) by lia.
  rewrite np_zeros_nat, !bind_Ok.
  unfold set_row_scalar.
  rewrite (set_row_nat _ 0%nat) by (simpl; rewrite ?length_replicate; lia).
  rewrite bind_Ok. simpl ncols. simpl rows.
  rewrite (set_row_nat _ 1%nat) by (simpl; rewrite ?length_insert, ?length_replicate; lia).
  rewrite bind_Ok. simpl ncols. simpl rows.
  destruct n as [|n]; [lia |].
  rewrite (get_row_nat _ 0%nat (replicate nx (of_int 1))) by reflexivity.
  rewrite bind_Ok.
  rewrite (set_row_nat _ 0%nat) by (simpl; rewrite ?length_replicate; lia).
  rewrite bind_Ok. simpl ncols. simpl rows.
  rewrite (get_row_nat _ 1%nat xs) by reflexivity.
  rewrite bind_Ok.
  rewrite (set_row_nat _ 1%nat)
    by (simpl; rewrite ?length_fmap, ?length_replicate; lia).
  rewrite bind_Ok. simpl ncols. simpl rows.
  match goal with |- context [for_each _ (recurrence_step xs) ?st] =>
    destruct (for_each_inv (rows_done xs (S n)) (recurrence_step xs)
                (py_range 2 (Z.of_nat (S (S n)))) st) as ([ptemp pl] & Hrun & Hinv)
  end.
  { repeat split; simpl; rewrite ?length_replicate; try reflexivity.
    - destruct l as [|[|l]]; [| | lia]; simpl.
      + by unfold nx; rewrite replicate_as_fmap.
      + change ((λ xv, ptemp_spec xv 1) <$> xs) with (id <$> xs).
        by rewrite list_fmap_id.
    - destruct l as [|[|l]]; [| | lia]; simpl; [| reflexivity].
      by unfold nx; rewrite replicate_as_fmap. }
  { intros k l st Hl Hst. apply lookup_seqZ in Hl as [-> Hl].
    apply recurrence_step_ok; [lia | exact Hst]. }
  rewrite Hrun, bind_Ok.
  unfold py_range in Hinv. rewrite length_seqZ in Hinv.
  destruct Hinv as (_ & _ & Hc & Hr & Hrows).
  assert (Hpl : ∀ l, (l ≤ S n)%nat → rows pl !! l = Some ((λ x, pl_value x l) <$> xs)).
  { intros l Hl. apply Hrows. lia. }
  rewrite bind_Ok.
  match goal with |- context [for_each _ (derivative_step xs pl) ?d] =>
    destruct (for_each_inv (drows_done xs (S n)) (derivative_step xs pl)
                (py_range 1 (Z.of_nat (S (S n)))) d) as (dpl & Hrun' & Hinv')
  end.
  { repeat split; simpl; rewrite ?length_replicate; try reflexivity.
    intros l Hl. destruct l as [|l]; [| lia]. simpl.
    by unfold nx; rewrite replicate_as_fmap. }
  { intros k l st Hl Hst. apply lookup_seqZ in Hl as [-> Hl].
    apply derivative_step_ok; [lia | exact Hpl | exact Hst]. }
  rewrite Hrun', bind_Ok.
  unfold py_range in Hinv'. rewrite length_seqZ in Hinv'.
  destruct Hinv' as (Hc' & Hr' & Hrows').
  exists pl, dpl. split; [reflexivity |].
  unfold shape. rewrite Hc, Hr, Hc', Hr'.
  repeat split; [apply Hpl; lia | apply Hrows'; lia].
Qed.
End LegendreFacts.

Section LegendreClaims.
Context {F : Type} `{FloatArith F}.

Lemma entry_of_row (a : ndarray F) (l j : nat) (f : F → F) (xs : list F) (xv : F) :
  rows a !! l = Some (f <$> xs) → xs !! j = Some xv → entry a l j = Some (f xv).
Proof.
  intros Hl Hj. unfold entry. rewrite Hl. simpl.
  by rewrite list_lookup_fmap, Hj.
Qed.

(** With [2.0*1 + 1.0 = 3.0], the stored values are those of the
    specification. *)
Lemma pl_value_spec (x : F) (l : nat) :
  fadd (fmul (of_int 2) (of_int 1)) (of_int 1) = of_int 3 →
  pl_value x l = pl_spec x l.
Proof.
  intros H3. destruct l as [|[|l]]; [reflexivity | | reflexivity].
  unfold pl_value, pl_spec, two_l_plus_1. change (Z.of_nat 1) with 1.
  rewrite H3. reflexivity.
Qed.

Lemma dpl_value_spec (x : F) (l : nat) :
  fadd (fmul (of_int 2) (of_int 1)) (of_int 1) = of_int 3 →
  dpl_value x l = dpl_spec x l.
Proof.
  intros H3. destruct l as [|l]; [reflexivity |].
  unfold dpl_value, dpl_spec. by rewrite !pl_value_spec.
Qed.

(** C1: for every [lmax >= 2] and every array [x],
    [legendre_polynomials(lmax, x)] returns [(pl, dpl)] where, at every
    point [x[j]] and degree [l <= lmax], [pl[l]] is [1] for [l = 0] and
    [sqrt(2l+1) * ptemp[l]] for [l >= 1], with [ptemp[0] = 1],
    [ptemp[1] = x] and
    [ptemp[l] = ((2l-1)/l) * x * ptemp[l-1] - ((l-1)/l) * ptemp[l-2]],
    and [dpl[l]] is [0] for [l = 0] and
    [(1/sqrt(1-x^2)) * (l*x*pl[l] - fl*pl[l-1])] with
    [fl = sqrt(l^2 * (2l+1) / (2l-1))] for [l >= 1]. The arithmetic is
    any in which [2.0*1 + 1.0] is [3.0]; the formulas hold at every
    [x], inside the interval (-1, 1) or not. *)
Theorem legendre_polynomials_recurrence (lmax : Z) (xs : list F) :
  fadd (fmul (of_int 2) (of_int 1)) (of_int 1) = of_int 3 →
  2 ≤ lmax →
  ∃ pl dpl,
    legendre_polynomials lmax (XArray xs) = Ok (pl, dpl) ∧
    ∀ (l j : nat) (xv : F),
      Z.of_nat l ≤ lmax → xs !! j = Some xv →
      entry pl l j = Some (pl_spec xv l) ∧
      entry dpl l j = Some (dpl_spec xv l).
Proof.
  intros H3 Hl.
  destruct (legendre_rows (Z.to_nat lmax) (XArray xs)) as (pl & dpl & Hrun & _ & _ & Hrows);
    [lia |].
  rewrite Z2Nat.id in Hrun by lia.
  exists pl, dpl. split; [exact Hrun |].
  intros l j xv Hle Hj. destruct (Hrows l ltac:(lia)) as [Hp Hd].
  rewrite <- (pl_value_spec xv l H3), <- (dpl_value_spec xv l H3).
  split.
  - exact (entry_of_row pl l j (λ x, pl_value x l) xs xv Hp Hj).
  - exact (entry_of_row dpl l j (λ x, dpl_value x l) xs xv Hd Hj).
Qed.

(** C4, as amended: for every [lmax >= 1] and every scalar [x],
    [legendre_polynomials(lmax, x)] returns [pl] with [pl[0] = 1] and
    [pl[1] = sqrt(3) * x]. *)
Theorem legendre_polynomials_degree_0_1 (lmax : Z) (x : F) :
  1 ≤ lmax →
  ∃ pl dpl,
    legendre_polynomials lmax (XScalar x) = Ok (pl, dpl) ∧
    entry pl 0 0 = Some (of_int 1) ∧
    entry pl 1 0 = Some (fmul (fsqrt (of_int 3)) x).
Proof.
  intros Hl.
  destruct (legendre_rows (Z.to_nat lmax) (XScalar x)) as (pl & dpl & Hrun & _ & _ & Hrows);
    [lia |].
  rewrite Z2Nat.id in Hrun by lia.
  exists pl, dpl. split; [exact Hrun |].
  destruct (Hrows 0%nat ltac:(lia)) as [Hp0 _].
  destruct (Hrows 1%nat ltac:(lia)) as [Hp1 _].
  unfold entry. rewrite Hp0, Hp1. split; reflexivity.
Qed.

(** C5, as amended: for every [lmax >= 1] and every [x],
    [legendre_polynomials(lmax, x)] returns two matrices of shape
    [(lmax+1, len(x))]; for a negative [lmax] it raises an exception. *)
Theorem legendre_polynomials_shape (lmax : Z) (x : xarg F) :
  (1 ≤ lmax →
   ∃ pl dpl,
     legendre_polynomials lmax x = Ok (pl, dpl) ∧
     shape pl = (Z.to_nat (lmax + 1), length (x_values x)) ∧
     shape dpl = (Z.to_nat (lmax + 1), length (x_values x))) ∧
  (lmax < 0 →
   legendre_polynomials lmax x
   = Raise (if bool_decide (lmax = -1) then IndexError else ValueError)).
Proof.
  split.
  - intros Hl.
    destruct (legendre_rows (Z.to_nat lmax) x) as (pl & dpl & Hrun & Hs & Hs' & _);
      [lia |].
    rewrite Z2Nat.id in Hrun by lia.
    exists pl, dpl. split; [exact Hrun |].
    replace (Z.to_nat (lmax + 1)) with (S (Z.to_nat lmax)) by lia.
    by split.
  - intros Hl. unfold legendre_polynomials. case_bool_decide as Hm.
    + subst lmax. simpl Z.add.
      rewrite (np_zeros_nat 0), !bind_Ok. reflexivity.
    + unfold np_zeros. rewrite bool_decide_eq_true_2 by lia. reflexivity.
Qed.
End LegendreClaims.

Lemma legendre_polynomials_recurrence_witness :
  ∃ pl dpl,
    legendre_polynomials 2 (XArray [0.5%float; (-0.25)%float]) = Ok (pl, dpl) ∧
    ∀ (l j : nat) (xv : float),
      Z.of_nat l ≤ 2 → [0.5%float; (-0.25)%float] !! j = Some xv →
      entry pl l j = Some (pl_spec xv l) ∧
      entry dpl l j = Some (dpl_spec xv l).
Proof.
  apply (legendre_polynomials_recurrence 2 [0.5%float; (-0.25)%float]);
    [reflexivity | lia].
Defined.

Lemma legendre_polynomials_degree_0_1_witness :
  ∃ pl dpl,
    legendre_polynomials 1 (XScalar 0.5%float) = Ok (pl, dpl) ∧
    entry pl 0 0 = Some (of_int 1) ∧
    entry pl 1 0 = Some (fmul (fsqrt (of_int 3)) 0.5%float).
Proof. apply (legendre_polynomials_degree_0_1 1 0.5%float). lia. Defined.

(** C4 fails at [lmax = 0]: the matrices have one row, and
    [ptemp[1,:] = x] is out of bounds. *)
Lemma legendre_polynomials_degree_0_1_counterexample :
  legendre_polynomials 0 (XScalar 0.5%float) = Raise IndexError ∧
  ¬ ∃ pl dpl,
      legendre_polynomials 0 (XScalar 0.5%float) = Ok (pl, dpl) ∧
      entry pl 0 0 = Some (of_int 1) ∧
      entry pl 1 0 = Some (fmul (fsqrt (of_int 3)) 0.5%float).
Proof.
  split; [reflexivity |].
  intros (pl & dpl & Hrun & _). discriminate Hrun.
Qed.

Lemma legendre_polynomials_shape_witness :
  ∃ pl dpl,
    legendre_polynomials 3 (XArray [0.5%float; (-0.25)%float]) = Ok (pl, dpl) ∧
    shape pl = (4%nat, 2%nat) ∧ shape dpl = (4%nat, 2%nat).
Proof.
  apply (proj1 (legendre_polynomials_shape 3 (XArray [0.5%float; (-0.25)%float]))).
  lia.
Defined.

(** C5 fails at [lmax = -1] (and at [lmax = 0]): no empty output, but an
    index out of bounds at [ptemp[0,:] = 1.0] (at [ptemp[1,:] = x]). *)
Lemma legendre_polynomials_shape_counterexample :
  legendre_polynomials (-1) (XArray [0.5%float]) = Raise IndexError ∧
  legendre_polynomials 0 (XArray [0.5%float]) = Raise IndexError ∧
  ¬ ∃ pl dpl,
      legendre_polynomials (-1) (XArray [0.5%float]) = Ok (pl, dpl) ∧
      shape pl = (0%nat, 1%nat) ∧ shape dpl = (0%nat, 1%nat).
Proof.
  split; [reflexivity |]. split; [reflexivity |].
  intros (pl & dpl & Hrun & _). discriminate Hrun.
Qed.

(** ** Strings and patterns *)

Lemma prefix_app (a s : string) :
  String.prefix a s = true → ∃ rest, s = a ++ rest.
Proof.
  revert s. induction a as [|c a IH]; intros s Hp.
  - exists s. reflexivity.
  - destruct s as [|d s]; [discriminate |]. simpl in Hp.
    destruct (ascii_dec c d) as [-> | Hne]; [| discriminate].
    destruct (IH s Hp) as [rest ->]. exists rest. reflexivity.
Qed.

Lemma contains_tail (needle : string) (c : ascii) (s : string) :
  contains needle s = true → contains needle (String c s) = true.
Proof.
  intros Hs.
  change (contains needle (String c s))
    with (if String.prefix needle (String c s) then true else contains needle s).
  rewrite Hs. by destruct (String.prefix needle (String c s)).
Qed.

(** What the name of the file contains, its path contains. *)
Lemma contains_basename (needle p : string) :
  contains needle (basename p) = true → contains needle p = true.
Proof.
  induction p as [|c p IH]; [done |].
  simpl basename. destruct (contains "/" p).
  - intros Hb. apply contains_tail, IH, Hb.
  - destruct (Ascii.eqb c "/"); [apply contains_tail | done].
Qed.

Lemma append_nil (s : string) : "" ++ s = s.
Proof. reflexivity. Qed.

Lemma append_cons (c : ascii) (w s : string) : String c w ++ s = String c (w ++ s).
Proof. reflexivity. Qed.

Lemma split_go_word (w rest : string) :
  (∀ c, In c (list_ascii_of_string w) → is_space c = false) →
  split_go (w ++ rest) = (w ++ fst (split_go rest), snd (split_go rest)).
Proof.
  induction w as [|c w IH]; intros Hw.
  - rewrite !append_nil. by destruct (split_go rest).
  - rewrite !append_cons. simpl split_go.
    rewrite IH by (intros d Hd; apply Hw; right; exact Hd).
    rewrite (Hw c) by (left; reflexivity). reflexivity.
Qed.

(** A line that starts with a word without blanks has a first token, and
    the token starts with that word. *)
Lemma py_split_word (c : ascii) (w rest : string) :
  (∀ d, In d (list_ascii_of_string (String c w)) → is_space d = false) →
  ∃ t, py_split (String c w ++ rest) !! 0%nat = Some (String c w ++ t).
Proof.
  intros Hw. unfold py_split. rewrite split_go_word by exact Hw.
  exists (fst (split_go rest)). rewrite append_cons. reflexivity.
Qed.

Lemma prefix_app_true (a s : string) : String.prefix a (a ++ s) = true.
Proof.
  induction a as [|c a IH]; [by destruct s |].
  rewrite append_cons. simpl. destruct (ascii_dec c c); [exact IH | done].
Qed.

Lemma header_line_key (line : string) :
  re_match parameters_regex line = true →
  ∃ key, py_split line !! 0%nat = Some key ∧ is_header_key key = true.
Proof.
  unfold re_match, match_at, parameters_regex, header_parameters, is_header_key.
  intros Hm. apply bool_decide_eq_true_1 in Hm. simpl in Hm.
  assert (Hkw : ∃ kw, In kw header_parameters ∧ String.prefix kw line = true).
  { unfold header_parameters, or_else in *.
    repeat match type of Hm with
    | context [String.prefix ?k line] =>
        destruct (String.prefix k line) eqn:?;
          [exists k; split; [simpl; tauto | assumption] |]
    end.
    destruct Hm as [? Hm]. discriminate Hm. }
  destruct Hkw as (kw & Hin & Hp).
  destruct (prefix_app _ _ Hp) as [rest ->].
  assert (Hns : ∀ d, In d (list_ascii_of_string kw) → is_space d = false).
  { simpl in Hin. intros d Hd.
    repeat (destruct Hin as [<- | Hin];
      [simpl in Hd; repeat (destruct Hd as [<- | Hd]; [reflexivity |]); done |]).
    done. }
  destruct kw as [|c kw]; [simpl in Hin; intuition discriminate |].
  destruct (py_split_word c kw rest Hns) as [t Ht].
  exists (String c kw ++ t). split; [exact Ht |].
  simpl in Hin.
  repeat (destruct Hin as [Hin | Hin];
    [rewrite <- Hin; simpl existsb;
     rewrite ?(prefix_app_true _ t); simpl; rewrite ?orb_true_r; try reflexivity |]);
  try done.
Qed.

(** ** Entries of a matrix under [a[i,j] = v] *)

Section SetItem.
Context {F : Type} `{FloatArith F}.

Lemma of_option_Ok {A} (e : exn) (o : option A) (a : A) :
  of_option e o = Ok a → o = Some a.
Proof. destruct o; simpl; congruence. Qed.

Lemma set_item_Ok (a a' : ndarray F) (i j : Z) (v : F) :
  set_item a i j v = Ok a' →
  ∃ k c r,
    np_index (length (rows a)) i = Ok k ∧ np_index (ncols a) j = Ok c ∧
    rows a !! k = Some r ∧
    a' = mk_ndarray (ncols a) (<[k := <[c := v]> r]> (rows a)).
Proof.
  unfold set_item. intros Hs.
  apply bind_Ok_inv in Hs as (k & Hk & Hs).
  apply bind_Ok_inv in Hs as (c & Hc & Hs).
  apply bind_Ok_inv in Hs as (r & Hr & Hs).
  apply of_option_Ok in Hr. injection Hs as <-.
  exists k, c, r. done.
Qed.

Lemma set_item_square (L : Z) (a a' : ndarray F) (i j : Z) (v : F) :
  square L a → set_item a i j v = Ok a' → square L a'.
Proof.
  intros [Hs Hw] Hset.
  apply set_item_Ok in Hset as (k & c & r & _ & _ & Hr & ->).
  unfold square, shape, well_shaped in *. simpl. rewrite length_insert.
  split; [exact Hs |].
  apply Forall_insert; [exact Hw |].
  rewrite length_insert. eapply Forall_lookup_1 in Hw; eauto.
Qed.

Lemma set_item_entry_ne (a a' : ndarray F) (i j : Z) (v : F) (k c l m : nat) :
  set_item a i j v = Ok a' →
  np_index (length (rows a)) i = Ok k → np_index (ncols a) j = Ok c →
  (l ≠ k ∨ m ≠ c) → entry a' l m = entry a l m.
Proof.
  intros Hset Hk Hc Hne.
  apply set_item_Ok in Hset as (k' & c' & r & Hk' & Hc' & Hr & ->).
  rewrite Hk in Hk'. rewrite Hc in Hc'. injection Hk' as <-. injection Hc' as <-.
  unfold entry. simpl.
  destruct (decide (l = k)) as [-> | Hl].
  - rewrite list_lookup_insert_eq by (eapply lookup_lt_Some; eauto).
    rewrite Hr. simpl. apply list_lookup_insert_ne. intros ->. tauto.
  - by rewrite list_lookup_insert_ne.
Qed.

Lemma set_item_entry_eq (a a' : ndarray F) (i j : Z) (v : F) (k c : nat) :
  well_shaped a → set_item a i j v = Ok a' →
  np_index (length (rows a)) i = Ok k → np_index (ncols a) j = Ok c →
  entry a' k c = Some v.
Proof.
  intros Hw Hset Hk Hc.
  apply set_item_Ok in Hset as (k' & c' & r & Hk' & Hc' & Hr & ->).
  rewrite Hk in Hk'. rewrite Hc in Hc'. injection Hk' as <-. injection Hc' as <-.
  unfold entry. simpl.
  rewrite list_lookup_insert_eq by (eapply lookup_lt_Some; eauto). simpl.
  apply list_lookup_insert_eq.
  eapply Forall_lookup_1 in Hw; eauto. simpl in Hw. rewrite Hw.
  apply np_index_Ok in Hc. tauto.
Qed.

(** A write on or below the diagonal leaves what is above it. *)
Lemma set_item_lower_triangular (a a' : ndarray F) (i j : Z) (v : F) :
  0 ≤ j ≤ i → lower_triangular a → set_item a i j v = Ok a' → lower_triangular a'.
Proof.
  intros Hij Hlow Hset l m x Hlm He.
  pose proof Hset as Hset'.
  apply set_item_Ok in Hset' as (k & c & r & Hk & Hc & _ & _).
  rewrite (set_item_entry_ne a a' i j v k c l m Hset Hk Hc) in He.
  - exact (Hlow l m x Hlm He).
  - apply np_index_Ok in Hk as [Hk' Hk], Hc as [Hc' Hc]. lia.
Qed.

Lemma zeros_entry (n m l c : nat) (x : F) :
  entry (mk_ndarray m (replicate n (replicate m (of_int 0)))) l c = Some x →
  x = of_int 0.
Proof.
  unfold entry. simpl. intros He.
  destruct (replicate n _ !! l) as [r|] eqn:Hr; [| discriminate].
  apply lookup_replicate in Hr as [-> _]. simpl in He.
  apply lookup_replicate in He as [-> _]. reflexivity.
Qed.

Lemma np_zeros_Ok (L : Z) (a : ndarray F) :
  np_zeros (L + 1) (L + 1) = Ok a → square L a ∧ lower_triangular a.
Proof.
  unfold np_zeros. case_bool_decide; [discriminate |]. intros [= <-].
  split; [split |].
  - unfold shape. simpl. by rewrite length_replicate.
  - unfold well_shaped. simpl. apply Forall_replicate. apply length_replicate.
  - intros l m x _. apply zeros_entry.
Qed.
End SetItem.

(** ** The stages of the reader *)

Section Stages.
Context {F : Type} `{FloatArith F}.

Lemma lookup_mat_Ok (m : gmap string (value F)) (key : string) (a : ndarray F) :
  lookup_mat m key = Ok a → m !! key = Some (VMat a).
Proof.
  unfold lookup_mat. intros Hl. apply bind_Ok_inv in Hl as ([| |b] & Hv & Hl);
    try discriminate.
  apply of_option_Ok in Hv. congruence.
Qed.

Lemma lookup_mat_Some (m : gmap string (value F)) (key : string) (a : ndarray F) :
  m !! key = Some (VMat a) → lookup_mat m key = Ok a.
Proof. intros Hl. unfold lookup_mat. by rewrite Hl. Qed.

Lemma lookup_str_Some (m : gmap string (value F)) (key s : string) :
  m !! key = Some (VStr s) → lookup_str m key = Ok s.
Proof. intros Hl. unfold lookup_str. by rewrite Hl. Qed.

Lemma store_Ok (key : string) (l1 m1 : Z) (toks : list string) (i : nat)
    (m m' : gmap string (value F)) :
  store key l1 m1 toks i m = Ok m' →
  ∃ a a' v, m !! key = Some (VMat a) ∧ set_item a l1 m1 v = Ok a' ∧
            m' = <[key := VMat a']> m.
Proof.
  unfold store. intros Hs.
  apply bind_Ok_inv in Hs as (t & _ & Hs).
  apply bind_Ok_inv in Hs as (v & _ & Hs).
  apply bind_Ok_inv in Hs as (a & Ha & Hs).
  apply bind_Ok_inv in Hs as (a' & Ha' & Hs).
  apply lookup_mat_Ok in Ha. injection Hs as <-.
  exists a, a', v. done.
Qed.

Lemma has_matrix_insert (P : ndarray F → Prop) (m : gmap string (value F))
    (key k : string) (a : ndarray F) :
  P a → has_matrix P m k → has_matrix P (<[key := VMat a]> m) k.
Proof.
  intros Ha (b & Hb & Hp). unfold has_matrix.
  destruct (decide (key = k)) as [-> | Hne].
  - exists a. by rewrite lookup_insert_eq.
  - exists b. by rewrite lookup_insert_ne.
Qed.

Section Invariant.
Variable P : ndarray F → Prop.
Variable Q : Z → Z → Prop.
Hypothesis P_set_item : ∀ a a' l1 m1 v,
  Q l1 m1 → P a → set_item a l1 m1 v = Ok a' → P a'.

Lemma store_matrices (model_file key : string) (l1 m1 : Z) (toks : list string)
    (i : nat) (m m' : gmap string (value F)) :
  In key matrix_keys → Q l1 m1 → matrices P model_file m →
  store key l1 m1 toks i m = Ok m' →
  matrices P model_file m' ∧ ∀ k, k ≠ key → m' !! k = m !! k.
Proof.
  intros Hin Hq Hm Hs.
  apply store_Ok in Hs as (a & a' & v & Ha & Hset & ->).
  split; [| intros k Hk; by rewrite lookup_insert_ne].
  assert (Hp : P a').
  { apply (P_set_item a a' l1 m1 v Hq); [| exact Hset].
    destruct Hm as ((c & Hc & Pc) & (s & Hs & Ps) & He).
    simpl in Hin. destruct Hin as [<- | [<- | [<- | [<- | []]]]].
    - congruence.
    - congruence.
    - destruct (contains "SW_" model_file).
      + destruct He as [He _]. congruence.
      + destruct He as [(e & He & Pe) _]. congruence.
    - destruct (contains "SW_" model_file).
      + destruct He as [_ He]. congruence.
      + destruct He as [_ (e & He & Pe)]. congruence. }
  destruct Hm as (Hc & Hs & He). unfold matrices.
  split; [by apply has_matrix_insert |].
  split; [by apply has_matrix_insert |].
  destruct (contains "SW_" model_file).
  - destruct He as [He1 He2].
    simpl in Hin. destruct Hin as [<- | [<- | [<- | [<- | []]]]];
      try congruence; by rewrite !lookup_insert_ne.
  - destruct He as [He1 He2]. split; by apply has_matrix_insert.
Qed.

Lemma line_indices_read (line t1 t2 : string) (l1 m1 : Z) :
  py_nth (py_split (sub_d_e line)) 1 = Ok t1 → int_of t1 = Ok l1 →
  py_nth (py_split (sub_d_e line)) 2 = Ok t2 → int_of t2 = Ok m1 →
  line_indices line = Some (l1, m1).
Proof.
  unfold py_nth, int_of, line_indices. intros H1 H2 H3 H4.
  apply of_option_Ok in H1, H2, H3, H4.
  rewrite H1. simpl. rewrite H2. simpl. rewrite H3. simpl. rewrite H4.
  reflexivity.
Qed.

Lemma read_line_matrices (model_file line : string) (L : Z)
    (m m' : gmap string (value F)) :
  (∀ l1 m1, line_indices line = Some (l1, m1) → Q l1 m1) →
  matrices P model_file m →
  read_line model_file L line m = Ok m' →
  matrices P model_file m' ∧ ∀ k, ¬ In k matrix_keys → m' !! k = m !! k.
Proof.
  intros Hq Hm. unfold read_line. intros Hr.
  apply bind_Ok_inv in Hr as (t1 & Ht1 & Hr).
  apply bind_Ok_inv in Hr as (l1 & Hl1 & Hr).
  apply bind_Ok_inv in Hr as (t2 & Ht2 & Hr).
  apply bind_Ok_inv in Hr as (m1 & Hm1 & Hr).
  pose proof (Hq l1 m1 (line_indices_read line t1 t2 l1 m1 Ht1 Hl1 Ht2 Hm1)) as Hq1.
  case_bool_decide; [| injection Hr as <-; done].
  apply bind_Ok_inv in Hr as (ma & Ha & Hr).
  apply (store_matrices model_file) in Ha as [Hma Hfa];
    [| simpl; tauto | exact Hq1 | exact Hm].
  apply bind_Ok_inv in Hr as (mb & Hb & Hr).
  apply (store_matrices model_file) in Hb as [Hmb Hfb];
    [| simpl; tauto | exact Hq1 | exact Hma].
  assert (Hfab : ∀ k, ¬ In k matrix_keys → mb !! k = m !! k).
  { intros k Hk. rewrite Hfb, Hfa; [done | |]; intros ->; apply Hk; simpl; tauto. }
  destruct (negb (contains "SW_" model_file)); [| injection Hr as <-; done].
  apply bind_Ok_inv in Hr as (mc & Hc & Hr).
  apply (store_matrices model_file) in Hc as [Hmc Hfc];
    [| simpl; tauto | exact Hq1 | exact Hmb].
  apply (store_matrices model_file) in Hr as [Hmd Hfd];
    [| simpl; tauto | exact Hq1 | exact Hmc].
  split; [exact Hmd |].
  intros k Hk. rewrite Hfd, Hfc, Hfab; [done | exact Hk | |];
    intros ->; apply Hk; simpl; tauto.
Qed.

Lemma read_data_matrices (model_file : string) (L : Z) (FLAG : regex)
    (file_contents : list string) (m m' : gmap string (value F)) :
  (∀ line l1 m1, In line (List.filter (re_match FLAG) file_contents) →
     line_indices line = Some (l1, m1) → Q l1 m1) →
  matrices P model_file m →
  read_data model_file L FLAG file_contents m = Ok m' →
  matrices P model_file m' ∧ ∀ k, ¬ In k matrix_keys → m' !! k = m !! k.
Proof.
  intros Hq Hm Hr. unfold read_data in Hr.
  apply (for_each_preserves
           (λ s, matrices P model_file s ∧ ∀ k, ¬ In k matrix_keys → s !! k = m !! k))
    in Hr; [exact Hr | by split |].
  intros line s s' Hin [Hs Hf] Hline.
  apply list_elem_of_In in Hin.
  apply read_line_matrices in Hline as [Hs' Hf']; [| eauto | exact Hs].
  split; [exact Hs' |]. intros k Hk. by rewrite Hf', Hf.
Qed.
End Invariant.

Lemma allocate_matrices (model_file : string) (L : Z) (m m' : gmap string (value F)) :
  m !! "eclm" = None → m !! "eslm" = None →
  allocate model_file L m = Ok m' →
  matrices (λ a, square L a ∧ lower_triangular a) model_file m' ∧
  ∀ k, ¬ In k matrix_keys → m' !! k = m !! k.
Proof.
  intros He1 He2. unfold allocate. intros Ha.
  apply bind_Ok_inv in Ha as (clm & Hclm & Ha).
  apply bind_Ok_inv in Ha as (slm & Hslm & Ha).
  apply np_zeros_Ok in Hclm, Hslm.
  unfold matrices. destruct (contains "SW_" model_file); simpl in Ha.
  - injection Ha as <-. split.
    + split; [| split].
      * exists clm. by rewrite lookup_insert_ne, lookup_insert_eq.
      * exists slm. by rewrite lookup_insert_eq.
      * by rewrite !lookup_insert_ne.
    + intros k Hk. rewrite !lookup_insert_ne; [done | |];
        intros <-; apply Hk; simpl; tauto.
  - apply bind_Ok_inv in Ha as (eclm & Heclm & Ha).
    apply bind_Ok_inv in Ha as (eslm & Heslm & Ha).
    apply np_zeros_Ok in Heclm, Heslm. injection Ha as <-. split.
    + split; [| split; [| split]].
      * exists clm. by do 3 (rewrite lookup_insert_ne by done); rewrite lookup_insert_eq.
      * exists slm. by do 2 (rewrite lookup_insert_ne by done); rewrite lookup_insert_eq.
      * exists eclm. by rewrite lookup_insert_ne, lookup_insert_eq.
      * exists eslm. by rewrite lookup_insert_eq.
    + intros k Hk. rewrite !lookup_insert_ne; [done | | | |];
        intros <-; apply Hk; simpl; tauto.
Qed.

(** The header only writes keys that start with one of its keywords. *)
Lemma read_header_frame (file_contents : list string) (m m' : gmap string (value F))
    (k : string) :
  is_header_key k = false →
  read_header file_contents m = Ok m' → m' !! k = m !! k.
Proof.
  intros Hk Hr. unfold read_header in Hr.
  apply (for_each_preserves (λ s, s !! k = m !! k)) in Hr; [exact Hr | done |].
  intros line s s' Hin Hs Hline.
  apply list_elem_of_In, filter_In in Hin as [_ Hmatch].
  destruct (header_line_key line Hmatch) as (key & Hkey & Hhk).
  apply bind_Ok_inv in Hline as (v & _ & Hline).
  apply bind_Ok_inv in Hline as (key' & Hkey' & Hline).
  apply of_option_Ok in Hkey'. rewrite Hkey in Hkey'. injection Hkey' as <-.
  injection Hline as <-.
  rewrite lookup_insert_ne; [exact Hs |]. intros ->. congruence.
Qed.

(** The name of the file gives the keys [time], [start] and [end], and
    no other. *)
Lemma temporal_fields_keys (model_file : string) (vars : filename_vars F)
    (m : gmap string (value F)) (k : string) :
  temporal_fields model_file vars ∅ = Ok m →
  k ≠ "time" → k ≠ "start" → k ≠ "end" → m !! k = None.
Proof.
  unfold temporal_fields. intros Ht H1 H2 H3.
  destruct (contains "ITSG" model_file || contains "SW_" model_file).
  - destruct vars as [|year month|]; try discriminate.
    destruct (month_days year month) as [[dpy sd] ed].
    destruct (int_overflows year); [discriminate Ht |].
    injection Ht as <-. by rewrite !lookup_insert_ne, lookup_empty.
  - destruct (contains "COSTG" model_file).
    + destruct vars as [| |sy ey sd ed]; try discriminate.
      injection Ht as <-. by rewrite !lookup_insert_ne, lookup_empty.
    + injection Ht as <-. apply lookup_empty.
Qed.
End Stages.

(** ** The reader as a whole *)

Section Read.
Context {F : Type} `{FloatArith F}.
Variable calculate_tidal_offset : string → F → F → string → F.

Lemma matrices_mono (P P' : ndarray F → Prop) (model_file : string)
    (m : gmap string (value F)) :
  (∀ a, P a → P' a) → matrices P model_file m → matrices P' model_file m.
Proof.
  intros HP ((c & Hc & Pc) & (s & Hs & Ps) & He). unfold matrices, has_matrix.
  split; [eauto |]. split; [eauto |].
  destruct (contains "SW_" model_file); [exact He |].
  destruct He as ((e1 & He1 & Pe1) & (e2 & He2 & Pe2)). eauto 10.
Qed.

Lemma matrices_lookup (P : ndarray F → Prop) (model_file key : string)
    (m : gmap string (value F)) (a : ndarray F) :
  matrices P model_file m → In key matrix_keys → m !! key = Some (VMat a) → P a.
Proof.
  intros ((c & Hc & Pc) & (s & Hs & Ps) & He) Hin Ha.
  simpl in Hin. destruct Hin as [<- | [<- | [<- | [<- | []]]]].
  - congruence.
  - congruence.
  - destruct (contains "SW_" model_file).
    + destruct He as [He _]. congruence.
    + destruct He as [(e & He & Pe) _]. congruence.
  - destruct (contains "SW_" model_file).
    + destruct He as [_ He]. congruence.
    + destruct He as [_ (e & He & Pe)]. congruence.
Qed.

Lemma parse_model_Ok (model_file text : string) (LMAX : option Z) (FLAG : regex)
    (L : Z) (m : gmap string (value F)) :
  parse_model model_file text LMAX FLAG = Ok (L, m) →
  ∃ vars m1 m2 m3,
    filename_fields model_file = Ok vars ∧
    temporal_fields model_file vars ∅ = Ok m1 ∧
    read_header (splitlines text) m1 = Ok m2 ∧
    truncation m2 LMAX = Ok L ∧
    allocate model_file L m2 = Ok m3 ∧
    read_data model_file L FLAG (splitlines text) m3 = Ok m.
Proof.
  unfold parse_model. intros Hp.
  apply bind_Ok_inv in Hp as (vars & Hv & Hp).
  apply bind_Ok_inv in Hp as (m1 & H1 & Hp).
  apply bind_Ok_inv in Hp as (m2 & H2 & Hp).
  apply bind_Ok_inv in Hp as (L' & HL & Hp).
  apply bind_Ok_inv in Hp as (m3 & H3 & Hp).
  apply bind_Ok_inv in Hp as (m4 & H4 & Hp).
  injection Hp as -> ->.
  exists vars, m1, m2, m3. done.
Qed.

(** After the lines of data, the matrices have the degree of truncation
    for their size, and any property that the writes by the lines of
    the file keep. *)
Lemma parse_model_matrices (P : ndarray F → Prop) (Q : Z → Z → Prop)
    (model_file text : string) (LMAX : option Z) (FLAG : regex)
    (L : Z) (m : gmap string (value F)) :
  (∀ a a' l1 m1 v, Q l1 m1 → P a → set_item a l1 m1 v = Ok a' → P a') →
  (∀ a, square L a → lower_triangular a → P a) →
  (∀ line l1 m1, In line (data_lines FLAG text) →
     line_indices line = Some (l1, m1) → Q l1 m1) →
  parse_model model_file text LMAX FLAG = Ok (L, m) →
  matrices P model_file m.
Proof.
  intros Hset Hzero Hq Hp.
  apply parse_model_Ok in Hp as (vars & m1 & m2 & m3 & _ & H1 & H2 & _ & H3 & H4).
  apply allocate_matrices in H3 as [H3 _].
  - apply (matrices_mono _ P) in H3; [| intros a [? ?]; by apply Hzero].
    by apply (read_data_matrices P Q Hset) in H4 as [H4 _].
  - rewrite (read_header_frame _ _ _ "eclm" eq_refl H2).
    by apply (temporal_fields_keys _ _ _ _ H1).
  - rewrite (read_header_frame _ _ _ "eslm" eq_refl H2).
    by apply (temporal_fields_keys _ _ _ _ H1).
Qed.

(** What the name of the file gave is what the record holds: the header
    and the lines of data write other keys. *)
Lemma parse_model_frame (model_file text : string) (LMAX : option Z) (FLAG : regex)
    (L : Z) (m m1 : gmap string (value F)) (vars : filename_vars F) (k : string) :
  parse_model model_file text LMAX FLAG = Ok (L, m) →
  filename_fields model_file = Ok vars →
  temporal_fields model_file vars ∅ = Ok m1 →
  is_header_key k = false → ¬ In k matrix_keys →
  m !! k = m1 !! k.
Proof.
  intros Hp Hv H1 Hk Hk'.
  apply parse_model_Ok in Hp as (vars' & m1' & m2 & m3 & Hv' & H1' & H2 & _ & H3 & H4).
  rewrite Hv in Hv'. injection Hv' as <-. rewrite H1 in H1'. injection H1' as <-.
  apply allocate_matrices in H3 as [H3 Ha].
  - apply (matrices_mono _ (λ _, True)) in H3; [| done].
    apply (read_data_matrices (λ _, True) (λ _ _, True)) in H4 as [_ H4]; [| done..].
    rewrite (H4 k Hk'), (Ha k Hk'). exact (read_header_frame _ _ _ k Hk H2).
  - rewrite (read_header_frame _ _ _ "eclm" eq_refl H2).
    by apply (temporal_fields_keys _ _ _ _ H1).
  - rewrite (read_header_frame _ _ _ "eslm" eq_refl H2).
    by apply (temporal_fields_keys _ _ _ _ H1).
Qed.

Lemma read_Ok (model_file text : string) (LMAX : option Z) (TIDE : string)
    (FLAG : regex) (r : gmap string (value F)) :
  read_ICGEM_harmonics calculate_tidal_offset model_file text LMAX TIDE FLAG = Ok r →
  ∃ L m, parse_model model_file text LMAX FLAG = Ok (L, m) ∧
         tide_correction calculate_tidal_offset TIDE m = Ok r.
Proof.
  unfold read_ICGEM_harmonics. intros Hr.
  apply bind_Ok_inv in Hr as ([L m] & Hp & Hr). eauto.
Qed.

Lemma read_parse (model_file text : string) (LMAX : option Z) (TIDE : string)
    (FLAG : regex) (L : Z) (m : gmap string (value F)) :
  parse_model model_file text LMAX FLAG = Ok (L, m) →
  read_ICGEM_harmonics calculate_tidal_offset model_file text LMAX TIDE FLAG
  = tide_correction calculate_tidal_offset TIDE m.
Proof. intros Hp. unfold read_ICGEM_harmonics. by rewrite Hp. Qed.

(** ** The tide system *)

Lemma tide_correction_none (TIDE : string) (m : gmap string (value F)) :
  TIDE ≠ "mean_tide" → TIDE ≠ "zero_tide" →
  tide_correction calculate_tidal_offset TIDE m = Ok m.
Proof.
  intros H1 H2. unfold tide_correction.
  rewrite bool_decide_eq_false_2 by tauto. reflexivity.
Qed.

Lemma tide_correction_Ok (TIDE : string) (m r : gmap string (value F)) :
  TIDE = "mean_tide" ∨ TIDE = "zero_tide" →
  tide_correction calculate_tidal_offset TIDE m = Ok r →
  ∃ clm clm' v, m !! "clm" = Some (VMat clm) ∧ set_item clm 2 0 v = Ok clm' ∧
                r = <["clm" := VMat clm']> (<["tide_system" := VStr TIDE]> m).
Proof.
  intros Ht. unfold tide_correction. rewrite bool_decide_eq_true_2 by exact Ht.
  intros Hr.
  apply bind_Ok_inv in Hr as (g & _ & Hr).
  apply bind_Ok_inv in Hr as (GM & _ & Hr).
  apply bind_Ok_inv in Hr as (s & _ & Hr).
  apply bind_Ok_inv in Hr as (R & _ & Hr).
  apply bind_Ok_inv in Hr as (clm & Hclm & Hr).
  apply bind_Ok_inv in Hr as (c20 & _ & Hr).
  apply bind_Ok_inv in Hr as (clm' & Hset & Hr).
  apply lookup_mat_Ok in Hclm. rewrite lookup_insert_ne in Hclm by done.
  injection Hr as <-. eauto 10.
Qed.

(** The tide system keeps the matrices, and any property of them that
    a write to the entry (2,0) keeps. *)
Lemma tide_correction_matrices (P : ndarray F → Prop) (model_file TIDE : string)
    (m r : gmap string (value F)) :
  (∀ a a' v, P a → set_item a 2 0 v = Ok a' → P a') →
  matrices P model_file m →
  tide_correction calculate_tidal_offset TIDE m = Ok r →
  matrices P model_file r.
Proof.
  intros Hset Hm Hr.
  destruct (decide (TIDE = "mean_tide" ∨ TIDE = "zero_tide")) as [Ht | Ht].
  - apply (tide_correction_Ok _ _ _ Ht) in Hr as (clm & clm' & v & Hclm & Hs & ->).
    assert (Pc : P clm') by (eapply Hset; [| exact Hs];
      eapply matrices_lookup; [exact Hm | simpl; tauto | exact Hclm]).
    destruct Hm as (Hc & Hsl & He). unfold matrices.
    assert (Hins : ∀ k, k ≠ "tide_system" → has_matrix P m k →
              has_matrix P (<["clm" := VMat clm']> (<["tide_system" := VStr TIDE]> m)) k).
    { intros k Hk (b & Hb & Pb). apply has_matrix_insert; [exact Pc |].
      exists b. by rewrite lookup_insert_ne. }
    split; [by apply Hins |]. split; [by apply Hins |].
    destruct (contains "SW_" model_file).
    + by rewrite !lookup_insert_ne.
    + destruct He. split; by apply Hins.
  - rewrite tide_correction_none in Hr by tauto. by injection Hr as <-.
Qed.

Lemma get_item_nat (a : ndarray F) (k c : nat) :
  well_shaped a → (k < length (rows a))%nat → (c < ncols a)%nat →
  ∃ x, get_item a (Z.of_nat k) (Z.of_nat c) = Ok x ∧ entry a k c = Some x.
Proof.
  intros Hw Hk Hc. unfold get_item, entry.
  rewrite !np_index_nat, !bind_Ok by assumption.
  destruct (lookup_lt_is_Some_2 _ _ Hk) as [r Hr]. rewrite Hr. simpl.
  eapply Forall_lookup_1 in Hw; [| exact Hr]. simpl in Hw.
  destruct (lookup_lt_is_Some_2 r c ltac:(lia)) as [x Hx].
  exists x. by rewrite Hx.
Qed.

Lemma set_item_nat (a : ndarray F) (k c : nat) (v : F) :
  (k < length (rows a))%nat → (c < ncols a)%nat →
  ∃ a', set_item a (Z.of_nat k) (Z.of_nat c) v = Ok a'.
Proof.
  intros Hk Hc. unfold set_item.
  rewrite !np_index_nat, !bind_Ok by assumption.
  destruct (lookup_lt_is_Some_2 _ _ Hk) as [r Hr]. rewrite Hr. simpl. eauto.
Qed.

(** With the gravity constant and the radius in the header, the tide
    system comes down to the read and write of the entry (2,0). *)
Lemma tide_correction_header (TIDE g s : string) (GM R : F) (clm : ndarray F)
    (m : gmap string (value F)) :
  TIDE = "mean_tide" ∨ TIDE = "zero_tide" →
  m !! "earth_gravity_constant" = Some (VStr g) → float_of_string g = Some GM →
  m !! "radius" = Some (VStr s) → float_of_string s = Some R →
  m !! "clm" = Some (VMat clm) →
  tide_correction calculate_tidal_offset TIDE m
  = (c20 ← get_item clm 2 0;
     clm' ← set_item clm 2 0 (fadd c20 (calculate_tidal_offset TIDE GM R "WGS84"));
     Ok (<["clm" := VMat clm']> (<["tide_system" := VStr TIDE]> m))).
Proof.
  intros Ht Hg HGM Hs HR Hclm. unfold tide_correction.
  rewrite bool_decide_eq_true_2 by exact Ht. cbv zeta.
  rewrite (lookup_str_Some _ "earth_gravity_constant" g) by (by rewrite lookup_insert_ne).
  rewrite bind_Ok. unfold py_float. rewrite HGM. simpl of_option. rewrite bind_Ok.
  rewrite (lookup_str_Some _ "radius" s) by (by rewrite lookup_insert_ne).
  rewrite bind_Ok, HR. simpl of_option. rewrite bind_Ok.
  rewrite (lookup_mat_Some _ _ clm) by (by rewrite lookup_insert_ne).
  by rewrite bind_Ok.
Qed.

End Read.

Section ReadClaims.
Context {F : Type} `{FloatArith F}.
Variable calculate_tidal_offset : string → F → F → string → F.

Lemma tide_correction_frame (TIDE : string) (m r : gmap string (value F)) (k : string) :
  k ≠ "clm" → k ≠ "tide_system" →
  tide_correction calculate_tidal_offset TIDE m = Ok r → r !! k = m !! k.
Proof.
  intros H1 H2 Hr.
  destruct (decide (TIDE = "mean_tide" ∨ TIDE = "zero_tide")) as [Ht | Ht].
  - apply (tide_correction_Ok _ _ _ _ Ht) in Hr as (clm & clm' & v & _ & _ & ->).
    by rewrite !lookup_insert_ne.
  - rewrite tide_correction_none in Hr by tauto. by injection Hr as <-.
Qed.

(** C2, as amended: reading a file whose name is
    [ITSG-Grace2018_n96_2008-05.gfc] extracts the year 2008 and the
    month 5; 2008 is divisible by 4, so the table of the leap year
    gives [start_day = 122], [end_day = 152] and 366 days per year, and
    the stored time is [2008 + mean(122, 152)/366], that is
    [2008 + 137/366]. *)
Theorem read_ITSG_2008_05 (model_file : string) :
  basename model_file = "ITSG-Grace2018_n96_2008-05.gfc" →
  filename_fields (F := F) model_file = Ok (YearMonth 2008 5) ∧
  month_days (F := F) 2008 5 = (366, NInt 122, NInt 152) ∧
  ∀ text LMAX TIDE FLAG r,
    read_ICGEM_harmonics calculate_tidal_offset model_file text LMAX TIDE FLAG = Ok r →
    r !! "time"
    = Some (VNum (fadd (of_int 2008)
                       (fdiv (np_mean2 (of_int 122) (of_int 152)) (of_int 366)))).
Proof.
  intros Hb.
  assert (Hc : contains "ITSG" model_file = true).
  { apply contains_basename. rewrite Hb. reflexivity. }
  assert (Hf : filename_fields (F := F) model_file = Ok (YearMonth 2008 5)).
  { unfold filename_fields. rewrite Hc, Hb. reflexivity. }
  split; [exact Hf |]. split; [reflexivity |].
  intros text LMAX TIDE FLAG r Hr.
  apply read_Ok in Hr as (L & m & Hp & Ht).
  rewrite (tide_correction_frame TIDE m r "time") by done.
  erewrite (parse_model_frame model_file text LMAX FLAG L m _ _ "time" Hp Hf);
    [| unfold temporal_fields; rewrite Hc; reflexivity | reflexivity
     | simpl; intuition discriminate].
  reflexivity.
Qed.

(** With [LMAX = 0] the test [not LMAX] holds as it does with [None]. *)
Lemma read_LMAX_zero_as_None (model_file text TIDE : string) (FLAG : regex) :
  read_ICGEM_harmonics calculate_tidal_offset model_file text (Some 0) TIDE FLAG = read_ICGEM_harmonics calculate_tidal_offset model_file text None TIDE FLAG.
Proof. reflexivity. Qed.

(** A degree of truncation other than 0 is the one that is used. *)
Lemma truncation_supplied (m : gmap string (value F)) (k : Z) :
  k ≠ 0 → truncation m (Some k) = Ok k.
Proof.
  intros Hk. unfold truncation, py_not. by rewrite bool_decide_eq_false_2.
Qed.

(** C6, as amended: let [r0] be the record as parsed, with [L] the
    degree of truncation. With [TIDE = 'tide_free'] the reader returns
    [r0]. With [TIDE] one of ['mean_tide'] and ['zero_tide'], [L >= 2]
    and a header that gives the gravity constant [GM] and the radius
    [R], the reader returns a record in which C(2,0) is that of [r0]
    plus [calculate_tidal_offset(TIDE, GM, R, 'WGS84')], every other
    entry of [clm] is that of [r0], [tide_system] is [TIDE], and every
    other key holds what it holds in [r0]. *)
Theorem read_tide_system (model_file text : string) (LMAX : option Z)
    (TIDE : string) (FLAG : regex) (L : Z) (r0 : gmap string (value F)) :
  parse_model model_file text LMAX FLAG = Ok (L, r0) →
  read_ICGEM_harmonics calculate_tidal_offset model_file text LMAX "tide_free" FLAG = Ok r0 ∧
  (TIDE = "mean_tide" ∨ TIDE = "zero_tide" → 2 ≤ L →
   ∀ g s GM R,
     r0 !! "earth_gravity_constant" = Some (VStr g) → float_of_string g = Some GM →
     r0 !! "radius" = Some (VStr s) → float_of_string s = Some R →
     ∃ r1 c0 c1 c20,
       read_ICGEM_harmonics calculate_tidal_offset model_file text LMAX TIDE FLAG = Ok r1 ∧
       r0 !! "clm" = Some (VMat c0) ∧ r1 !! "clm" = Some (VMat c1) ∧
       entry c0 2 0 = Some c20 ∧
       entry c1 2 0 = Some (fadd c20 (calculate_tidal_offset TIDE GM R "WGS84")) ∧
       (∀ l m, (l ≠ 2 ∨ m ≠ 0)%nat → entry c1 l m = entry c0 l m) ∧
       shape c1 = shape c0 ∧
       r1 !! "tide_system" = Some (VStr TIDE) ∧
       ∀ k, k ≠ "clm" → k ≠ "tide_system" → r1 !! k = r0 !! k).
Proof.
  intros Hp. split.
  - rewrite (read_parse _ _ _ _ _ _ _ _ Hp). by apply tide_correction_none.
  - intros Ht HL g s GM R Hg HGM Hs HR.
    pose proof (parse_model_matrices (square L) (λ _ _, True) model_file text LMAX
                  FLAG L r0) as Hm.
    destruct Hm as ((c0 & Hc0 & [Hshape Hw]) & _); [| done | done | exact Hp |].
    { intros a a' l1 m1 v _. apply set_item_square. }
    unfold shape in Hshape. injection Hshape as Hrows Hcols.
    destruct (get_item_nat c0 2 0 Hw) as (c20 & Hget & He); [lia | lia |].
    set (v := fadd c20 (calculate_tidal_offset TIDE GM R "WGS84")).
    destruct (set_item_nat c0 2 0 v) as [c1 Hset]; [lia | lia |].
    change (Z.of_nat 2) with 2 in Hget, Hset. change (Z.of_nat 0) with 0 in Hget, Hset.
    exists (<["clm" := VMat c1]> (<["tide_system" := VStr TIDE]> r0)), c0, c1, c20.
    split.
    { rewrite (read_parse _ _ _ _ _ _ _ _ Hp).
      rewrite (tide_correction_header _ TIDE g s GM R c0 r0 Ht Hg HGM Hs HR Hc0).
      rewrite Hget, bind_Ok. fold v. by rewrite Hset. }
    split; [exact Hc0 |]. split; [by rewrite lookup_insert_eq |].
    split; [exact He |].
    pose proof Hset as Hset'.
    apply set_item_Ok in Hset' as (k & c & row & Hk & Hc & Hrow & Hc1).
    assert (k = 2%nat ∧ c = 0%nat) as [-> ->].
    { apply np_index_Ok in Hk, Hc. lia. }
    split; [exact (set_item_entry_eq c0 c1 2 0 v 2 0 Hw Hset Hk Hc) |].
    split; [intros l m Hlm; exact (set_item_entry_ne c0 c1 2 0 v 2 0 l m Hset Hk Hc Hlm) |].
    split; [rewrite Hc1; unfold shape; simpl; by rewrite length_insert |].
    split; [by rewrite lookup_insert_ne, lookup_insert_eq |].
    intros key H1 H2. by rewrite !lookup_insert_ne.
Qed.

(** C7, as amended: for every file whose lines of data all have an
    order between 0 and their degree, every matrix of the record
    returned, [clm], [slm], [eclm] or [eslm], is zero above the
    diagonal. *)
Theorem read_lower_triangular (model_file text : string) (LMAX : option Z)
    (TIDE : string) (FLAG : regex) (r : gmap string (value F)) :
  orders_within_degrees FLAG text →
  read_ICGEM_harmonics calculate_tidal_offset model_file text LMAX TIDE FLAG = Ok r →
  ∀ key a, In key matrix_keys → r !! key = Some (VMat a) → lower_triangular a.
Proof.
  intros Hq Hr key a Hkey Ha.
  apply read_Ok in Hr as (L & m & Hp & Ht).
  apply (parse_model_matrices lower_triangular (λ l1 m1, 0 ≤ m1 ≤ l1)) in Hp;
    [| intros b b' l1 m1 v Hlm; by apply set_item_lower_triangular | done | exact Hq].
  apply (tide_correction_matrices _ lower_triangular model_file) in Ht;
    [| intros b b' v; apply set_item_lower_triangular; lia | exact Hp].
  exact (matrices_lookup _ _ _ _ _ Ht Hkey Ha).
Qed.

(** C8: when the path contains [SW_], the record returned has neither
    the key [eclm] nor the key [eslm]; otherwise it has both, and the
    four matrices have one shape. *)
Theorem read_error_matrices (model_file text : string) (LMAX : option Z)
    (TIDE : string) (FLAG : regex) (r : gmap string (value F)) :
  read_ICGEM_harmonics calculate_tidal_offset model_file text LMAX TIDE FLAG = Ok r →
  (contains "SW_" model_file = true → r !! "eclm" = None ∧ r !! "eslm" = None) ∧
  (contains "SW_" model_file = false →
   ∃ clm slm eclm eslm,
     r !! "clm" = Some (VMat clm) ∧ r !! "slm" = Some (VMat slm) ∧
     r !! "eclm" = Some (VMat eclm) ∧ r !! "eslm" = Some (VMat eslm) ∧
     shape slm = shape clm ∧ shape eclm = shape clm ∧ shape eslm = shape slm).
Proof.
  intros Hr.
  apply read_Ok in Hr as (L & m & Hp & Ht).
  apply (parse_model_matrices (square L) (λ _ _, True)) in Hp;
    [| intros b b' l1 m1 v _; apply set_item_square | done | done].
  apply (tide_correction_matrices _ (square L) model_file) in Ht;
    [| intros b b' v; apply set_item_square | exact Hp].
  destruct Ht as ((c & Hc & [Sc _]) & (s & Hs & [Ss _]) & He).
  split; intros Hsw; rewrite Hsw in He; [exact He |].
  destruct He as ((e1 & He1 & [Se1 _]) & (e2 & He2 & [Se2 _])).
  exists c, s, e1, e2. rewrite Sc, Ss, Se1, Se2. done.
Qed.


(** C10: the three substrings are looked for in the whole path and the
    patterns in the name of the file. A path that contains a substring
    and whose name has no match of the pattern of that branch makes the
    reader raise [IndexError] on the empty list of matches, whatever
    the file holds; and a path that contains [SW_] leaves the record
    without [eclm] and [eslm], whatever the branch that was taken. *)
Theorem read_dispatch_on_path (model_file text : string) (LMAX : option Z)
    (TIDE : string) (FLAG : regex) :
  ((contains "ITSG" model_file = true ∧
    findall 6 rx_ITSG (basename model_file) = []) ∨
   (contains "ITSG" model_file = false ∧ contains "SW_" model_file = true ∧
    findall 7 rx_SWARM (basename model_file) = []) ∨
   (contains "ITSG" model_file = false ∧ contains "SW_" model_file = false ∧
    contains "COSTG" model_file = true ∧
    findall 9 rx_COSTG (basename model_file) = []) →
   read_ICGEM_harmonics calculate_tidal_offset model_file text LMAX TIDE FLAG = Raise IndexError) ∧
  (contains "SW_" model_file = true →
   ∀ r, read_ICGEM_harmonics calculate_tidal_offset model_file text LMAX TIDE FLAG = Ok r →
        r !! "eclm" = None ∧ r !! "eslm" = None).
Proof.
  split.
  - intros Hcase.
    assert (Hf : filename_fields (F := F) model_file = Raise IndexError).
    { unfold filename_fields.
      destruct Hcase as [[-> ->] | [(-> & -> & ->) | (-> & -> & -> & ->)]];
        reflexivity. }
    unfold read_ICGEM_harmonics, parse_model. by rewrite Hf.
  - intros Hsw r Hr.
    apply read_Ok in Hr as (L & m & Hp & Ht).
    apply (parse_model_matrices (λ _, True) (λ _ _, True)) in Hp; [| done..].
    apply (tide_correction_matrices _ (λ _, True) model_file) in Ht; [| done | exact Hp].
    destruct Ht as (_ & _ & He). by rewrite Hsw in He.
Qed.
End ReadClaims.

(** ** The claims on double precision and the sample files *)

Lemma raised_Raise {A} (r : result A) (e : exn) : raised r = Some e → r = Raise e.
Proof. destruct r; simpl; congruence. Qed.

Lemma is_ok_record {F : Type} (r : result (gmap string (value F))) :
  is_ok r = true → r = Ok (record_of r).
Proof. destruct r; simpl; [reflexivity | discriminate]. Qed.

(** The record as parsed is the one that a call with ['tide_free']
    returns. *)
Lemma parse_model_record {F : Type} `{FloatArith F}
    (offset : string → F → F → string → F) (model_file text : string)
    (LMAX : option Z) (FLAG : regex) (L : Z) :
  effective_LMAX model_file text LMAX FLAG = Ok L →
  parse_model model_file text LMAX FLAG
  = Ok (L, record_of (read_ICGEM_harmonics offset model_file text LMAX "tide_free" FLAG)).
Proof.
  unfold effective_LMAX, read_ICGEM_harmonics.
  destruct (parse_model model_file text LMAX FLAG) as [[L' m]|e]; [| discriminate].
  intros [= ->]. reflexivity.
Qed.

Lemma read_ITSG_2008_05_witness :
  filename_fields (F := float) "data/ITSG-Grace2018_n96_2008-05.gfc"
  = Ok (YearMonth 2008 5) ∧
  month_days (F := float) 2008 5 = (366, NInt 122, NInt 152) ∧
  ∀ text LMAX TIDE FLAG r,
    read_b64 "data/ITSG-Grace2018_n96_2008-05.gfc" text LMAX TIDE FLAG = Ok r →
    r !! "time"
    = Some (VNum (fadd (of_int 2008)
                       (fdiv (np_mean2 (of_int 122) (of_int 152)) (of_int 366)))).
Proof.
  apply (read_ITSG_2008_05 sample_offset "data/ITSG-Grace2018_n96_2008-05.gfc").
  vm_compute. reflexivity.
Defined.

(** C2 fails: the year 2008 selects the table of the leap year, the month
    of May runs from day 122 to day 152, and the time is [2008 + 137/366],
    not [2008 + 136/365]. *)
Lemma read_ITSG_2008_05_counterexample :
  filename_fields (F := float) "ITSG-Grace2018_n96_2008-05.gfc"
  = Ok (YearMonth 2008 5) ∧
  month_days (F := float) 2008 5 = (366, NInt 122, NInt 152) ∧
  month_days (F := float) 2008 5 ≠ (365, NInt 121, NInt 151) ∧
  record_of (read_b64 "ITSG-Grace2018_n96_2008-05.gfc" sample_model None "tide_free"
               (RLit "gfc")) !! "time"
  = Some (VNum (fadd (of_int 2008) (fdiv (of_int 137) (of_int 366)))) ∧
  fadd (of_int 2008) (fdiv (of_int 137) (of_int 366))
  ≠ fadd (of_int 2008) (fdiv (of_int 136) (of_int 365)).
Proof.
  split; [vm_compute; reflexivity |]. split; [vm_compute; reflexivity |].
  split; [vm_compute; discriminate |].
  split; [vm_compute; reflexivity |].
  intros Heq.
  apply (f_equal (PrimFloat.eqb (fadd (of_int 2008) (fdiv (of_int 137) (of_int 366)))))
    in Heq.
  vm_compute in Heq. discriminate Heq.
Qed.

(** C3 at [LMAX = 0]: the reader takes [0] for no degree of truncation at
    all. On the sample of degree 2 the matrices have the shape (3, 3) and
    hold the coefficients of degree 2, where the claim has the shape
    (1, 1). *)
Theorem read_LMAX_zero :
  read_b64 "EGM.gfc" sample_model (Some 0) "tide_free" (RLit "gfc")
  = read_b64 "EGM.gfc" sample_model None "tide_free" (RLit "gfc") ∧
  ∃ r clm,
    read_b64 "EGM.gfc" sample_model (Some 0) "tide_free" (RLit "gfc") = Ok r ∧
    r !! "clm" = Some (VMat clm) ∧
    shape clm = (3%nat, 3%nat) ∧
    entry clm 2 2 = float_of_string "2.4e-06".
Proof.
  split; [apply read_LMAX_zero_as_None |].
  exists (record_of (read_b64 "EGM.gfc" sample_model (Some 0) "tide_free" (RLit "gfc"))).
  eexists. split; [apply is_ok_record; vm_compute; reflexivity |].
  split; [vm_compute; reflexivity |].
  split; vm_compute; reflexivity.
Qed.

Lemma read_tide_system_witness :
  ∃ r1 c0 c1 c20,
    read_b64 "EGM.gfc" sample_model None "mean_tide" (RLit "gfc") = Ok r1 ∧
    record_of (read_b64 "EGM.gfc" sample_model None "tide_free" (RLit "gfc")) !! "clm"
    = Some (VMat c0) ∧
    r1 !! "clm" = Some (VMat c1) ∧
    entry c0 2 0 = Some c20 ∧
    entry c1 2 0
    = Some (fadd c20 (sample_offset "mean_tide" (of_int 398600441500000)
                        (fdec 63781363 1) "WGS84")) ∧
    (∀ l m, (l ≠ 2 ∨ m ≠ 0)%nat → entry c1 l m = entry c0 l m) ∧
    shape c1 = shape c0 ∧
    r1 !! "tide_system" = Some (VStr "mean_tide") ∧
    ∀ k, k ≠ "clm" → k ≠ "tide_system" →
         r1 !! k
         = record_of (read_b64 "EGM.gfc" sample_model None "tide_free" (RLit "gfc")) !! k.
Proof.
  refine (proj2 (read_tide_system sample_offset "EGM.gfc" sample_model None "mean_tide"
                   (RLit "gfc") 2 _ _)
            (or_introl eq_refl) _ "0.3986004415E+15" "0.6378136300E+07" _ _ _ _ _ _).
  - apply parse_model_record. vm_compute. reflexivity.
  - lia.
  - vm_compute. reflexivity.
  - vm_compute. reflexivity.
  - vm_compute. reflexivity.
  - vm_compute. reflexivity.
Defined.

(** C6 fails on a model that is truncated at degree 1: with
    ['tide_free'] a record is returned, with ['mean_tide'] the index
    [clm[2,0]] is out of bounds. It fails as well on a file without the
    gravity constant in its header: the key is looked up and not found. *)
Lemma read_tide_system_counterexample :
  is_ok (read_b64 "EGM.gfc" sample_model (Some 1) "tide_free" (RLit "gfc")) = true ∧
  read_b64 "EGM.gfc" sample_model (Some 1) "mean_tide" (RLit "gfc") = Raise IndexError ∧
  is_ok (read_b64 "EGM.gfc" sample_without_constants None "tide_free" (RLit "gfc")) = true ∧
  read_b64 "EGM.gfc" sample_without_constants None "mean_tide" (RLit "gfc")
  = Raise KeyError.
Proof.
  split; [vm_compute; reflexivity |].
  split; [apply raised_Raise; vm_compute; reflexivity |].
  split; [vm_compute; reflexivity |].
  apply raised_Raise. vm_compute. reflexivity.
Qed.

Lemma sample_model_orders : orders_within_degrees (RLit "gfc") sample_model.
Proof.
  intros line l1 m1 Hin Hli. vm_compute in Hin.
  repeat (destruct Hin as [<- | Hin];
    [vm_compute in Hli; injection Hli as <- <-; lia |]).
  destruct Hin.
Defined.

Lemma read_lower_triangular_witness :
  orders_within_degrees (RLit "gfc") sample_model ∧
  is_ok (read_b64 "EGM.gfc" sample_model None "mean_tide" (RLit "gfc")) = true ∧
  ∀ key a,
    In key matrix_keys →
    record_of (read_b64 "EGM.gfc" sample_model None "mean_tide" (RLit "gfc")) !! key
    = Some (VMat a) →
    lower_triangular a.
Proof.
  split; [exact sample_model_orders |].
  split; [vm_compute; reflexivity |].
  apply (read_lower_triangular sample_offset "EGM.gfc" sample_model None "mean_tide"
           (RLit "gfc")).
  - exact sample_model_orders.
  - apply is_ok_record. vm_compute. reflexivity.
Defined.

(** C7 fails on a file with the line [gfc 0 1 5.0 ...]: the entry (0,1)
    of [clm], above the diagonal, is 5. *)
Lemma read_lower_triangular_counterexample :
  ∃ r clm,
    read_b64 "EGM.gfc" sample_above_diagonal None "tide_free" (RLit "gfc") = Ok r ∧
    r !! "clm" = Some (VMat clm) ∧
    entry clm 0 1 = Some (of_int 5) ∧
    ¬ lower_triangular clm.
Proof.
  exists (record_of (read_b64 "EGM.gfc" sample_above_diagonal None "tide_free"
                       (RLit "gfc"))).
  eexists. split; [apply is_ok_record; vm_compute; reflexivity |].
  split; [vm_compute; reflexivity |].
  split; [vm_compute; reflexivity |].
  intros Hlow.
  assert (He : of_int 5 = of_int 0 :> float).
  { apply (Hlow 0%nat 1%nat); [lia | vm_compute; reflexivity]. }
  apply (f_equal (PrimFloat.eqb (of_int 5))) in He.
  vm_compute in He. discriminate He.
Qed.

Lemma read_error_matrices_witness :
  let r := record_of (read_b64 "SW_OPER_EGF_SHA_2__20131201T000000_20131231T235959_0101.gfc"
                        sample_model None "tide_free" (RLit "gfc")) in
  (contains "SW_" "SW_OPER_EGF_SHA_2__20131201T000000_20131231T235959_0101.gfc" = true →
   r !! "eclm" = None ∧ r !! "eslm" = None) ∧
  (contains "SW_" "SW_OPER_EGF_SHA_2__20131201T000000_20131231T235959_0101.gfc" = false →
   ∃ clm slm eclm eslm,
     r !! "clm" = Some (VMat clm) ∧ r !! "slm" = Some (VMat slm) ∧
     r !! "eclm" = Some (VMat eclm) ∧ r !! "eslm" = Some (VMat eslm) ∧
     shape slm = shape clm ∧ shape eclm = shape clm ∧ shape eslm = shape slm).
Proof.
  apply (read_error_matrices sample_offset
           "SW_OPER_EGF_SHA_2__20131201T000000_20131231T235959_0101.gfc"
           sample_model None "tide_free" (RLit "gfc")).
  apply is_ok_record. vm_compute. reflexivity.
Defined.



Lemma read_dispatch_on_path_witness :
  contains "ITSG" (basename "ITSG_models/EGM2008.gfc") = false ∧
  (∀ text LMAX TIDE FLAG,
     read_b64 "ITSG_models/EGM2008.gfc" text LMAX TIDE FLAG = Raise IndexError) ∧
  is_ok (read_b64 "EGM2008.gfc" sample_model None "tide_free" (RLit "gfc")) = true ∧
  (let r := record_of (read_b64 "SW_archive/ITSG-Grace2018_n96_2008-05.gfc" sample_model
                         None "tide_free" (RLit "gfc")) in
   r !! "eclm" = None ∧ r !! "eslm" = None) ∧
  (let r := record_of (read_b64 "ITSG-Grace2018_n96_2008-05.gfc" sample_model
                         None "tide_free" (RLit "gfc")) in
   is_Some (r !! "eclm") ∧ is_Some (r !! "eslm")).
Proof.
  split; [vm_compute; reflexivity |].
  split.
  { intros text LMAX TIDE FLAG.
    apply (proj1 (read_dispatch_on_path sample_offset "ITSG_models/EGM2008.gfc" text LMAX
                    TIDE FLAG)).
    left. split; vm_compute; reflexivity. }
  split; [vm_compute; reflexivity |].
  split.
  { apply (proj2 (read_dispatch_on_path sample_offset
                    "SW_archive/ITSG-Grace2018_n96_2008-05.gfc" sample_model None
                    "tide_free" (RLit "gfc"))).
    - vm_compute. reflexivity.
    - apply is_ok_record. vm_compute. reflexivity. }
  split; vm_compute; eexists; reflexivity.
Defined.

(** * Further properties *)

(** ** legendre_polynomials *)

Section LegendreMore.
Context {F : Type} `{FloatArith F}.

(** X1: on an array [x], [legendre_polynomials(lmax, x)] returns
    exactly when [lmax >= 1]. At [lmax = 0] and [lmax = -1] it raises
    [IndexError] (the rows 1 and 0 of [ptemp] are written without a
    test), below it raises the [ValueError] of [np.zeros]. *)
Theorem legendre_polynomials_domain (lmax : Z) (xs : list F) :
  raised (legendre_polynomials lmax (XArray xs))
  = if bool_decide (1 ≤ lmax) then None
    else if bool_decide (lmax ≤ -2) then Some ValueError
    else Some IndexError.
Proof.
  case_bool_decide as H1.
  - destruct (legendre_rows (Z.to_nat lmax) (XArray xs)) as (pl & dpl & Hrun & _);
      [lia |].
    rewrite Z2Nat.id in Hrun by lia. by rewrite Hrun.
  - case_bool_decide as H2.
    + unfold legendre_polynomials, np_zeros.
      rewrite bool_decide_eq_true_2 by lia. reflexivity.
    + assert (lmax = 0 ∨ lmax = -1) as [-> | ->] by lia.
      * unfold legendre_polynomials. simpl Z.add.
        rewrite (np_zeros_nat 1), !bind_Ok. unfold set_row_scalar.
        rewrite (set_row_nat _ 0%nat) by (simpl; rewrite ?length_replicate; lia).
        rewrite bind_Ok. reflexivity.
      * unfold legendre_polynomials. simpl Z.add.
        rewrite (np_zeros_nat 0), !bind_Ok. reflexivity.
Qed.

Lemma entry_None_row (a : ndarray F) (l j : nat) :
  (length (rows a) ≤ l)%nat → entry a l j = None.
Proof.
  intros Hl. unfold entry. by rewrite (lookup_ge_None_2 _ _ Hl).
Qed.

Lemma entry_fmap_row (a : ndarray F) (l j : nat) (f : F → F) (xs : list F) :
  rows a !! l = Some (f <$> xs) → entry a l j = f <$> xs !! j.
Proof.
  intros Hl. unfold entry. rewrite Hl. simpl. apply list_lookup_fmap.
Qed.

(** X2: the polynomials are evaluated point by point. For [lmax >= 1]
    the column of the point [x[j]] in the matrices of the array [x] is
    the single column of the matrices of the array of the one point
    [x[j]]: a point never depends on the other points. *)
Theorem legendre_polynomials_pointwise (lmax : Z) (xs : list F) (j : nat) (xv : F) :
  1 ≤ lmax → xs !! j = Some xv →
  ∃ pl dpl pl1 dpl1,
    legendre_polynomials lmax (XArray xs) = Ok (pl, dpl) ∧
    legendre_polynomials lmax (XArray [xv]) = Ok (pl1, dpl1) ∧
    ∀ l, entry pl l j = entry pl1 l 0 ∧ entry dpl l j = entry dpl1 l 0.
Proof.
  intros Hl Hj.
  destruct (legendre_rows (Z.to_nat lmax) (XArray xs))
    as (pl & dpl & Hrun & Hs & Hs' & Hrows); [lia |].
  destruct (legendre_rows (Z.to_nat lmax) (XArray [xv]))
    as (pl1 & dpl1 & Hrun1 & Hs1 & Hs1' & Hrows1); [lia |].
  rewrite Z2Nat.id in Hrun, Hrun1 by lia.
  exists pl, dpl, pl1, dpl1. split; [exact Hrun |]. split; [exact Hrun1 |].
  intros l. unfold shape in *.
  injection Hs as Hr _. injection Hs' as Hr' _.
  injection Hs1 as Hr1 _. injection Hs1' as Hr1' _.
  destruct (decide (l ≤ Z.to_nat lmax)%nat) as [Hle | Hgt].
  - destruct (Hrows l Hle) as [Hp Hd]. destruct (Hrows1 l Hle) as [Hp1 Hd1].
    simpl x_values in *.
    rewrite (entry_fmap_row pl l j _ xs Hp), (entry_fmap_row dpl l j _ xs Hd).
    rewrite (entry_fmap_row pl1 l 0 _ [xv] Hp1), (entry_fmap_row dpl1 l 0 _ [xv] Hd1).
    rewrite Hj. done.
  - rewrite !entry_None_row by lia. done.
Qed.

(** X3: a larger [lmax] only adds rows. For [1 <= lmax <= lmax'] the
    matrices of the two calls on an array [x] agree on every degree up
    to [lmax]. *)
Theorem legendre_polynomials_degrees (lmax lmax' : Z) (xs : list F) :
  1 ≤ lmax → lmax ≤ lmax' →
  ∃ pl dpl pl' dpl',
    legendre_polynomials lmax (XArray xs) = Ok (pl, dpl) ∧
    legendre_polynomials lmax' (XArray xs) = Ok (pl', dpl') ∧
    ∀ l j, Z.of_nat l ≤ lmax →
      entry pl l j = entry pl' l j ∧ entry dpl l j = entry dpl' l j.
Proof.
  intros Hl Hl'.
  destruct (legendre_rows (Z.to_nat lmax) (XArray xs))
    as (pl & dpl & Hrun & _ & _ & Hrows); [lia |].
  destruct (legendre_rows (Z.to_nat lmax') (XArray xs))
    as (pl' & dpl' & Hrun' & _ & _ & Hrows'); [lia |].
  rewrite Z2Nat.id in Hrun, Hrun' by lia.
  exists pl, dpl, pl', dpl'. split; [exact Hrun |]. split; [exact Hrun' |].
  intros l j Hle.
  destruct (Hrows l ltac:(lia)) as [Hp Hd]. destruct (Hrows' l ltac:(lia)) as [Hp' Hd'].
  unfold entry. by rewrite Hp, Hd, Hp', Hd'.
Qed.
End LegendreMore.

Lemma legendre_polynomials_pointwise_witness :
  ∃ pl dpl pl1 dpl1,
    legendre_polynomials 3 (XArray [0.5%float; (-0.25)%float]) = Ok (pl, dpl) ∧
    legendre_polynomials 3 (XArray [(-0.25)%float]) = Ok (pl1, dpl1) ∧
    ∀ l, entry pl l 1 = entry pl1 l 0 ∧ entry dpl l 1 = entry dpl1 l 0.
Proof.
  apply (legendre_polynomials_pointwise 3 [0.5%float; (-0.25)%float] 1 (-0.25)%float);
    [lia | reflexivity].
Defined.

Lemma legendre_polynomials_degrees_witness :
  ∃ pl dpl pl' dpl',
    legendre_polynomials 2 (XArray [0.5%float]) = Ok (pl, dpl) ∧
    legendre_polynomials 5 (XArray [0.5%float]) = Ok (pl', dpl') ∧
    ∀ l j, Z.of_nat l ≤ 2 →
      entry pl l j = entry pl' l j ∧ entry dpl l j = entry dpl' l j.
Proof.
  apply (legendre_polynomials_degrees 2 5 [0.5%float]); lia.
Defined.

(** ** Loops that raise *)

Lemma bind_Raise_inv {A B} (f : A → result B) (m : result A) (e : exn) :
  (m ≫= f) = Raise e → m = Raise e ∨ ∃ a, m = Ok a ∧ f a = Raise e.
Proof. destruct m as [a|e']; simpl; [eauto | intros [= ->]; by left]. Qed.

Lemma for_each_app {A St} (body : A → St → result St) (xs ys : list A) (s : St) :
  for_each (xs ++ ys) body s = (s' ← for_each xs body s; for_each ys body s').
Proof.
  revert s. induction xs as [|x xs IH]; intros s; [reflexivity |].
  simpl. destruct (body x s) as [s1|e]; [apply IH | reflexivity].
Qed.

(** What a loop raises, its body raised from a state that the rounds
    before led to. *)
Lemma for_each_raises {A St} (I : St → Prop) (E : exn → Prop)
    (body : A → St → result St) xs s e :
  I s →
  (∀ x s s', x ∈ xs → I s → body x s = Ok s' → I s') →
  (∀ x s e, x ∈ xs → I s → body x s = Raise e → E e) →
  for_each xs body s = Raise e → E e.
Proof.
  revert s. induction xs as [|x xs IH]; intros s H0 Hstep Herr Hrun.
  - discriminate Hrun.
  - simpl in Hrun. apply bind_Raise_inv in Hrun as [Hb | (s1 & Hb & Hrun)].
    + apply (Herr x s e); [left | exact H0 | exact Hb].
    + apply (IH s1); [| | | exact Hrun].
      * apply (Hstep x s s1); [left | exact H0 | exact Hb].
      * intros y t t' Hy. apply Hstep. by right.
      * intros y t e' Hy. apply Herr. by right.
Qed.

(** A loop with a round that raises, when no round raises anything
    else. *)
Lemma for_each_raises_at {A St} (e0 : exn) (body : A → St → result St) xs s x :
  x ∈ xs →
  (∀ s, body x s = Raise e0) →
  (∀ y s e, y ∈ xs → body y s = Raise e → e = e0) →
  for_each xs body s = Raise e0.
Proof.
  revert s. induction xs as [|y xs IH]; intros s Hx Hbad Hall.
  - by apply elem_of_nil in Hx.
  - simpl. destruct (body y s) as [s1|e] eqn:Hb.
    + apply elem_of_cons in Hx as [-> | Hx]; [rewrite Hbad in Hb; discriminate Hb |].
      apply IH; [exact Hx | exact Hbad |].
      intros z t e' Hz. apply Hall. by right.
    + simpl. f_equal. apply (Hall y s e); [left | exact Hb].
Qed.

(** ** The name of the file and the dates *)

Section ReaderMore.
Context {F : Type} `{FloatArith F}.
Variable calculate_tidal_offset : string → F → F → string → F.

(** The variables that the branch of the name sets are the ones that
    the block of the dates reads. *)
Lemma filename_fields_vars (model_file : string) (vars : filename_vars F) :
  filename_fields model_file = Ok vars →
  if contains "ITSG" model_file || contains "SW_" model_file
  then ∃ year month, vars = YearMonth year month
  else if contains "COSTG" model_file
       then ∃ sy ey sd ed, vars = StartEnd sy ey sd ed
       else vars = NoVars.
Proof.
  unfold filename_fields.
  destruct (contains "ITSG" model_file); simpl orb.
  - intros Hf. apply bind_Ok_inv in Hf as (t & _ & Hf).
    destruct t as [|? [|? [|? [|? [|? [|? [|? ?]]]]]]]; try discriminate Hf.
    apply bind_Ok_inv in Hf as (y & _ & Hf).
    apply bind_Ok_inv in Hf as (m & _ & Hf). injection Hf as <-. eauto.
  - destruct (contains "SW_" model_file).
    + intros Hf. apply bind_Ok_inv in Hf as (t & _ & Hf).
      destruct t as [|? [|? [|? [|? [|? [|? [|? [|? ?]]]]]]]]; try discriminate Hf.
      apply bind_Ok_inv in Hf as (y & _ & Hf).
      apply bind_Ok_inv in Hf as (m & _ & Hf). injection Hf as <-. eauto.
    + destruct (contains "COSTG" model_file).
      * intros Hf. apply bind_Ok_inv in Hf as (t & _ & Hf).
        destruct t as [|? [|? [|? [|? [|? [|? [|? [|? [|? [|? ?]]]]]]]]]];
          try discriminate Hf.
        apply bind_Ok_inv in Hf as (sy & _ & Hf).
        apply bind_Ok_inv in Hf as (ey & _ & Hf).
        apply bind_Ok_inv in Hf as (sd & _ & Hf).
        apply bind_Ok_inv in Hf as (ed & _ & Hf). injection Hf as <-. eauto 10.
      * by intros [= <-].
Qed.

(** The dates that the name of the file gives: the three of them for
    a file of a series, none otherwise. *)
Lemma temporal_fields_dates (model_file : string) (vars : filename_vars F)
    (m1 : gmap string (value F)) :
  filename_fields model_file = Ok vars →
  temporal_fields model_file vars ∅ = Ok m1 →
  ∀ k, In k ["time"; "start"; "end"] →
    if has_dates model_file then ∃ x, m1 !! k = Some (VNum x) else m1 !! k = None.
Proof.
  intros Hf. apply filename_fields_vars in Hf.
  unfold temporal_fields, has_dates.
  destruct (contains "ITSG" model_file || contains "SW_" model_file).
  - destruct Hf as (year & month & ->). simpl orb.
    destruct (month_days year month) as [[dpy sd] ed].
    destruct (int_overflows year); [discriminate |]. intros [= <-].
    intros k Hk. simpl in Hk. destruct Hk as [<- | [<- | [<- | []]]].
    + eexists. by do 2 (rewrite lookup_insert_ne by done); rewrite lookup_insert_eq.
    + eexists. by rewrite lookup_insert_ne, lookup_insert_eq.
    + eexists. by rewrite lookup_insert_eq.
  - simpl orb. destruct (contains "COSTG" model_file).
    + destruct Hf as (sy & ey & sd & ed & ->). intros [= <-].
      intros k Hk. simpl in Hk. destruct Hk as [<- | [<- | [<- | []]]].
      * eexists. by do 2 (rewrite lookup_insert_ne by done); rewrite lookup_insert_eq.
      * eexists. by rewrite lookup_insert_ne, lookup_insert_eq.
      * eexists. by rewrite lookup_insert_eq.
    + subst vars. intros [= <-]. intros k _. apply lookup_empty.
Qed.

(** The block of the dates raises nothing but the [OverflowError] of
    a year that is too large for a float: the variables that it reads
    are the ones that the branch of the name has set. *)
Lemma temporal_fields_raises (model_file : string) (vars : filename_vars F) (e : exn) :
  filename_fields model_file = Ok vars →
  temporal_fields model_file vars ∅ = Raise e → e = OverflowError.
Proof.
  intros Hf. apply filename_fields_vars in Hf.
  unfold temporal_fields.
  destruct (contains "ITSG" model_file || contains "SW_" model_file).
  - destruct Hf as (year & month & ->).
    destruct (month_days year month) as [[dpy sd] ed].
    destruct (int_overflows year); [by intros [= <-] | discriminate].
  - destruct (contains "COSTG" model_file).
    + destruct Hf as (sy & ey & sd & ed & ->). discriminate.
    + subst vars. discriminate.
Qed.

(** ** The header *)

Lemma header_round (line : string) (m : gmap string (value F)) :
  (v ← py_nth (py_split line) 1; k ← py_nth (py_split line) 0;
   Ok (<[k := VStr v]> m))
  = match py_split line with
    | k :: v :: _ => Ok (<[k := VStr v]> m)
    | _ => Raise IndexError
    end.
Proof. by destruct (py_split line) as [|k [|v l]]. Qed.

Lemma read_header_raises (file_contents : list string) (m : gmap string (value F))
    (e : exn) :
  read_header file_contents m = Raise e → e = IndexError.
Proof.
  unfold read_header. intros Hr.
  apply (for_each_raises (λ _, True) (λ e, e = IndexError)) in Hr; [done | done | done |].
  intros line s e' _ _ Hb. cbv zeta in Hb. rewrite header_round in Hb.
  destruct (py_split line) as [|k [|v l]]; congruence.
Qed.

Lemma read_header_strings (file_contents : list string) (m m' : gmap string (value F)) :
  header_strings m → read_header file_contents m = Ok m' → header_strings m'.
Proof.
  unfold read_header. intros Hm Hr.
  apply (for_each_preserves header_strings) in Hr; [done | done |].
  intros line s s' _ Hs Hb. cbv zeta in Hb. rewrite header_round in Hb.
  destruct (py_split line) as [|k [|v l]]; try discriminate Hb. injection Hb as <-.
  intros k' v' Hk'. destruct (decide (k = k')) as [-> | Hne].
  - rewrite lookup_insert_eq. intros [= <-]. eauto.
  - rewrite lookup_insert_ne by done. by apply Hs.
Qed.

Lemma temporal_fields_strings (model_file : string) (vars : filename_vars F)
    (m1 : gmap string (value F)) :
  temporal_fields model_file vars ∅ = Ok m1 → header_strings m1.
Proof.
  intros Ht k v Hk Hv.
  rewrite (temporal_fields_keys model_file vars m1 k Ht) in Hv; [discriminate | | |];
    intros ->; discriminate Hk.
Qed.

(** ** The stages of a call that gets to the tide system *)

Lemma parse_model_stages (model_file text : string) (LMAX : option Z) (FLAG : regex)
    (L : Z) (m : gmap string (value F)) :
  parse_model model_file text LMAX FLAG = Ok (L, m) →
  ∃ vars m1 m2,
    filename_fields model_file = Ok vars ∧
    temporal_fields model_file vars ∅ = Ok m1 ∧
    read_header (splitlines text) m1 = Ok m2 ∧
    truncation m2 LMAX = Ok L ∧
    header_strings m2 ∧
    matrices (square L) model_file m ∧
    ∀ k, ¬ In k matrix_keys → m !! k = m2 !! k.
Proof.
  intros Hp.
  pose proof (parse_model_matrices (square L) (λ _ _, True) model_file text LMAX FLAG
                L m) as Hm.
  apply parse_model_Ok in Hp as Hst.
  destruct Hst as (vars & m1 & m2 & m3 & Hv & H1 & H2 & HL & H3 & H4).
  exists vars, m1, m2. repeat (split; [assumption |]).
  split; [eapply read_header_strings; [eapply temporal_fields_strings |]; eassumption |].
  split.
  { apply Hm; [| done | done | exact Hp].
    intros a a' l1 m1' v _. apply set_item_square. }
  apply allocate_matrices in H3 as [H3 Ha].
  - apply (matrices_mono _ (λ _, True)) in H3; [| done].
    apply (read_data_matrices (λ _, True) (λ _ _, True)) in H4 as [_ H4]; [| done..].
    intros k Hk. by rewrite (H4 k Hk), (Ha k Hk).
  - rewrite (read_header_frame _ _ _ "eclm" eq_refl H2).
    by apply (temporal_fields_keys _ _ _ _ H1).
  - rewrite (read_header_frame _ _ _ "eslm" eq_refl H2).
    by apply (temporal_fields_keys _ _ _ _ H1).
Qed.

(** X4: the record has the keys [time], [start] and [end], each with a
    number, exactly when the path contains [ITSG], [SW_] or [COSTG]:
    the header and the lines of data never give or take a date. *)
Theorem read_dates (model_file text : string) (LMAX : option Z) (TIDE : string)
    (FLAG : regex) (r : gmap string (value F)) (k : string) :
  read_ICGEM_harmonics calculate_tidal_offset model_file text LMAX TIDE FLAG = Ok r →
  In k ["time"; "start"; "end"] →
  if has_dates model_file then ∃ x, r !! k = Some (VNum x) else r !! k = None.
Proof.
  intros Hr Hk.
  apply read_Ok in Hr as (L & m & Hp & Ht).
  apply parse_model_stages in Hp as Hst.
  destruct Hst as (vars & m1 & m2 & Hv & H1 & _).
  pose proof (temporal_fields_dates model_file vars m1 Hv H1) as Hdates.
  assert (Hrk : r !! k = m1 !! k).
  { simpl in Hk.
    rewrite (tide_correction_frame calculate_tidal_offset TIDE m r k)
      by (try exact Ht; intros ->; intuition discriminate).
    apply (parse_model_frame model_file text LMAX FLAG L m m1 vars k Hp Hv H1).
    - destruct Hk as [<- | [<- | [<- | []]]]; reflexivity.
    - simpl. intuition (subst; discriminate). }
  rewrite Hrk. exact (Hdates k Hk).
Qed.

(** X5: the size of the matrices. With a degree [k] other than 0 from
    the caller, the matrices of the record have [k+1] rows and
    columns, whatever the header says. With [None], or 0, the header
    has a key [max_degree], its text reads as an integer [D], and the
    matrices have [D+1] rows and columns. *)
Theorem read_truncation_degree (model_file text : string) (LMAX : option Z)
    (TIDE : string) (FLAG : regex) (r : gmap string (value F)) :
  read_ICGEM_harmonics calculate_tidal_offset model_file text LMAX TIDE FLAG = Ok r →
  ∃ (L : Z) (clm : ndarray F),
    r !! "clm" = Some (VMat clm) ∧
    shape clm = (Z.to_nat (L + 1), Z.to_nat (L + 1)) ∧
    -1 ≤ L ∧
    if py_not LMAX
    then ∃ s, r !! "max_degree" = Some (VStr s) ∧ py_int s = Some L
    else LMAX = Some L.
Proof.
  intros Hr.
  apply read_Ok in Hr as (L & m & Hp & Ht).
  apply parse_model_stages in Hp as Hst.
  destruct Hst as (vars & m1 & m2 & _ & _ & _ & HL & Hs & Hm & Hframe).
  apply (tide_correction_matrices _ (square L) model_file) in Ht as Hmr;
    [| intros b b' v; apply set_item_square | exact Hm].
  destruct Hmr as ((clm & Hclm & [Hshape _]) & _).
  exists L, clm. split; [exact Hclm |]. split; [exact Hshape |].
  assert (Halloc : -1 ≤ L).
  { apply parse_model_Ok in Hp as (? & ? & ? & ? & _ & _ & _ & _ & Ha & _).
    unfold allocate in Ha. apply bind_Ok_inv in Ha as (c & Hc & _).
    unfold np_zeros in Hc. case_bool_decide; [discriminate | lia]. }
  split; [exact Halloc |].
  unfold truncation in HL. destruct (py_not LMAX).
  - apply bind_Ok_inv in HL as (s & Hs' & HL).
    unfold lookup_str in Hs'. apply bind_Ok_inv in Hs' as (v & Hv & Hs').
    apply of_option_Ok in Hv. destruct v as [s'| |]; try discriminate Hs'.
    injection Hs' as ->. apply of_option_Ok in HL.
    exists s. split; [| exact HL].
    rewrite (tide_correction_frame calculate_tidal_offset TIDE m r "max_degree")
      by (done || exact Ht).
    rewrite Hframe by (simpl; intuition discriminate). exact Hv.
  - by apply of_option_Ok in HL.
Qed.

(** X6: a line of the header with a keyword and no value makes the
    reader raise [IndexError], whatever else the file holds, once the
    name of the file is accepted and its dates are computed (lines
    107 to 190 raise nothing). *)
Theorem read_header_without_value (model_file text : string) (LMAX : option Z)
    (TIDE : string) (FLAG : regex) (vars : filename_vars F)
    (m1 : gmap string (value F)) (line : string) :
  filename_fields model_file = Ok vars →
  temporal_fields model_file vars ∅ = Ok m1 →
  In line (header_lines text) →
  (length (py_split line) < 2)%nat →
  read_ICGEM_harmonics calculate_tidal_offset model_file text LMAX TIDE FLAG
  = Raise IndexError.
Proof.
  intros Hv H1 Hin Hlen.
  unfold read_ICGEM_harmonics, parse_model.
  rewrite Hv, bind_Ok, H1, bind_Ok. cbv zeta.
  assert (Hh : read_header (splitlines text) m1 = Raise IndexError).
  { unfold read_header.
    apply (for_each_raises_at IndexError _ _ _ line).
    - by apply list_elem_of_In.
    - intros s. cbv zeta. rewrite header_round.
      destruct (py_split line) as [|k [|v l]]; [done | done | simpl in Hlen; lia].
    - intros y s e _ Hb. cbv zeta in Hb. rewrite header_round in Hb.
      destruct (py_split y) as [|k [|v l]]; congruence. }
  by rewrite Hh.
Qed.

Lemma read_header_absent (file_contents : list string) (m : gmap string (value F))
    (key : string) :
  m !! key = None →
  (∀ line, In line (List.filter (re_match parameters_regex) file_contents) →
     (2 ≤ length (py_split line))%nat ∧ py_split line !! 0%nat ≠ Some key) →
  ∃ m', read_header file_contents m = Ok m' ∧ m' !! key = None.
Proof.
  intros Hm Hlines. unfold read_header.
  destruct (for_each_inv (λ _ s, s !! key = None)
              (λ line model_input,
                 let line_contents := py_split line in
                 v ← py_nth line_contents 1; k ← py_nth line_contents 0;
                 Ok (<[k := VStr v]> model_input))
              (List.filter (re_match parameters_regex) file_contents) m Hm)
    as (m' & Hrun & Hinv); [| eauto].
  intros i line s Hi Hs. cbv zeta. rewrite header_round.
  destruct (Hlines line) as [Hlen Hkey].
  { apply list_elem_of_In. eapply list_elem_of_lookup_2. exact Hi. }
  destruct (py_split line) as [|k [|v l]]; [simpl in Hlen; lia.. |].
  eexists. split; [reflexivity |].
  rewrite lookup_insert_ne; [exact Hs |]. intros ->. by apply Hkey.
Qed.

(** X7: without a degree from the caller ([None], or 0) and without a
    line [max_degree] in the header, the reader raises [KeyError],
    once the name of the file is accepted and its dates are computed
    (lines 107 to 190 raise nothing) and every line of the header
    has a value. *)
Theorem read_without_max_degree (model_file text : string) (LMAX : option Z)
    (TIDE : string) (FLAG : regex) (vars : filename_vars F)
    (m1 : gmap string (value F)) :
  filename_fields model_file = Ok vars →
  temporal_fields model_file vars ∅ = Ok m1 →
  py_not LMAX = true →
  (∀ line, In line (header_lines text) →
     (2 ≤ length (py_split line))%nat ∧ py_split line !! 0%nat ≠ Some "max_degree") →
  read_ICGEM_harmonics calculate_tidal_offset model_file text LMAX TIDE FLAG
  = Raise KeyError.
Proof.
  intros Hv H1 Hnot Hlines.
  destruct (read_header_absent (splitlines text) m1 "max_degree") as (m2 & H2 & Hnone).
  { by apply (temporal_fields_keys _ _ _ _ H1). }
  { exact Hlines. }
  unfold read_ICGEM_harmonics, parse_model.
  rewrite Hv, bind_Ok, H1, bind_Ok. cbv zeta. rewrite H2, bind_Ok.
  unfold truncation. rewrite Hnot. unfold lookup_str. by rewrite Hnone.
Qed.

(** ** The exceptions of the reader *)

Lemma np_index_raises (n : nat) (i : Z) (e : exn) :
  np_index n i = Raise e → e = IndexError.
Proof. unfold np_index. repeat case_bool_decide; congruence. Qed.

Lemma of_option_raises {A} (e0 e : exn) (o : option A) :
  of_option e0 o = Raise e → e = e0.
Proof. destruct o; simpl; congruence. Qed.

Lemma set_item_raises (a : ndarray F) (i j : Z) (v : F) (e : exn) :
  set_item a i j v = Raise e → e = IndexError.
Proof.
  unfold set_item. intros Hs.
  apply bind_Raise_inv in Hs as [Hs | (k & _ & Hs)]; [by apply np_index_raises in Hs |].
  apply bind_Raise_inv in Hs as [Hs | (c & _ & Hs)]; [by apply np_index_raises in Hs |].
  apply bind_Raise_inv in Hs as [Hs | (r & _ & Hs)]; [by apply of_option_raises in Hs |].
  discriminate Hs.
Qed.

Lemma get_item_raises (a : ndarray F) (i j : Z) (e : exn) :
  get_item a i j = Raise e → e = IndexError.
Proof.
  unfold get_item. intros Hs.
  apply bind_Raise_inv in Hs as [Hs | (k & _ & Hs)]; [by apply np_index_raises in Hs |].
  apply bind_Raise_inv in Hs as [Hs | (c & _ & Hs)]; [by apply np_index_raises in Hs |].
  apply bind_Raise_inv in Hs as [Hs | (r & _ & Hs)]; by apply of_option_raises in Hs.
Qed.

Lemma filename_fields_raises (model_file : string) (e : exn) :
  filename_fields (F := F) model_file = Raise e → e = IndexError ∨ e = ValueError.
Proof.
  unfold filename_fields, pop, int_of, py_float. intros Hf.
  repeat match type of Hf with
  | (if ?b then _ else _) = _ => destruct b
  | (_ ≫= _) = Raise _ =>
      apply bind_Raise_inv in Hf as [Hf | (? & _ & Hf)];
        [apply of_option_raises in Hf; subst; tauto |]
  | match ?t with _ => _ end = _ => destruct t; [injection Hf as <-; tauto |]
  end; try discriminate Hf; try (injection Hf as <-; tauto).
Qed.

Lemma lookup_str_raises (m : gmap string (value F)) (key : string) (e : exn) :
  header_strings m → is_header_key key = true →
  lookup_str m key = Raise e → e = KeyError.
Proof.
  intros Hm Hk. unfold lookup_str. intros Hl.
  destruct (m !! key) as [v|] eqn:Hv; simpl in Hl; [| congruence].
  destruct (Hm key v Hk Hv) as [s ->]. discriminate Hl.
Qed.

Lemma truncation_raises (m : gmap string (value F)) (LMAX : option Z) (e : exn) :
  header_strings m → truncation m LMAX = Raise e → e = KeyError ∨ e = ValueError.
Proof.
  intros Hm. unfold truncation, int_of.
  destruct LMAX as [k|]; simpl py_not; [case_bool_decide; [| discriminate] |];
    intros Ht;
    (apply bind_Raise_inv in Ht as [Ht | (s & _ & Ht)];
      [apply lookup_str_raises in Ht; [tauto | exact Hm | reflexivity]
      | apply of_option_raises in Ht; tauto]).
Qed.

Lemma np_zeros_raises (n m : Z) (e : exn) : np_zeros (F := F) n m = Raise e → e = ValueError.
Proof. unfold np_zeros. case_bool_decide; congruence. Qed.

Lemma allocate_raises (model_file : string) (L : Z) (m : gmap string (value F))
    (e : exn) :
  allocate model_file L m = Raise e → e = ValueError.
Proof.
  unfold allocate. intros Ha.
  apply bind_Raise_inv in Ha as [Ha | (c & _ & Ha)]; [by apply np_zeros_raises in Ha |].
  apply bind_Raise_inv in Ha as [Ha | (s & _ & Ha)]; [by apply np_zeros_raises in Ha |].
  destruct (negb (contains "SW_" model_file)); [| discriminate Ha].
  apply bind_Raise_inv in Ha as [Ha | (ec & _ & Ha)]; [by apply np_zeros_raises in Ha |].
  apply bind_Raise_inv in Ha as [Ha | (es & _ & Ha)]; [by apply np_zeros_raises in Ha |].
  discriminate Ha.
Qed.

Lemma store_raises (P : ndarray F → Prop) (key : string) (l1 m1 : Z)
    (toks : list string) (i : nat) (m : gmap string (value F)) (e : exn) :
  has_matrix P m key →
  store key l1 m1 toks i m = Raise e → e = IndexError ∨ e = ValueError.
Proof.
  intros (a & Ha & _). unfold store, py_nth, py_float. intros Hs.
  apply bind_Raise_inv in Hs as [Hs | (t & _ & Hs)];
    [apply of_option_raises in Hs; tauto |].
  apply bind_Raise_inv in Hs as [Hs | (v & _ & Hs)];
    [apply of_option_raises in Hs; tauto |].
  rewrite (lookup_mat_Some _ _ _ Ha), bind_Ok in Hs.
  apply bind_Raise_inv in Hs as [Hs | (a' & _ & Hs)];
    [apply set_item_raises in Hs; tauto | discriminate Hs].
Qed.

Lemma read_line_raises (model_file line : string) (L : Z)
    (m : gmap string (value F)) (e : exn) :
  matrices (λ _, True) model_file m →
  read_line model_file L line m = Raise e → e = IndexError ∨ e = ValueError.
Proof.
  intros Hm. unfold read_line, py_nth, int_of. intros Hr.
  apply bind_Raise_inv in Hr as [Hr | (t1 & _ & Hr)];
    [apply of_option_raises in Hr; tauto |].
  apply bind_Raise_inv in Hr as [Hr | (l1 & _ & Hr)];
    [apply of_option_raises in Hr; tauto |].
  apply bind_Raise_inv in Hr as [Hr | (t2 & _ & Hr)];
    [apply of_option_raises in Hr; tauto |].
  apply bind_Raise_inv in Hr as [Hr | (m1 & _ & Hr)];
    [apply of_option_raises in Hr; tauto |].
  case_bool_decide; [| discriminate Hr].
  apply bind_Raise_inv in Hr as [Hr | (ma & Ha & Hr)].
  { apply (store_raises (λ _, True)) in Hr; [exact Hr | apply Hm]. }
  apply (store_matrices (λ _, True) (λ _ _, True)) with (model_file := model_file)
    in Ha as [Hma _]; [| done | simpl; tauto | done | exact Hm].
  apply bind_Raise_inv in Hr as [Hr | (mb & Hb & Hr)].
  { apply (store_raises (λ _, True)) in Hr; [exact Hr | apply Hma]. }
  apply (store_matrices (λ _, True) (λ _ _, True)) with (model_file := model_file)
    in Hb as [Hmb _]; [| done | simpl; tauto | done | exact Hma].
  destruct (contains "SW_" model_file) eqn:Hsw; simpl negb in Hr; [discriminate Hr |].
  apply bind_Raise_inv in Hr as [Hr | (mc & Hc & Hr)].
  { apply (store_raises (λ _, True)) in Hr; [exact Hr |].
    destruct Hmb as (_ & _ & He). rewrite Hsw in He. apply He. }
  apply (store_matrices (λ _, True) (λ _ _, True)) with (model_file := model_file)
    in Hc as [Hmc _]; [| done | simpl; tauto | done | exact Hmb].
  apply (store_raises (λ _, True)) in Hr; [exact Hr |].
  destruct Hmc as (_ & _ & He). rewrite Hsw in He. apply He.
Qed.

Lemma read_data_raises (model_file : string) (L : Z) (FLAG : regex)
    (file_contents : list string) (m : gmap string (value F)) (e : exn) :
  matrices (λ _, True) model_file m →
  read_data model_file L FLAG file_contents m = Raise e →
  e = IndexError ∨ e = ValueError.
Proof.
  intros Hm. unfold read_data. intros Hr.
  apply (for_each_raises (matrices (λ _, True) model_file)
           (λ e, e = IndexError ∨ e = ValueError)) in Hr; [exact Hr | exact Hm | |].
  - intros line s s' _ Hs Hline.
    by apply (read_line_matrices (λ _, True) (λ _ _, True)) in Hline as [Hs' _].
  - intros line s e' _ Hs. by apply read_line_raises.
Qed.

Lemma tide_correction_raises (model_file TIDE : string) (m : gmap string (value F))
    (e : exn) :
  header_strings m → matrices (λ _, True) model_file m →
  tide_correction calculate_tidal_offset TIDE m = Raise e → reader_error e.
Proof.
  intros Hs Hm. unfold tide_correction, reader_error, py_float.
  case_bool_decide; [| discriminate]. cbv zeta. intros Ht.
  assert (Hs' : header_strings (<["tide_system" := VStr TIDE]> m)).
  { intros k v Hk. destruct (decide ("tide_system" = k)) as [<- | Hne].
    - rewrite lookup_insert_eq. intros [= <-]. eauto.
    - rewrite lookup_insert_ne by done. by apply Hs. }
  apply bind_Raise_inv in Ht as [Ht | (g & _ & Ht)].
  { apply lookup_str_raises in Ht; [tauto | exact Hs' | reflexivity]. }
  apply bind_Raise_inv in Ht as [Ht | (GM & _ & Ht)];
    [apply of_option_raises in Ht; tauto |].
  apply bind_Raise_inv in Ht as [Ht | (s & _ & Ht)].
  { apply lookup_str_raises in Ht; [tauto | exact Hs' | reflexivity]. }
  apply bind_Raise_inv in Ht as [Ht | (R & _ & Ht)];
    [apply of_option_raises in Ht; tauto |].
  destruct Hm as ((clm & Hclm & _) & _).
  rewrite (lookup_mat_Some _ "clm" clm) in Ht by (by rewrite lookup_insert_ne).
  rewrite bind_Ok in Ht.
  apply bind_Raise_inv in Ht as [Ht | (c20 & _ & Ht)];
    [apply get_item_raises in Ht; tauto |].
  apply bind_Raise_inv in Ht as [Ht | (clm' & _ & Ht)];
    [apply set_item_raises in Ht; tauto | discriminate Ht].
Qed.

(** What the stages of the reader raise. *)
Lemma read_reader_error (model_file text : string) (LMAX : option Z) (TIDE : string)
    (FLAG : regex) (e : exn) :
  read_ICGEM_harmonics calculate_tidal_offset model_file text LMAX TIDE FLAG = Raise e →
  reader_error e.
Proof.
  unfold read_ICGEM_harmonics. intros Hr.
  apply bind_Raise_inv in Hr as [Hp | ([L m] & Hp & Ht)].
  - unfold parse_model in Hp. unfold reader_error.
    apply bind_Raise_inv in Hp as [Hp | (vars & Hv & Hp)];
      [apply filename_fields_raises in Hp; tauto |].
    apply bind_Raise_inv in Hp as [Hp | (m1 & H1 & Hp)];
      [apply (temporal_fields_raises model_file vars e Hv) in Hp; tauto |].
    cbv zeta in Hp.
    apply bind_Raise_inv in Hp as [Hp | (m2 & H2 & Hp)];
      [apply read_header_raises in Hp; tauto |].
    assert (Hs2 : header_strings m2).
    { eapply read_header_strings; [eapply temporal_fields_strings |]; eassumption. }
    apply bind_Raise_inv in Hp as [Hp | (L & HL & Hp)];
      [apply truncation_raises in Hp; tauto |].
    apply bind_Raise_inv in Hp as [Hp | (m3 & H3 & Hp)];
      [apply allocate_raises in Hp; tauto |].
    apply bind_Raise_inv in Hp as [Hp | (m4 & H4 & Hp)]; [| discriminate Hp].
    apply allocate_matrices in H3 as [H3 _].
    + apply (matrices_mono _ (λ _, True)) in H3; [| done].
      apply (read_data_raises _ _ _ _ _ _ H3) in Hp. tauto.
    + rewrite (read_header_frame _ _ _ "eclm" eq_refl H2).
      by apply (temporal_fields_keys _ _ _ _ H1).
    + rewrite (read_header_frame _ _ _ "eslm" eq_refl H2).
      by apply (temporal_fields_keys _ _ _ _ H1).
  - apply parse_model_stages in Hp as (vars & m1 & m2 & _ & _ & _ & _ & Hs & Hm & Hf).
    apply (tide_correction_raises model_file TIDE m e); [| | exact Ht].
    + intros k v Hk Hv. apply (Hs k v Hk). rewrite <- Hf; [exact Hv |].
      simpl. intros [<- | [<- | [<- | [<- | []]]]]; discriminate Hk.
    + by apply (matrices_mono (square L)).
Qed.

(** X8: the reader never raises [NameError] or [TypeError]. The
    variables that the block of the dates reads are always bound by
    the branch of the name (the two chains of tests on the path
    agree), and what is looked up as a text or as a matrix is one. *)
Theorem read_raises (model_file text : string) (LMAX : option Z) (TIDE : string)
    (FLAG : regex) (e : exn) :
  read_ICGEM_harmonics calculate_tidal_offset model_file text LMAX TIDE FLAG = Raise e →
  e ≠ NameError ∧ e ≠ TypeError.
Proof.
  intros Hr. apply read_reader_error in Hr.
  destruct Hr as [-> | [-> | [-> | ->]]]; split; discriminate.
Qed.
End ReaderMore.

(** ** The coefficients that the lines of data give *)

Section Coefficients.
Context {F : Type} `{FloatArith F}.

Lemma np_index_nonneg (n : nat) (i : Z) (k : nat) :
  0 ≤ i → np_index n i = Ok k → k = Z.to_nat i.
Proof. intros Hi Hk. apply np_index_Ok in Hk. lia. Qed.

Lemma store_value (key : string) (l1 m1 : Z) (toks : list string) (i : nat)
    (m m' : gmap string (value F)) :
  store key l1 m1 toks i m = Ok m' →
  ∃ t v a a',
    toks !! i = Some t ∧ float_of_string t = Some v ∧
    m !! key = Some (VMat a) ∧ set_item a l1 m1 v = Ok a' ∧
    m' = <[key := VMat a']> m.
Proof.
  unfold store, py_nth, py_float. intros Hs.
  apply bind_Ok_inv in Hs as (t & Ht & Hs).
  apply bind_Ok_inv in Hs as (v & Hv & Hs).
  apply bind_Ok_inv in Hs as (a & Ha & Hs).
  apply bind_Ok_inv in Hs as (a' & Ha' & Hs).
  apply of_option_Ok in Ht, Hv. apply lookup_mat_Ok in Ha. injection Hs as <-.
  exists t, v, a, a'. done.
Qed.

(** A write to another entry, or to another matrix, leaves the entry. *)
Lemma store_coefficient_other (key' key : string) (l1 m1 : Z) (toks : list string)
    (i : nat) (m m' : gmap string (value F)) (l c : nat) :
  store key' l1 m1 toks i m = Ok m' →
  key' ≠ key ∨ (0 ≤ l1 ∧ 0 ≤ m1 ∧ (l1, m1) ≠ (Z.of_nat l, Z.of_nat c)) →
  coefficient m' key l c = coefficient m key l c.
Proof.
  intros Hs Hne.
  apply store_value in Hs as (t & v & a & a' & _ & _ & Ha & Hset & ->).
  unfold coefficient.
  destruct (decide (key' = key)) as [-> | Hk]; [| by rewrite lookup_insert_ne].
  rewrite lookup_insert_eq, Ha.
  destruct Hne as [Hne | (Hl & Hm & Hne)]; [done |].
  pose proof Hset as Hset'.
  apply set_item_Ok in Hset' as (k & j & r & Hk & Hj & _ & _).
  apply (set_item_entry_ne a a' l1 m1 v k j l c Hset Hk Hj).
  apply np_index_nonneg in Hk, Hj; [| lia..]. subst k j.
  destruct (decide (l = Z.to_nat l1)) as [-> | ?]; [| tauto].
  right. intros ->. apply Hne. f_equal; lia.
Qed.

(** A write within the matrix is read back. *)
Lemma store_coefficient (L : Z) (key : string) (l1 m1 : Z) (toks : list string)
    (i : nat) (m m' : gmap string (value F)) :
  has_matrix (square L) m key →
  store key l1 m1 toks i m = Ok m' → 0 ≤ l1 → 0 ≤ m1 →
  ∃ t v, toks !! i = Some t ∧ float_of_string t = Some v ∧
         coefficient m' key (Z.to_nat l1) (Z.to_nat m1) = Some v.
Proof.
  intros (b & Hb & [_ Hw]) Hs Hl Hm.
  apply store_value in Hs as (t & v & a & a' & Ht & Hv & Ha & Hset & ->).
  rewrite Hb in Ha. injection Ha as <-.
  exists t, v. split; [exact Ht |]. split; [exact Hv |].
  unfold coefficient. rewrite lookup_insert_eq.
  pose proof Hset as Hset'.
  apply set_item_Ok in Hset' as (k & j & r & Hk & Hj & _ & _).
  pose proof (np_index_nonneg _ _ _ Hl Hk) as Ek.
  pose proof (np_index_nonneg _ _ _ Hm Hj) as Ej. subst k j.
  exact (set_item_entry_eq b a' l1 m1 v _ _ Hw Hset Hk Hj).
Qed.

Lemma read_line_indices (model_file line : string) (L : Z)
    (m m' : gmap string (value F)) :
  read_line model_file L line m = Ok m' →
  ∃ l1 m1, line_indices line = Some (l1, m1) ∧
    if bool_decide (l1 ≤ L ∧ m1 ≤ L)
    then (ma ← store "clm" l1 m1 (py_split (sub_d_e line)) 3 m;
          mb ← store "slm" l1 m1 (py_split (sub_d_e line)) 4 ma;
          if negb (contains "SW_" model_file)
          then mc ← store "eclm" l1 m1 (py_split (sub_d_e line)) 5 mb;
               store "eslm" l1 m1 (py_split (sub_d_e line)) 6 mc
          else Ok mb) = Ok m'
    else m' = m.
Proof.
  unfold read_line. intros Hr.
  apply bind_Ok_inv in Hr as (t1 & Ht1 & Hr).
  apply bind_Ok_inv in Hr as (l1 & Hl1 & Hr).
  apply bind_Ok_inv in Hr as (t2 & Ht2 & Hr).
  apply bind_Ok_inv in Hr as (m1 & Hm1 & Hr).
  exists l1, m1.
  split; [exact (line_indices_read line t1 t2 l1 m1 Ht1 Hl1 Ht2 Hm1) |].
  case_bool_decide; [exact Hr | by injection Hr].
Qed.

(** A line that names another entry, with a degree and an order that
    are not negative, leaves the entry in every matrix. *)
Lemma read_line_other (model_file line key : string) (L : Z)
    (m m' : gmap string (value F)) (l c : nat) :
  read_line model_file L line m = Ok m' →
  (∀ l1 m1, line_indices line = Some (l1, m1) →
     0 ≤ l1 ∧ 0 ≤ m1 ∧ (l1, m1) ≠ (Z.of_nat l, Z.of_nat c)) →
  coefficient m' key l c = coefficient m key l c.
Proof.
  intros Hr Hne.
  apply read_line_indices in Hr as (l1 & m1 & Hli & Hr).
  specialize (Hne l1 m1 Hli).
  case_bool_decide; [| by subst].
  apply bind_Ok_inv in Hr as (ma & Ha & Hr).
  apply bind_Ok_inv in Hr as (mb & Hb & Hr).
  apply (store_coefficient_other _ key _ _ _ _ _ _ l c) in Ha; [| tauto].
  apply (store_coefficient_other _ key _ _ _ _ _ _ l c) in Hb; [| tauto].
  destruct (negb (contains "SW_" model_file)).
  - apply bind_Ok_inv in Hr as (mc & Hc & Hr).
    apply (store_coefficient_other _ key _ _ _ _ _ _ l c) in Hc; [| tauto].
    apply (store_coefficient_other _ key _ _ _ _ _ _ l c) in Hr; [| tauto].
    congruence.
  - injection Hr as <-. congruence.
Qed.

Lemma set_item_square_any (L : Z) :
  ∀ (a a' : ndarray F) (l1 m1 : Z) (v : F),
    True → square L a → set_item a l1 m1 v = Ok a' → square L a'.
Proof. intros a a' l1 m1 v _. apply set_item_square. Qed.

(** A line within the truncation stores its fields. *)
Lemma read_line_value (model_file line key : string) (L l1 m1 : Z) (i : nat)
    (m m' : gmap string (value F)) :
  matrices (square L) model_file m →
  read_line model_file L line m = Ok m' →
  line_indices line = Some (l1, m1) →
  0 ≤ l1 ≤ L → 0 ≤ m1 ≤ L →
  In (key, i) (columns model_file) →
  ∃ v, line_value i line = Some v ∧
       coefficient m' key (Z.to_nat l1) (Z.to_nat m1) = Some v.
Proof.
  intros Hm Hr Hli Hl Hc Hcol.
  apply read_line_indices in Hr as (l1' & m1' & Hli' & Hr).
  rewrite Hli in Hli'. injection Hli' as <- <-.
  rewrite bool_decide_eq_true_2 in Hr by lia.
  apply bind_Ok_inv in Hr as (ma & Ha & Hr).
  apply bind_Ok_inv in Hr as (mb & Hb & Hr).
  pose proof (store_matrices (square L) (λ _ _, True) (set_item_square_any L)
                model_file "clm" l1 m1 _ _ m ma ltac:(simpl; tauto) I Hm Ha) as [Hma _].
  pose proof (store_matrices (square L) (λ _ _, True) (set_item_square_any L)
                model_file "slm" l1 m1 _ _ ma mb ltac:(simpl; tauto) I Hma Hb) as [Hmb _].
  assert (Hval : ∀ key' j ma' mb',
            has_matrix (square L) ma' key' →
            store key' l1 m1 (py_split (sub_d_e line)) j ma' = Ok mb' →
            ∃ v, line_value j line = Some v ∧
                 coefficient mb' key' (Z.to_nat l1) (Z.to_nat m1) = Some v).
  { intros key' j ma' mb' Hk Hs.
    destruct (store_coefficient L key' l1 m1 _ j ma' mb' Hk Hs) as (t & v & Ht & Hv & Hco);
      [lia | lia |].
    exists v. split; [| exact Hco]. unfold line_value. rewrite Ht. exact Hv. }
  unfold columns in Hcol.
  destruct (contains "SW_" model_file) eqn:Hsw; simpl negb in Hr.
  - injection Hr as <-. simpl in Hcol.
    destruct Hcol as [[= <- <-] | [[= <- <-] | []]].
    + destruct (Hval "clm" 3%nat m ma) as (v & Hv & Hco); [apply Hm | exact Ha |].
      exists v. split; [exact Hv |].
      by rewrite (store_coefficient_other "slm" "clm" _ _ _ _ _ _ _ _ Hb) by (by left).
    + apply (Hval "slm" 4%nat ma mb); [apply Hma | exact Hb].
  - apply bind_Ok_inv in Hr as (mc & Hc' & Hr).
    pose proof (store_matrices (square L) (λ _ _, True) (set_item_square_any L)
                  model_file "eclm" l1 m1 _ _ mb mc ltac:(simpl; tauto) I Hmb Hc')
      as [Hmc _].
    simpl in Hcol.
    destruct Hcol as [[= <- <-] | [[= <- <-] | [[= <- <-] | [[= <- <-] | []]]]].
    + destruct (Hval "clm" 3%nat m ma) as (v & Hv & Hco); [apply Hm | exact Ha |].
      exists v. split; [exact Hv |].
      rewrite (store_coefficient_other "eslm" "clm" _ _ _ _ _ _ _ _ Hr) by (by left).
      rewrite (store_coefficient_other "eclm" "clm" _ _ _ _ _ _ _ _ Hc') by (by left).
      by rewrite (store_coefficient_other "slm" "clm" _ _ _ _ _ _ _ _ Hb) by (by left).
    + destruct (Hval "slm" 4%nat ma mb) as (v & Hv & Hco); [apply Hma | exact Hb |].
      exists v. split; [exact Hv |].
      rewrite (store_coefficient_other "eslm" "slm" _ _ _ _ _ _ _ _ Hr) by (by left).
      by rewrite (store_coefficient_other "eclm" "slm" _ _ _ _ _ _ _ _ Hc') by (by left).
    + destruct (Hval "eclm" 5%nat mb mc) as (v & Hv & Hco); [| exact Hc' |].
      { destruct Hmb as (_ & _ & He). rewrite Hsw in He. apply He. }
      exists v. split; [exact Hv |].
      by rewrite (store_coefficient_other "eslm" "eclm" _ _ _ _ _ _ _ _ Hr) by (by left).
    + apply (Hval "eslm" 6%nat mc m'); [| exact Hr].
      destruct Hmc as (_ & _ & He). rewrite Hsw in He. apply He.
Qed.
End Coefficients.

Section ReadCoefficients.
Context {F : Type} `{FloatArith F}.
Variable calculate_tidal_offset : string → F → F → string → F.

Lemma allocate_zero (model_file key : string) (L : Z) (m m' : gmap string (value F))
    (l c : nat) (x : F) :
  allocate model_file L m = Ok m' → In key matrix_keys →
  m !! "eclm" = None → m !! "eslm" = None →
  coefficient m' key l c = Some x → x = of_int 0.
Proof.
  intros Ha Hin He1 He2.
  assert (Hz : ∀ a : ndarray F, np_zeros (L + 1) (L + 1) = Ok a →
                 entry a l c = Some x → x = of_int 0).
  { unfold np_zeros. intros a. case_bool_decide; [discriminate |]. intros [= <-].
    apply zeros_entry. }
  unfold allocate in Ha.
  apply bind_Ok_inv in Ha as (clm & Hclm & Ha).
  apply bind_Ok_inv in Ha as (slm & Hslm & Ha).
  unfold coefficient.
  destruct (negb (contains "SW_" model_file)).
  - apply bind_Ok_inv in Ha as (eclm & Heclm & Ha).
    apply bind_Ok_inv in Ha as (eslm & Heslm & Ha). injection Ha as <-.
    simpl in Hin. destruct Hin as [<- | [<- | [<- | [<- | []]]]].
    + do 3 (rewrite lookup_insert_ne by done). rewrite lookup_insert_eq. eauto.
    + do 2 (rewrite lookup_insert_ne by done). rewrite lookup_insert_eq. eauto.
    + do 1 (rewrite lookup_insert_ne by done). rewrite lookup_insert_eq. eauto.
    + rewrite lookup_insert_eq. eauto.
  - injection Ha as <-.
    simpl in Hin. destruct Hin as [<- | [<- | [<- | [<- | []]]]].
    + do 1 (rewrite lookup_insert_ne by done). rewrite lookup_insert_eq. eauto.
    + rewrite lookup_insert_eq. eauto.
    + do 2 (rewrite lookup_insert_ne by done). by rewrite He1.
    + do 2 (rewrite lookup_insert_ne by done). by rewrite He2.
Qed.

(** Lines that name other entries leave the entry. *)
Lemma read_lines_other (model_file key : string) (L : Z) (lines : list string)
    (m m' : gmap string (value F)) (l c : nat) :
  (∀ line l1 m1, In line lines → line_indices line = Some (l1, m1) →
     0 ≤ l1 ∧ 0 ≤ m1 ∧ (l1, m1) ≠ (Z.of_nat l, Z.of_nat c)) →
  for_each lines (read_line model_file L) m = Ok m' →
  coefficient m' key l c = coefficient m key l c.
Proof.
  intros Hne Hr.
  apply (for_each_preserves (λ s, coefficient s key l c = coefficient m key l c))
    in Hr; [exact Hr | reflexivity |].
  intros line s s' Hin Hs Hline. rewrite <- Hs.
  apply (read_line_other model_file line key L s s' l c Hline).
  intros l1 m1. apply Hne. by apply list_elem_of_In.
Qed.

(** The change of the tide system leaves every entry but [clm[2,0]]. *)
Lemma tide_correction_coefficient (TIDE key : string) (m r : gmap string (value F))
    (l c : nat) :
  tide_correction calculate_tidal_offset TIDE m = Ok r →
  In key matrix_keys →
  (TIDE = "mean_tide" ∨ TIDE = "zero_tide" → (key, l, c) ≠ ("clm", 2%nat, 0%nat)) →
  coefficient r key l c = coefficient m key l c.
Proof.
  intros Ht Hin Hne.
  destruct (decide (TIDE = "mean_tide" ∨ TIDE = "zero_tide")) as [Htide | Hno].
  - specialize (Hne Htide).
    apply (tide_correction_Ok calculate_tidal_offset) in Ht
      as (clm & clm' & v & Hclm & Hset & ->); [| exact Htide].
    unfold coefficient.
    destruct (decide (key = "clm")) as [-> | Hk].
    + rewrite lookup_insert_eq, Hclm.
      pose proof Hset as Hset'.
      apply set_item_Ok in Hset' as (k & j & row & Hk & Hj & _ & _).
      apply (set_item_entry_ne clm clm' 2 0 v k j l c Hset Hk Hj).
      apply np_index_nonneg in Hk, Hj; [| lia..]. subst k j.
      change (Z.to_nat 2) with 2%nat. change (Z.to_nat 0) with 0%nat.
      destruct (decide (l = 2%nat)) as [-> | ?]; [| tauto].
      right. intros ->. by apply Hne.
    + rewrite lookup_insert_ne by done.
      rewrite lookup_insert_ne; [done |].
      intros <-. simpl in Hin.
      destruct Hin as [? | [? | [? | [? | []]]]]; discriminate.
  - rewrite tide_correction_none in Ht by tauto. by injection Ht as <-.
Qed.

(** X9: an entry of a matrix of coefficients that no line of data
    names is zero on return: when every line of data carries a degree
    and an order that are not negative and none of them is the pair
    (l, m), then [clm[l,m]], [slm[l,m]], [eclm[l,m]] and [eslm[l,m]]
    are 0.0, [clm[2,0]] apart when the tide system is changed. *)
Theorem read_unnamed_coefficient (model_file text : string) (LMAX : option Z)
    (TIDE : string) (FLAG : regex) (r : gmap string (value F))
    (key : string) (l m : nat) (x : F) :
  read_ICGEM_harmonics calculate_tidal_offset model_file text LMAX TIDE FLAG = Ok r →
  In key matrix_keys →
  (∀ line l1 m1, In line (data_lines FLAG text) → line_indices line = Some (l1, m1) →
     0 ≤ l1 ∧ 0 ≤ m1 ∧ (l1, m1) ≠ (Z.of_nat l, Z.of_nat m)) →
  (TIDE = "mean_tide" ∨ TIDE = "zero_tide" → (key, l, m) ≠ ("clm", 2%nat, 0%nat)) →
  coefficient r key l m = Some x →
  x = of_int 0.
Proof.
  intros Hr Hin Hlines Htide Hx.
  apply read_Ok in Hr as (L & mi & Hp & Ht).
  rewrite (tide_correction_coefficient TIDE key mi r l m Ht Hin Htide) in Hx.
  apply parse_model_Ok in Hp as (vars & m1 & m2 & m3 & _ & H1 & H2 & _ & H3 & H4).
  unfold read_data in H4.
  rewrite (read_lines_other model_file key L _ m3 mi l m Hlines H4) in Hx.
  eapply allocate_zero; [exact H3 | exact Hin | | | exact Hx].
  - rewrite (read_header_frame _ m1 m2 "eclm" eq_refl H2).
    by apply (temporal_fields_keys _ _ _ "eclm" H1).
  - rewrite (read_header_frame _ m1 m2 "eslm" eq_refl H2).
    by apply (temporal_fields_keys _ _ _ "eslm" H1).
Qed.

(** X10: the value of an entry is the field of the last line of data
    that names it: when such a line lies within the truncation and the
    lines after it name other entries, with degrees and orders that
    are not negative, the matrix of each column holds at (l, m) the
    number that the field of the line reads as, with D for the
    exponent read as E; [clm[2,0]] apart when the tide system is
    changed. *)
Theorem read_stored_coefficient (model_file text : string) (LMAX : option Z)
    (TIDE : string) (FLAG : regex) (r : gmap string (value F)) (L : Z)
    (before after : list string) (line : string) (l1 m1 : Z)
    (key : string) (i : nat) :
  read_ICGEM_harmonics calculate_tidal_offset model_file text LMAX TIDE FLAG = Ok r →
  effective_LMAX model_file text LMAX FLAG = Ok L →
  data_lines FLAG text = (before ++ line :: after)%list →
  line_indices line = Some (l1, m1) → 0 ≤ l1 ≤ L → 0 ≤ m1 ≤ L →
  (∀ line' l' m', In line' after → line_indices line' = Some (l', m') →
     0 ≤ l' ∧ 0 ≤ m' ∧ (l', m') ≠ (l1, m1)) →
  In (key, i) (columns model_file) →
  (TIDE = "mean_tide" ∨ TIDE = "zero_tide" → (key, l1, m1) ≠ ("clm", 2, 0)) →
  ∃ v : F, line_value i line = Some v ∧
           coefficient r key (Z.to_nat l1) (Z.to_nat m1) = Some v.
Proof.
  intros Hr HL Hsplit Hli Hl Hm Hafter Hcol Htide.
  apply read_Ok in Hr as (L' & mi & Hp & Ht).
  unfold effective_LMAX in HL. rewrite Hp in HL. simpl in HL. injection HL as ->.
  assert (Hkey : In key matrix_keys).
  { unfold columns in Hcol. destruct (contains "SW_" model_file); simpl in Hcol |- *;
      repeat (destruct Hcol as [[= <- _] | Hcol]; [tauto |]); destruct Hcol. }
  rewrite (tide_correction_coefficient TIDE key mi r _ _ Ht Hkey).
  2:{ intros Ht' [= -> El Em]. apply (Htide Ht'). f_equal; [f_equal |]; lia. }
  pose proof Hp as Hp'.
  apply parse_model_Ok in Hp' as (vars & ma & mb & m3 & _ & H1 & H2 & _ & H3 & H4).
  unfold read_data in H4. fold (data_lines FLAG text) in H4.
  rewrite Hsplit, for_each_app in H4.
  apply bind_Ok_inv in H4 as (s & Hbefore & H4). simpl in H4.
  apply bind_Ok_inv in H4 as (s' & Hline & H4).
  assert (Hs : matrices (square L) model_file s).
  { apply allocate_matrices in H3 as [H3 _].
    2:{ rewrite (read_header_frame _ ma mb "eclm" eq_refl H2).
        by apply (temporal_fields_keys _ _ _ "eclm" H1). }
    2:{ rewrite (read_header_frame _ ma mb "eslm" eq_refl H2).
        by apply (temporal_fields_keys _ _ _ "eslm" H1). }
    assert (H3' : matrices (square L) model_file m3).
    { destruct H3 as ((a & Ha & Pa & _) & (b & Hb & Pb & _) & He).
      split; [by exists a | split; [by exists b |]].
      destruct (contains "SW_" model_file); [exact He |].
      destruct He as [(c & Hc & Pc & _) (d & Hd & Pd & _)].
      split; [by exists c | by exists d]. }
    apply (for_each_preserves (matrices (square L) model_file)) in Hbefore;
      [exact Hbefore | exact H3' |].
    intros ln t t' _ Ht0 Hln.
    eapply (read_line_matrices (square L) (λ _ _, True) (set_item_square_any L));
      [| exact Ht0 | exact Hln]. done. }
  destruct (read_line_value model_file line key L l1 m1 i s s' Hs Hline Hli Hl Hm Hcol)
    as (v & Hv & Hco).
  exists v. split; [exact Hv |].
  rewrite <- Hco.
  apply (read_lines_other model_file key L after s' mi); [| exact H4].
  intros line' l' m' Hin' Hli'.
  destruct (Hafter line' l' m' Hin' Hli') as (? & ? & Hne).
  split; [lia | split; [lia |]]. rewrite !Z2Nat.id by lia. exact Hne.
Qed.
End ReadCoefficients.

(** ** Lines of data beyond the truncation *)

Section Truncation.
Context {F : Type} `{FloatArith F}.
Variable calculate_tidal_offset : string → F → F → string → F.

(** A line whose degree or order is above the truncation is passed
    over, whatever its other fields are. *)
Lemma read_line_beyond (model_file line : string) (L : Z) (m : gmap string (value F)) :
  within_truncation L line = false → read_line model_file L line m = Ok m.
Proof.
  unfold within_truncation, line_indices, read_line, py_nth, int_of. cbv zeta.
  destruct (py_split (sub_d_e line) !! 1%nat) as [t1|]; [| discriminate]. simpl.
  destruct (py_int t1) as [l1|]; [| discriminate]. simpl.
  destruct (py_split (sub_d_e line) !! 2%nat) as [t2|]; [| discriminate]. simpl.
  destruct (py_int t2) as [m1|]; [| discriminate]. simpl.
  intros ->. reflexivity.
Qed.

Lemma read_lines_within (model_file : string) (L : Z) (lines : list string)
    (m : gmap string (value F)) :
  for_each lines (read_line model_file L) m
  = for_each (List.filter (within_truncation L) lines) (read_line model_file L) m.
Proof.
  revert m. induction lines as [|line lines IH]; intros m; [reflexivity |].
  simpl. destruct (within_truncation L line) eqn:Hw.
  - simpl. destruct (read_line model_file L line m); [apply IH | reflexivity].
  - rewrite read_line_beyond by exact Hw. apply IH.
Qed.

(** X11: the reader looks at a file only through the lines of its
    header and the lines of data within the truncation: two files
    that agree on both are read alike, whatever else they hold, lines
    of data of a higher degree or order included. *)
Theorem read_within_truncation (model_file text text' : string) (LMAX : option Z)
    (TIDE : string) (FLAG : regex) (L : Z) :
  effective_LMAX (F := F) model_file text LMAX FLAG = Ok L →
  header_lines text' = header_lines text →
  List.filter (within_truncation L) (data_lines FLAG text')
  = List.filter (within_truncation L) (data_lines FLAG text) →
  read_ICGEM_harmonics calculate_tidal_offset model_file text' LMAX TIDE FLAG
  = read_ICGEM_harmonics calculate_tidal_offset model_file text LMAX TIDE FLAG.
Proof.
  unfold effective_LMAX, read_ICGEM_harmonics. intros HL Hh Hd.
  assert (Hp : parse_model (F := F) model_file text' LMAX FLAG
               = parse_model model_file text LMAX FLAG); [| by rewrite Hp].
  destruct (parse_model model_file text LMAX FLAG) as [[L' mi]|e] eqn:Hp;
    [| discriminate].
  simpl in HL. injection HL as ->.
  apply parse_model_Ok in Hp as (vars & m1 & m2 & m3 & Hv & H1 & H2 & Ht & H3 & H4).
  unfold parse_model. rewrite Hv. simpl. rewrite H1. simpl.
  assert (H2' : read_header (splitlines text') m1 = Ok m2).
  { unfold read_header in H2 |- *. fold (header_lines text').
    fold (header_lines text) in H2. by rewrite Hh. }
  rewrite H2'. simpl. rewrite Ht. simpl. rewrite H3. simpl.
  unfold read_data in H4 |- *.
  fold (data_lines FLAG text'). fold (data_lines FLAG text) in H4.
  rewrite read_lines_within, Hd, <- read_lines_within, H4. reflexivity.
Qed.
End Truncation.

(** ** The days of the months *)

Section Months.
Context {F : Type} `{FloatArith F}.

(** X12: the months of the tables tile the year: a month after
    January starts on the day after the end of the month before it,
    no month is empty, and December ends on the last day of the year,
    the 365th, or the 366th when the year is a multiple of 4. *)
Theorem month_days_tile (year month : Z) :
  2 ≤ month ≤ 12 →
  ∃ (dpy e0 s e : Z) (s0 : num F),
    month_days year (month - 1) = (dpy, s0, NInt e0) ∧
    month_days year month = (dpy, NInt s, NInt e) ∧
    s = e0 + 1 ∧ s ≤ e ≤ dpy ∧ (month = 12 → e = dpy) ∧
    dpy = (if bool_decide (year `mod` 4 = 0) then 366 else 365).
Proof.
  intros Hm. unfold month_days.
  assert (Hc : month = 2 ∨ month = 3 ∨ month = 4 ∨ month = 5 ∨ month = 6 ∨ month = 7 ∨
               month = 8 ∨ month = 9 ∨ month = 10 ∨ month = 11 ∨ month = 12) by lia.
  case_bool_decide;
    repeat (destruct Hc as [-> | Hc]; [vm_compute; eexists _, _, _, _, _;
      repeat split; (reflexivity || discriminate || (intros ?; reflexivity)) |]);
    subst month; vm_compute; eexists _, _, _, _, _;
      repeat split; (reflexivity || discriminate || (intros ?; reflexivity)).
Qed.
End Months.

(** ** The keys of the record *)

Section Keys.
Context {F : Type} `{FloatArith F}.
Variable calculate_tidal_offset : string → F → F → string → F.

Lemma header_lines_key (text line : string) :
  In line (header_lines text) →
  ∃ key, py_split line !! 0%nat = Some key ∧ is_header_key key = true.
Proof.
  unfold header_lines. intros Hin. apply filter_In in Hin as [_ Hm].
  by apply header_line_key.
Qed.

Lemma header_keys_key (text k : string) :
  In k (header_keys text) → is_header_key k = true.
Proof.
  unfold header_keys. intros Hin.
  apply list_elem_of_In, list_elem_of_omap in Hin as (line & Hin & Hk).
  apply list_elem_of_In, header_lines_key in Hin as (key & Hkey & Hh). congruence.
Qed.

Lemma header_key_not_matrix (k : string) :
  is_header_key k = true → ¬ In k matrix_keys.
Proof.
  intros Hk Hin. simpl in Hin.
  destruct Hin as [<- | [<- | [<- | [<- | []]]]]; discriminate Hk.
Qed.

Lemma header_lines_keys (lines : list string) (m m' : gmap string (value F))
    (k : string) :
  for_each lines header_step m = Ok m' →
  is_Some (m' !! k) ↔ is_Some (m !! k) ∨ In k (omap (λ line, py_split line !! 0%nat) lines).
Proof.
  revert m. induction lines as [|line lines IH]; intros m Hr.
  - injection Hr as <-. simpl. tauto.
  - simpl in Hr. apply bind_Ok_inv in Hr as (s & Hs & Hr).
    rewrite (IH s Hr). unfold header_step in Hs. rewrite header_round in Hs.
    destruct (py_split line) as [|k0 [|v l]] eqn:Hl; try discriminate Hs.
    injection Hs as <-.
    assert (Ho : omap (λ line, py_split line !! 0%nat) (line :: lines)
                 = k0 :: omap (λ line, py_split line !! 0%nat) lines).
    { change (omap ?f (line :: lines))
        with (match f line with Some y => y :: omap f lines | None => omap f lines end).
      cbv beta. by rewrite Hl. }
    rewrite Ho. simpl In.
    destruct (decide (k0 = k)) as [-> | Hne].
    + rewrite lookup_insert_eq. split; [intros _ | intros _; left; eauto].
      right. by left.
    + rewrite lookup_insert_ne by done. split.
      * intros [? | ?]; [by left | right; by right].
      * intros [? | [? | ?]]; [by left | done | by right].
Qed.

Lemma header_lines_value (lines : list string) (m m' : gmap string (value F))
    (k : string) (x : value F) :
  for_each lines header_step m = Ok m' →
  (∀ line, In line lines → py_split line !! 0%nat ≠ Some k) →
  m !! k = Some x → m' !! k = Some x.
Proof.
  intros Hr Hne Hm.
  apply (for_each_preserves (λ s, s !! k = Some x)) in Hr; [exact Hr | exact Hm |].
  intros line s s' Hin Hs Hb. unfold header_step in Hb. rewrite header_round in Hb.
  apply list_elem_of_In, Hne in Hin.
  destruct (py_split line) as [|k0 [|v l]]; try discriminate Hb. injection Hb as <-.
  rewrite lookup_insert_ne; [exact Hs |]. intros ->. by apply Hin.
Qed.

Lemma read_header_steps (file_contents : list string) (m : gmap string (value F)) :
  read_header file_contents m
  = for_each (List.filter (re_match parameters_regex) file_contents) header_step m.
Proof. reflexivity. Qed.

(** X13: the value of a key of the header is the second word of the
    last line of the header that starts with the key: later lines
    with the same key overwrite earlier ones, and what follows the
    second word is dropped.  A change of the tide system overwrites
    [tide_system]. *)
Theorem read_header_value (model_file text : string) (LMAX : option Z) (TIDE : string)
    (FLAG : regex) (r : gmap string (value F))
    (before after : list string) (line k v : string) (rest : list string) :
  read_ICGEM_harmonics calculate_tidal_offset model_file text LMAX TIDE FLAG = Ok r →
  header_lines text = (before ++ line :: after)%list →
  py_split line = k :: v :: rest →
  (∀ line', In line' after → py_split line' !! 0%nat ≠ Some k) →
  (TIDE = "mean_tide" ∨ TIDE = "zero_tide" → k ≠ "tide_system") →
  r !! k = Some (VStr v).
Proof.
  intros Hr Hsplit Hline Hafter Htide.
  assert (Hk : is_header_key k = true).
  { destruct (header_lines_key text line) as (key & Hkey & Hh).
    - rewrite Hsplit. apply in_or_app. right. by left.
    - rewrite Hline in Hkey. by injection Hkey as <-. }
  apply read_Ok in Hr as (L & m & Hp & Ht).
  apply parse_model_stages in Hp as (vars & m1 & m2 & _ & _ & H2 & _ & _ & _ & Hframe).
  assert (Hrk : r !! k = m !! k).
  { destruct (decide (TIDE = "mean_tide" ∨ TIDE = "zero_tide")) as [Hc | Hc].
    - apply (tide_correction_frame calculate_tidal_offset TIDE m r k);
        [intros -> | by apply Htide | exact Ht]. discriminate Hk.
    - rewrite tide_correction_none in Ht by tauto. by injection Ht as <-. }
  rewrite Hrk, Hframe by (by apply header_key_not_matrix).
  rewrite read_header_steps in H2. fold (header_lines text) in H2.
  rewrite Hsplit, for_each_app in H2.
  apply bind_Ok_inv in H2 as (s & _ & H2). simpl in H2.
  apply bind_Ok_inv in H2 as (s' & Hs & H2).
  unfold header_step in Hs. rewrite header_round, Hline in Hs. injection Hs as <-.
  apply (header_lines_value after _ m2 k (VStr v) H2 Hafter).
  apply lookup_insert_eq.
Qed.

(** X14: the keys of the record on return are the first words of the
    lines of the header, the matrices ([clm] and [slm], and [eclm] and
    [eslm] unless the path contains [SW_]), the three dates when the
    path names a series, and [tide_system] when the tide system is
    changed; the record has no other key. *)
Theorem read_keys (model_file text : string) (LMAX : option Z) (TIDE : string)
    (FLAG : regex) (r : gmap string (value F)) (k : string) :
  read_ICGEM_harmonics calculate_tidal_offset model_file text LMAX TIDE FLAG = Ok r →
  is_Some (r !! k) ↔
    In k (header_keys text) ∨ In k (columns model_file).*1 ∨
    (has_dates model_file = true ∧ In k ["time"; "start"; "end"]) ∨
    ((TIDE = "mean_tide" ∨ TIDE = "zero_tide") ∧ k = "tide_system").
Proof.
  intros Hr.
  apply read_Ok in Hr as (L & m & Hp & Ht).
  apply parse_model_stages in Hp
    as (vars & m1 & m2 & Hv & H1 & H2 & _ & _ & Hm & Hframe).
  (* the dates *)
  assert (Hd : is_Some (m1 !! k)
               ↔ has_dates model_file = true ∧ In k ["time"; "start"; "end"]).
  { pose proof (temporal_fields_dates model_file vars m1 Hv H1) as Hdates.
    destruct (decide (In k ["time"; "start"; "end"])) as [Hin | Hin].
    - specialize (Hdates k Hin). destruct (has_dates model_file).
      + destruct Hdates as [x ->]. split; [done | eauto].
      + rewrite Hdates. split; [by intros [] | by intros []].
    - rewrite (temporal_fields_keys model_file vars m1 k H1);
        [| intros ->; apply Hin; simpl; tauto..].
      split; [by intros [] | tauto]. }
  (* the header *)
  rewrite read_header_steps in H2. fold (header_lines text) in H2.
  pose proof (header_lines_keys (header_lines text) m1 m2 k H2) as Hh.
  fold (header_keys text) in Hh. rewrite Hd in Hh.
  (* the matrices *)
  assert (Hc : In k matrix_keys → is_Some (m !! k) ↔ In k (columns model_file).*1).
  { intros Hin. destruct Hm as ((a & Ha & _) & (b & Hb & _) & He).
    unfold columns. simpl in Hin.
    destruct (contains "SW_" model_file); simpl.
    - destruct He as [He1 He2].
      destruct Hin as [<- | [<- | [<- | [<- | []]]]].
      + rewrite Ha. split; [tauto | eauto].
      + rewrite Hb. split; [tauto | eauto].
      + rewrite He1. split; [by intros [] | intros [? | [? | []]]; discriminate].
      + rewrite He2. split; [by intros [] | intros [? | [? | []]]; discriminate].
    - destruct He as [(c & Hc & _) (d & Hd' & _)].
      destruct Hin as [<- | [<- | [<- | [<- | []]]]].
      + rewrite Ha. split; [tauto | eauto].
      + rewrite Hb. split; [tauto | eauto].
      + rewrite Hc. split; [tauto | eauto].
      + rewrite Hd'. split; [tauto | eauto]. }
  assert (Hcol : In k (columns model_file).*1 → In k matrix_keys).
  { unfold columns. destruct (contains "SW_" model_file); simpl; tauto. }
  (* the record as parsed *)
  assert (Hpm : is_Some (m !! k) ↔
            In k (header_keys text) ∨ In k (columns model_file).*1 ∨
            (has_dates model_file = true ∧ In k ["time"; "start"; "end"])).
  { destruct (decide (In k matrix_keys)) as [Hin | Hin].
    - rewrite (Hc Hin). split; [tauto |].
      intros [Hk | [? | [_ Hk]]]; [| done |].
      + apply header_keys_key in Hk. by apply header_key_not_matrix in Hk.
      + simpl in Hin, Hk.
        destruct Hk as [<- | [<- | [<- | []]]];
          destruct Hin as [? | [? | [? | [? | []]]]]; discriminate.
    - rewrite (Hframe k Hin), Hh. split; [tauto |].
      intros [? | [? | ?]]; [tauto | | tauto]. exfalso. tauto. }
  (* the tide system *)
  destruct (decide (TIDE = "mean_tide" ∨ TIDE = "zero_tide")) as [Htide | Htide].
  - apply (tide_correction_Ok calculate_tidal_offset) in Ht
      as (clm & clm' & x & Hclm & _ & ->); [| exact Htide].
    destruct (decide (k = "clm")) as [-> | Hk1].
    + rewrite lookup_insert_eq. split; [intros _ | eauto].
      right. left. unfold columns. destruct (contains "SW_" model_file); simpl; tauto.
    + rewrite lookup_insert_ne by done.
      destruct (decide (k = "tide_system")) as [-> | Hk2].
      * rewrite lookup_insert_eq. split; [intros _ | eauto]. tauto.
      * rewrite lookup_insert_ne by done. rewrite Hpm. split; [tauto |].
        intros [? | [? | [? | [_ ?]]]]; tauto.
  - rewrite tide_correction_none in Ht by tauto. injection Ht as <-.
    rewrite Hpm. tauto.
Qed.
End Keys.

(** ** The Julian dates of the months, in double precision *)

Lemma forallb_seqZ (p : Z → bool) (a n z : Z) :
  forallb p (seqZ a n) = true → a ≤ z < a + n → p z = true.
Proof.
  intros Hall Hz. rewrite forallb_forall in Hall. apply Hall.
  apply list_elem_of_In, elem_of_seqZ. lia.
Qed.

(** A year of a few digits is far from the integers that are too large
    for a float. *)
Lemma int_overflows_small (z : Z) : Z.abs z < 2 ^ 64 → int_overflows z = false.
Proof.
  intros Hz. unfold int_overflows. apply bool_decide_eq_false_2.
  assert (Hlt : 2 ^ 64 < 2 ^ 1024 - 2 ^ 970) by (vm_compute; reflexivity).
  lia.
Qed.

(** X15: the dates of consecutive months abut: from 1902 to 2100, the
    Julian date that a file of the series of GRAZ or of SWARM gets as
    the start of a month is one day after the Julian date that the
    file of the month before gets as its end, across the end of the
    year as well.  The table of the days per month and the formula of
    the Julian date agree on the leap years of these two centuries. *)
Theorem temporal_fields_consecutive (model_file : string) (year month : Z) :
  contains "ITSG" model_file || contains "SW_" model_file = true →
  1902 ≤ year ≤ 2100 → 1 ≤ month ≤ 12 →
  ∃ (r r' : gmap string (value float)) (e s : float),
    temporal_fields model_file (YearMonth year month) ∅ = Ok r ∧
    temporal_fields model_file
      (YearMonth (next_month year month).1 (next_month year month).2) ∅ = Ok r' ∧
    date r "end" = Some e ∧ date r' "start" = Some s ∧
    feqb s (fadd e (of_int 1)) = true.
Proof.
  intros Hmf Hy Hm. unfold temporal_fields. rewrite Hmf.
  set (check := λ y m : Z,
         let '(_, _, ed) := month_days (F := float) y m in
         let '(_, sd, _) :=
           month_days (F := float) (next_month y m).1 (next_month y m).2 in
         feqb (julian_date (of_int (next_month y m).1) (to_float sd))
              (fadd (julian_date (of_int y) (to_float ed)) (of_int 1))).
  assert (Hall : forallb (λ y, forallb (check y) (seqZ 1 12)) (seqZ 1902 199) = true)
    by (vm_compute; reflexivity).
  apply (forallb_seqZ _ _ _ year) in Hall; [| lia].
  apply (forallb_seqZ _ _ _ month) in Hall; [| lia].
  unfold check in Hall.
  destruct (month_days year month) as [[dpy sd] ed].
  destruct (month_days (next_month year month).1 (next_month year month).2)
    as [[dpy' sd'] ed'].
  assert (Hnext : Z.abs (next_month year month).1 < 2 ^ 64).
  { unfold next_month. case_bool_decide; simpl; lia. }
  rewrite !int_overflows_small by (exact Hnext || lia).
  eexists _, _, _, _. split; [reflexivity |]. split; [reflexivity |].
  split; [| split].
  - unfold date. by rewrite lookup_insert_eq.
  - unfold date. by rewrite lookup_insert_ne, lookup_insert_eq.
  - exact Hall.
Qed.

(** ** The patterns on the names of the files *)

Lemma length_app_str (w s : string) :
  String.length (w ++ s) = (String.length w + String.length s)%nat.
Proof. induction w as [|c w IH]; [reflexivity |]. rewrite append_cons. simpl. by rewrite IH. Qed.

Lemma take_str_app (w s : string) : take_str (String.length w) (w ++ s) = w.
Proof.
  induction w as [|c w IH]; [by destruct s |]. rewrite append_cons. simpl. by rewrite IH.
Qed.

Lemma drop_str_app (w s : string) : drop_str (String.length w) (w ++ s) = s.
Proof. induction w as [|c w IH]; [by destruct s |]. rewrite append_cons. exact IH. Qed.

(** What a group captures: the text between the start of the group and
    the text that is left. *)
Lemma captured (w s : string) :
  take_str (String.length (w ++ s) - String.length s) (w ++ s) = w.
Proof.
  rewrite length_app_str.
  replace (String.length w + String.length s - String.length s)%nat
    with (String.length w) by lia.
  apply take_str_app.
Qed.

Section Matching.
Context {R : Type}.

Lemma lazy_star_here (c : cclass) (s : string) (k : string → option R) (v : R) :
  k s = Some v → lazy_star c s k = Some v.
Proof. intros Hk. destruct s; simpl; by rewrite Hk. Qed.

(** A lazy star goes past the characters at which what follows the
    star cannot start. *)
Lemma lazy_star_skip (c : cclass) (p : ascii → bool) (w rest : string)
    (k : string → option R) :
  string_forall p w = true →
  (∀ a, p a = true → in_class c a = true) →
  (∀ a s, p a = true → k (String a s) = None) →
  lazy_star c (w ++ rest) k = lazy_star c rest k.
Proof.
  intros Hw Hc Hk. induction w as [|a w IH]; [reflexivity |].
  simpl in Hw. apply andb_true_iff in Hw as [Ha Hw].
  rewrite append_cons. simpl. rewrite (Hk a _ Ha), (Hc a Ha). simpl. exact (IH Hw).
Qed.

(** A greedy star takes all the characters of its class when what
    follows matches after them. *)
Lemma greedy_star_all (c : cclass) (w rest : string) (k : string → option R) (v : R) :
  string_forall (in_class c) w = true →
  match rest with String a _ => in_class c a = false | "" => True end →
  k rest = Some v →
  greedy_star c (w ++ rest) k = Some v.
Proof.
  intros Hw Hrest Hk. induction w as [|a w IH].
  - rewrite append_nil. destruct rest as [|a s]; simpl; [exact Hk |].
    by rewrite Hrest.
  - simpl in Hw. apply andb_true_iff in Hw as [Ha Hw].
    rewrite append_cons. simpl. by rewrite Ha, (IH Hw).
Qed.

Lemma re_go_lit (t rest : string) (r : regex) (caps : list string)
    (k : string → list string → option R) :
  re_go (RSeq (RLit t) r) (t ++ rest) caps k = re_go r rest caps k.
Proof. simpl. by rewrite prefix_app_true, drop_str_app. Qed.

Lemma re_go_lit_mismatch (sep a : ascii) (t s : string) (r : regex)
    (caps : list string) (k : string → list string → option R) :
  Ascii.eqb a sep = false →
  re_go (RSeq (RLit (String sep t)) r) (String a s) caps k = None.
Proof.
  intros Hne. simpl. destruct (ascii_dec sep a) as [-> | _]; [| reflexivity].
  by rewrite Ascii.eqb_refl in Hne.
Qed.

(** A lazy group before a literal that starts with [sep], on text
    without [sep] followed by the literal. *)
Lemma re_go_group_lazy (i : nat) (sep : ascii) (t w rest : string) (r : regex)
    (caps : list string) (k : string → list string → option R) (v : R) :
  string_forall (plain sep) w = true →
  re_go r rest (<[i := w]> caps) k = Some v →
  re_go (RSeq (RGroup i (RLazy CAny)) (RSeq (RLit (String sep t)) r))
    (w ++ String sep t ++ rest) caps k = Some v.
Proof.
  intros Hw Hv.
  change (re_go (RSeq (RGroup i (RLazy CAny)) (RSeq (RLit (String sep t)) r))
            (w ++ String sep t ++ rest) caps k)
    with (lazy_star CAny (w ++ String sep t ++ rest)
            (λ s', re_go (RSeq (RLit (String sep t)) r) s'
                     (<[i := take_str (String.length (w ++ String sep t ++ rest)
                                       - String.length s')
                               (w ++ String sep t ++ rest)]> caps) k)).
  rewrite (lazy_star_skip CAny (plain sep)); [| exact Hw | |].
  - apply lazy_star_here. by rewrite captured, re_go_lit.
  - intros a Ha. by apply andb_true_iff in Ha as [Ha _].
  - intros a s Ha. apply re_go_lit_mismatch.
    apply andb_true_iff in Ha as [_ Ha]. by destruct (Ascii.eqb a sep).
Qed.

(** A group of digits, on digits followed by something else. *)
Lemma re_go_group_digits (i : nat) (w rest : string) (r : regex)
    (caps : list string) (k : string → list string → option R) (v : R) :
  w ≠ "" → string_forall is_digit w = true →
  match rest with String a _ => is_digit a = false | "" => True end →
  re_go r rest (<[i := w]> caps) k = Some v →
  re_go (RSeq (RGroup i (RPlus CDigit)) r) (w ++ rest) caps k = Some v.
Proof.
  intros Hne Hw Hrest Hv. destruct w as [|a w]; [done |].
  simpl in Hw. apply andb_true_iff in Hw as [Ha Hw].
  change (re_go (RSeq (RGroup i (RPlus CDigit)) r) (String a w ++ rest) caps k)
    with (if in_class CDigit a
          then greedy_star CDigit (w ++ rest)
                 (λ s'', re_go r s''
                    (<[i := take_str (String.length (String a w ++ rest)
                                      - String.length s'')
                              (String a w ++ rest)]> caps) k)
          else None).
  simpl in_class. rewrite Ha.
  apply greedy_star_all; [exact Hw | exact Hrest |].
  by rewrite captured.
Qed.

(** A group of one literal. *)
Lemma re_go_group_lit (i : nat) (t rest : string) (r : regex)
    (caps : list string) (k : string → list string → option R) :
  re_go (RSeq (RGroup i (RLit t)) r) (t ++ rest) caps k
  = re_go r rest (<[i := t]> caps) k.
Proof. simpl. by rewrite prefix_app_true, drop_str_app, captured. Qed.
End Matching.

(** After a match that takes the whole text there is no other. *)
Lemma findall_go_end (n : nat) (r : regex) (s : string) :
  match_at n r "" = None → findall_go n r s (String.length s) = [].
Proof.
  intros Hr. induction s as [|a s IH]; simpl; [by rewrite Hr | exact IH].
Qed.

Lemma findall_whole (n : nat) (r : regex) (s : string) (caps : list string) :
  s ≠ "" → match_at n r s = Some ("", caps) → match_at n r "" = None →
  findall n r s = [caps].
Proof.
  intros Hs Hm Hr. unfold findall. destruct s as [|a s]; [done |].
  change (findall_go n r (String a s) 0)
    with (match match_at n r (String a s) with
          | Some (rest, caps) =>
              caps :: findall_go n r s
                        (String.length (String a s) - String.length rest - 1)
          | None => findall_go n r s 0
          end).
  rewrite Hm. f_equal.
  replace (String.length (String a s) - String.length "" - 1)%nat
    with (String.length s) by (simpl; lia).
  by apply findall_go_end.
Qed.

(** ** Integers in decimal digits *)

Lemma is_digit_not_space (c : ascii) : is_digit c = true → is_number_space c = false.
Proof.
  destruct c as [[] [] [] [] [] [] [] []]; intros Hd; try discriminate Hd; reflexivity.
Qed.

Lemma rstrip_digits (s : string) : string_forall is_digit s = true → rstrip s = s.
Proof.
  induction s as [|c s IH]; [reflexivity |]. simpl. intros Hs.
  apply andb_true_iff in Hs as [Hc Hs]. rewrite (IH Hs).
  destruct s; [by rewrite (is_digit_not_space c Hc) | reflexivity].
Qed.

Lemma digits_go_decimal (s : string) (acc : Z) (b : bool) :
  s ≠ "" → string_forall is_digit s = true →
  digits_go s acc b = Some (decimal_go s acc).
Proof.
  revert acc b. induction s as [|c s IH]; intros acc b Hne Hs; [done |].
  simpl in Hs. apply andb_true_iff in Hs as [Hc Hs].
  simpl. rewrite Hc. destruct s as [|d s]; [reflexivity |].
  by apply IH.
Qed.

Lemma count_digits_length (s : string) :
  string_forall is_digit s = true → count_digits s = String.length s.
Proof.
  induction s as [|c s IH]; [reflexivity |]. simpl. intros Hs.
  apply andb_true_iff in Hs as [Hc Hs]. by rewrite Hc, (IH Hs).
Qed.

(** [int] of a string of digits, no more than the 4300 that [int]
    accepts, is the number that they write. *)
Lemma py_int_decimal (s : string) :
  s ≠ "" → string_forall is_digit s = true → (String.length s ≤ 4300)%nat →
  py_int s = Some (decimal s).
Proof.
  intros Hne Hs Hlen. unfold py_int, strip.
  assert (Hl : lstrip s = s).
  { destruct s as [|c s]; [done |]. simpl in Hs |- *.
    apply andb_true_iff in Hs as [Hc _]. by rewrite (is_digit_not_space c Hc). }
  rewrite Hl, (rstrip_digits s Hs).
  assert (Hsign : split_sign s = (false, s)).
  { destruct s as [|c s]; [done |]. simpl in Hs.
    apply andb_true_iff in Hs as [Hc _].
    destruct c as [[] [] [] [] [] [] [] []]; try discriminate Hc; reflexivity. }
  rewrite Hsign.
  rewrite bool_decide_eq_false_2
    by (rewrite (count_digits_length s Hs); unfold max_str_digits; lia).
  rewrite (digits_go_decimal s 0 false Hne Hs). reflexivity.
Qed.

Section MatchingGroups.
Context {R : Type}.

(** A group of two literals, on the first and on the second. *)
Lemma re_go_group_alt_l (i : nat) (t1 t2 rest : string) (r : regex)
    (caps : list string) (k : string → list string → option R) (v : R) :
  re_go r rest (<[i := t1]> caps) k = Some v →
  re_go (RSeq (RGroup i (RAlt (RLit t1) (RLit t2))) r) (t1 ++ rest) caps k = Some v.
Proof. intros Hv. simpl. by rewrite prefix_app_true, drop_str_app, captured, Hv. Qed.

Lemma re_go_group_alt_r (i : nat) (t1 t2 rest : string) (r : regex)
    (caps : list string) (k : string → list string → option R) (v : R) :
  String.prefix t1 (t2 ++ rest) = false →
  re_go r rest (<[i := t2]> caps) k = Some v →
  re_go (RSeq (RGroup i (RAlt (RLit t1) (RLit t2))) r) (t2 ++ rest) caps k = Some v.
Proof.
  intros Hp Hv. simpl. rewrite Hp. simpl.
  by rewrite prefix_app_true, drop_str_app, captured, Hv.
Qed.
End MatchingGroups.

(** The group of the suffix at the end of the name. *)
Lemma match_suffix (i : nat) (SFX : string) (caps : list string) :
  In SFX [".gz"; ".gfc"; ".txt"] →
  re_go (RGroup i suffixes) SFX caps (λ s' caps', Some (s', caps'))
  = Some ("", <[i := SFX]> caps).
Proof. intros [<- | [<- | [<- | []]]]; reflexivity. Qed.

Lemma suffix_head (SFX : string) :
  In SFX [".gz"; ".gfc"; ".txt"] →
  match SFX with String a _ => is_digit a = false | "" => True end.
Proof. intros [<- | [<- | [<- | []]]]; reflexivity. Qed.

Lemma match_ITSG (P SAT T Y M SFX : string) :
  string_forall (plain "-") P = true →
  In SAT ["Grace_operational"; "Grace2018"] →
  string_forall (plain "_") T = true →
  Y ≠ "" → string_forall is_digit Y = true →
  M ≠ "" → string_forall is_digit M = true →
  In SFX [".gz"; ".gfc"; ".txt"] →
  match_at 6 rx_ITSG (P ++ "-" ++ SAT ++ "_" ++ T ++ "_" ++ Y ++ "-" ++ M ++ SFX)
  = Some ("", [P; SAT; T; Y; M; SFX]).
Proof.
  intros HP HSAT HT HY0 HY HM0 HM HSFX.
  unfold match_at, rx_ITSG. cbn [rseq].
  apply re_go_group_lazy; [exact HP |].
  assert (Hrest : ∀ caps,
    re_go (RSeq (RLit "_")
             (RSeq (RGroup 2 (RLazy CAny))
                (RSeq (RLit "_")
                   (RSeq (RGroup 3 (RPlus CDigit))
                      (RSeq (RLit "-")
                         (RSeq (RGroup 4 (RPlus CDigit)) (RGroup 5 suffixes)))))))
      ("_" ++ T ++ "_" ++ Y ++ "-" ++ M ++ SFX) caps (λ s' caps', Some (s', caps'))
    = Some ("", <[5%nat := SFX]> (<[4%nat := M]> (<[3%nat := Y]> (<[2%nat := T]> caps))))).
  { intros caps. rewrite re_go_lit.
    apply re_go_group_lazy; [exact HT |].
    apply re_go_group_digits; [exact HY0 | exact HY | reflexivity |].
    rewrite re_go_lit.
    apply re_go_group_digits; [exact HM0 | exact HM | by apply suffix_head |].
    by apply match_suffix. }
  cbn [ralt].
  destruct HSAT as [<- | [<- | []]].
  - apply re_go_group_alt_l. by rewrite Hrest.
  - apply re_go_group_alt_r; [reflexivity |]. by rewrite Hrest.
Qed.

Section Names.
Context {F : Type} `{FloatArith F}.

(** X16: the name of a file of the series of GRAZ gives its year and
    its month: for a path with a basename
    [P-SAT_T_Y-M.SFX], where [P] holds no hyphen, [SAT] is
    [Grace_operational] or [Grace2018], [T] holds no underscore, [Y]
    and [M] are strings of digits, of no more than the 4300 digits
    that [int] accepts, and the suffix is one of the three of the
    pattern, the year and the month are the numbers that [Y] and [M]
    write. *)
Theorem filename_fields_ITSG (model_file P SAT T Y M SFX : string) :
  contains "ITSG" model_file = true →
  basename model_file = P ++ "-" ++ SAT ++ "_" ++ T ++ "_" ++ Y ++ "-" ++ M ++ SFX →
  string_forall (plain "-") P = true →
  In SAT ["Grace_operational"; "Grace2018"] →
  string_forall (plain "_") T = true →
  Y ≠ "" → string_forall is_digit Y = true → (String.length Y ≤ 4300)%nat →
  M ≠ "" → string_forall is_digit M = true → (String.length M ≤ 4300)%nat →
  In SFX [".gz"; ".gfc"; ".txt"] →
  filename_fields (F := F) model_file = Ok (YearMonth (decimal Y) (decimal M)).
Proof.
  intros Hc Hb HP HSAT HT HY0 HY HYn HM0 HM HMn HSFX.
  unfold filename_fields. rewrite Hc, Hb.
  rewrite (findall_whole 6 rx_ITSG _ [P; SAT; T; Y; M; SFX]).
  - unfold pop, int_of. simpl last. simpl.
    rewrite (py_int_decimal Y HY0 HY HYn). simpl.
    by rewrite (py_int_decimal M HM0 HM HMn).
  - destruct P; discriminate.
  - by apply match_ITSG.
  - reflexivity.
Qed.
End Names.

(** ** The names of SWARM and of COST-G *)

Lemma string_forall_app (p : ascii → bool) (w s : string) :
  string_forall p (w ++ s) = string_forall p w && string_forall p s.
Proof.
  induction w as [|a w IH]; [reflexivity |]. rewrite append_cons. simpl.
  by rewrite IH, andb_assoc.
Qed.

Lemma string_forall_impl (p q : ascii → bool) (s : string) :
  (∀ a, p a = true → q a = true) → string_forall p s = true → string_forall q s = true.
Proof.
  intros Hpq. induction s as [|a s IH]; [done |]. simpl. intros Hs.
  apply andb_true_iff in Hs as [Ha Hs]. by rewrite (Hpq a Ha), (IH Hs).
Qed.

Lemma is_digit_plain (sep a : ascii) :
  is_digit sep = false → is_digit a = true → plain sep a = true.
Proof.
  intros Hsep Ha. unfold plain. apply andb_true_iff. split.
  - destruct a as [[] [] [] [] [] [] [] []]; try discriminate Ha; reflexivity.
  - destruct (Ascii.eqb_spec a sep) as [-> | _]; [congruence | reflexivity].
Qed.

Lemma prefix_mismatch (c a : ascii) (t s : string) :
  Ascii.eqb a c = false → String.prefix (String c t) (String a s) = false.
Proof.
  intros Hne. simpl. destruct (ascii_dec c a) as [-> | _]; [| reflexivity].
  by rewrite Ascii.eqb_refl in Hne.
Qed.

(** The group of the suffix fails on a character other than a dot. *)
Lemma suffix_mismatch {R : Type} (i : nat) (a : ascii) (s : string) (caps : list string)
    (k : string → list string → option R) :
  plain "." a = true → re_go (RGroup i suffixes) (String a s) caps k = None.
Proof.
  intros Ha. apply andb_true_iff in Ha as [_ Ha].
  assert (Hne : Ascii.eqb a "." = false) by (by destruct (Ascii.eqb a ".")).
  unfold suffixes. cbn [ralt re_go].
  by rewrite !prefix_mismatch.
Qed.

(** A lazy group before the group of the suffix, at the end. *)
Lemma match_lazy_suffix (i j : nat) (w SFX : string) (caps : list string) :
  string_forall (plain ".") w = true →
  In SFX [".gz"; ".gfc"; ".txt"] →
  re_go (RSeq (RGroup i (RLazy CAny)) (RGroup j suffixes)) (w ++ SFX) caps
    (λ s' caps', Some (s', caps'))
  = Some ("", <[j := SFX]> (<[i := w]> caps)).
Proof.
  intros Hw HSFX.
  change (re_go (RSeq (RGroup i (RLazy CAny)) (RGroup j suffixes)) (w ++ SFX) caps
            (λ s' caps', Some (s', caps')))
    with (lazy_star CAny (w ++ SFX)
            (λ s', re_go (RGroup j suffixes) s'
                     (<[i := take_str (String.length (w ++ SFX) - String.length s')
                               (w ++ SFX)]> caps)
                     (λ s' caps', Some (s', caps')))).
  rewrite (lazy_star_skip CAny (plain ".")); [| exact Hw | |].
  - apply lazy_star_here. rewrite captured. by apply match_suffix.
  - intros a Ha. by apply andb_true_iff in Ha as [Ha _].
  - intros a s Ha. by apply suffix_mismatch.
Qed.

Lemma match_SWARM (tmp SD ED RL SFX : string) :
  string_forall (plain "_") tmp = true →
  string_forall (plain "_") SD = true →
  string_forall (plain "_") ED = true →
  string_forall (plain ".") RL = true →
  In SFX [".gz"; ".gfc"; ".txt"] →
  match_at 7 rx_SWARM
    ("SW" ++ "_" ++ tmp ++ "_" ++ "EGF_SHA_2" ++ "__" ++ SD ++ "_" ++ ED ++ "_" ++ RL ++ SFX)
  = Some ("", ["SW"; tmp; "EGF_SHA_2"; SD; ED; RL; SFX]).
Proof.
  intros Htmp HSD HED HRL HSFX.
  unfold match_at, rx_SWARM. cbn [rseq].
  rewrite re_go_group_lit, re_go_lit.
  apply re_go_group_lazy; [exact Htmp |].
  rewrite re_go_group_lit, re_go_lit.
  apply re_go_group_lazy; [exact HSD |].
  apply re_go_group_lazy; [exact HED |].
  by rewrite match_lazy_suffix.
Qed.

Section NamesMore.
Context {F : Type} `{FloatArith F}.

(** X17: the name of a file of SWARM gives its year and its month:
    for a basename [SW_tmp_EGF_SHA_2__YMD_ED_RL.SFX] whose start date
    begins with four digits [Y] and two digits [M], the fields
    holding no underscore and the release no dot, the year and the
    month are the numbers that [Y] and [M] write. *)
Theorem filename_fields_SWARM (model_file tmp Y M D ED RL SFX : string) :
  contains "ITSG" model_file = false →
  basename model_file
  = "SW" ++ "_" ++ tmp ++ "_" ++ "EGF_SHA_2" ++ "__" ++ (Y ++ M ++ D)
    ++ "_" ++ ED ++ "_" ++ RL ++ SFX →
  string_forall (plain "_") tmp = true →
  String.length Y = 4%nat → string_forall is_digit Y = true →
  String.length M = 2%nat → string_forall is_digit M = true →
  string_forall (plain "_") D = true →
  string_forall (plain "_") ED = true →
  string_forall (plain ".") RL = true →
  In SFX [".gz"; ".gfc"; ".txt"] →
  filename_fields (F := F) model_file = Ok (YearMonth (decimal Y) (decimal M)).
Proof.
  intros Hc Hb Htmp HY4 HY HM2 HM HD HED HRL HSFX.
  assert (Hsw : contains "SW_" model_file = true).
  { apply contains_basename. rewrite Hb.
    change ("SW" ++ "_" ++ ?x) with (String "S" ("W_" ++ x)).
    unfold contains. change (String "S" ("W_" ++ ?x)) with ("SW_" ++ x).
    by rewrite prefix_app_true. }
  assert (HSD : string_forall (plain "_") (Y ++ M ++ D) = true).
  { rewrite !string_forall_app, HD.
    assert (Hd : ∀ s, string_forall is_digit s = true →
                      string_forall (plain "_") s = true).
    { intros s. apply string_forall_impl. intros a. by apply is_digit_plain. }
    by rewrite (Hd Y HY), (Hd M HM). }
  unfold filename_fields. rewrite Hc, Hsw, Hb.
  rewrite (findall_whole 7 rx_SWARM _ ["SW"; tmp; "EGF_SHA_2"; Y ++ M ++ D; ED; RL; SFX]);
    [| discriminate | by apply match_SWARM | reflexivity].
  assert (E1 : slice_str 0 4 (Y ++ M ++ D) = Y).
  { unfold slice_str. simpl drop_str. change (4 - 0)%nat with 4%nat.
    rewrite <- HY4. apply take_str_app. }
  assert (E2 : slice_str 4 6 (Y ++ M ++ D) = M).
  { unfold slice_str. change (6 - 4)%nat with 2%nat.
    rewrite <- HY4, drop_str_app, <- HM2. apply take_str_app. }
  unfold pop, int_of. simpl last. cbn [mbind of_option result_bind].
  rewrite E1, E2.
  rewrite (py_int_decimal Y), (py_int_decimal M);
    [reflexivity | by destruct M | exact HM | lia | by destruct Y | exact HY | lia].
Qed.
End NamesMore.

(** The end of the pattern of COST-G: what is left after the release,
    a suffix or none, and the end of the text. *)
Lemma match_COSTG_end (F2 SFX : string) (caps : list string) :
  string_forall (plain ".") F2 = true →
  In SFX [""; ".gz"; ".gfc"; ".txt"] →
  caps !! 8%nat = Some "" →
  re_go (RSeq (RGroup 7 (RLazy CAny)) (RSeq (ROpt (RGroup 8 suffixes)) REnd))
    (F2 ++ SFX) caps (λ s' caps', Some (s', caps'))
  = Some ("", <[8%nat := SFX]> (<[7%nat := F2]> caps)).
Proof.
  intros HF2 HSFX Hcaps.
  change (re_go (RSeq (RGroup 7 (RLazy CAny)) (RSeq (ROpt (RGroup 8 suffixes)) REnd))
            (F2 ++ SFX) caps (λ s' caps', Some (s', caps')))
    with (lazy_star CAny (F2 ++ SFX)
            (λ s', re_go (RSeq (ROpt (RGroup 8 suffixes)) REnd) s'
                     (<[7%nat := take_str (String.length (F2 ++ SFX) - String.length s')
                                   (F2 ++ SFX)]> caps)
                     (λ s' caps', Some (s', caps')))).
  rewrite (lazy_star_skip CAny (plain ".")); [| exact HF2 | |].
  - apply lazy_star_here. rewrite captured.
    destruct HSFX as [<- | [<- | [<- | [<- | []]]]]; try reflexivity.
    simpl. f_equal. f_equal. symmetry. apply list_insert_id.
    by rewrite list_lookup_insert_ne.
  - intros a Ha. by apply andb_true_iff in Ha as [Ha _].
  - intros a s Ha.
    change (re_go (RSeq (ROpt (RGroup 8 suffixes)) REnd) (String a s) ?c ?k)
      with (or_else (re_go (RGroup 8 suffixes) (String a s) c
                       (λ s' caps', re_go REnd s' caps' k))
              (λ _, re_go REnd (String a s) c k)).
    rewrite suffix_mismatch by exact Ha. simpl.
    rewrite bool_decide_eq_false_2; [reflexivity |].
    intros [? | [= -> ->]]; [discriminate | discriminate Ha].
Qed.

Lemma match_COSTG (PFX SD ED N F1 DRL F2 SFX : string) :
  string_forall (plain "-") PFX = true →
  SD ≠ "" → string_forall is_digit SD = true →
  ED ≠ "" → string_forall is_digit ED = true →
  string_forall (plain "_") N = true →
  string_forall (plain "_") F1 = true →
  DRL ≠ "" → string_forall is_digit DRL = true →
  string_forall (λ a, plain "." a && negb (is_digit a)) F2 = true →
  In SFX [""; ".gz"; ".gfc"; ".txt"] →
  match_at 9 rx_COSTG
    (PFX ++ "-2_" ++ SD ++ "-" ++ ED ++ "_" ++ N ++ "_" ++ "COSTG" ++ "_" ++ F1 ++ "_"
     ++ DRL ++ F2 ++ SFX)
  = Some ("", [PFX; SD; ED; N; "COSTG"; F1; DRL; F2; SFX]).
Proof.
  intros HPFX HSD0 HSD HED0 HED HN HF1 HDRL0 HDRL HF2 HSFX.
  unfold match_at, rx_COSTG. cbn [rseq].
  apply re_go_group_lazy; [exact HPFX |].
  apply re_go_group_digits; [exact HSD0 | exact HSD | reflexivity |].
  rewrite re_go_lit.
  apply re_go_group_digits; [exact HED0 | exact HED | reflexivity |].
  rewrite re_go_lit.
  apply re_go_group_lazy; [exact HN |].
  rewrite re_go_group_lit, re_go_lit.
  apply re_go_group_lazy; [exact HF1 |].
  apply re_go_group_digits; [exact HDRL0 | exact HDRL | |].
  - destruct F2 as [|a F2].
    + rewrite append_nil. destruct HSFX as [<- | [<- | [<- | [<- | []]]]]; reflexivity.
    + rewrite append_cons. simpl in HF2.
      apply andb_true_iff in HF2 as [Ha _]. apply andb_true_iff in Ha as [_ Ha].
      by destruct (is_digit a).
  - rewrite match_COSTG_end; [reflexivity | | exact HSFX | reflexivity].
    eapply string_forall_impl; [| exact HF2].
    intros a Ha. by apply andb_true_iff in Ha as [Ha _].
Qed.

Section NamesCOSTG.
Context {F : Type} `{FloatArith F}.

(** X18: the name of a file of COST-G gives its two dates: for a
    basename [PFX-2_SD-ED_N_COSTG_F1_DRL F2 SFX] with digits for the
    dates and for the release, the years are read from the first four
    characters of [SD] and of [ED], and the days of the year from the
    characters after them, each as a float. *)
Theorem filename_fields_COSTG (model_file PFX SD ED N F1 DRL F2 SFX : string) :
  contains "ITSG" model_file = false →
  contains "SW_" model_file = false →
  contains "COSTG" model_file = true →
  basename model_file
  = PFX ++ "-2_" ++ SD ++ "-" ++ ED ++ "_" ++ N ++ "_" ++ "COSTG" ++ "_" ++ F1 ++ "_"
    ++ DRL ++ F2 ++ SFX →
  string_forall (plain "-") PFX = true →
  SD ≠ "" → string_forall is_digit SD = true →
  ED ≠ "" → string_forall is_digit ED = true →
  string_forall (plain "_") N = true →
  string_forall (plain "_") F1 = true →
  DRL ≠ "" → string_forall is_digit DRL = true →
  string_forall (λ a, plain "." a && negb (is_digit a)) F2 = true →
  In SFX [""; ".gz"; ".gfc"; ".txt"] →
  filename_fields (F := F) model_file
  = (start_yr ← py_float (take_str 4 SD);
     end_yr ← py_float (take_str 4 ED);
     start_day ← py_float (drop_str 4 SD);
     end_day ← py_float (drop_str 4 ED);
     Ok (StartEnd start_yr end_yr start_day end_day)).
Proof.
  intros Hc1 Hc2 Hc3 Hb HPFX HSD0 HSD HED0 HED HN HF1 HDRL0 HDRL HF2 HSFX.
  unfold filename_fields. rewrite Hc1, Hc2, Hc3, Hb.
  rewrite (findall_whole 9 rx_COSTG _ [PFX; SD; ED; N; "COSTG"; F1; DRL; F2; SFX]);
    [reflexivity | by destruct PFX | by apply match_COSTG | reflexivity].
Qed.
End NamesCOSTG.

(** ** What a call that returns says about the lines of data *)

(** Every round of a loop that ends has run from a state that the
    rounds before it led to. *)
Lemma for_each_rounds {A St} (I : St → Prop) (body : A → St → result St) xs s s' :
  I s →
  (∀ x t t', x ∈ xs → I t → body x t = Ok t' → I t') →
  for_each xs body s = Ok s' →
  ∀ x, x ∈ xs → ∃ t t', I t ∧ body x t = Ok t'.
Proof.
  revert s. induction xs as [|y xs IH]; intros s H0 Hstep Hrun x Hx.
  - by apply elem_of_nil in Hx.
  - simpl in Hrun. apply bind_Ok_inv in Hrun as (s1 & Hb & Hrun).
    apply elem_of_cons in Hx as [-> | Hx]; [by exists s, s1 |].
    apply (IH s1); [| | exact Hrun | exact Hx].
    + apply (Hstep y s s1); [left | exact H0 | exact Hb].
    + intros z t t' Hz. apply Hstep. by right.
Qed.

Section Lines.
Context {F : Type} `{FloatArith F}.
Variable calculate_tidal_offset : string → F → F → string → F.

(** A field that is stored is a float, and the indices that it is
    stored at are within the matrix, counted from the start or from the
    end. *)
Lemma store_field (L : Z) (key : string) (l1 m1 : Z) (line : string) (i : nat)
    (m m' : gmap string (value F)) :
  has_matrix (square L) m key →
  store key l1 m1 (py_split (sub_d_e line)) i m = Ok m' →
  is_Some (line_value (F := F) i line) ∧ - (L + 1) ≤ l1 ∧ - (L + 1) ≤ m1.
Proof.
  intros (b & Hb & [Hshape _]) Hs.
  apply store_value in Hs as (t & v & a & a' & Ht & Hv & Ha & Hset & _).
  rewrite Hb in Ha. injection Ha as <-.
  split; [unfold line_value; rewrite Ht; simpl; rewrite Hv; eauto |].
  apply set_item_Ok in Hset as (k & c & r & Hk & Hc & _).
  apply np_index_Ok in Hk, Hc. unfold shape in Hshape. injection Hshape as Hr Hn.
  lia.
Qed.

(** X19: a call that returns a record has read a well-formed file:
    every line of data carries a degree and an order that read as
    integers, and every line within the truncation has a float in
    the field of each matrix and indices of at least [-(LMAX+1)], the
    range in which an index counts from the end. *)
Theorem read_Ok_lines (model_file text : string) (LMAX : option Z) (TIDE : string)
    (FLAG : regex) (r : gmap string (value F)) (L : Z) (line : string) :
  read_ICGEM_harmonics calculate_tidal_offset model_file text LMAX TIDE FLAG = Ok r →
  effective_LMAX (F := F) model_file text LMAX FLAG = Ok L →
  In line (data_lines FLAG text) →
  ∃ l1 m1,
    line_indices line = Some (l1, m1) ∧
    (l1 ≤ L → m1 ≤ L →
     - (L + 1) ≤ l1 ∧ - (L + 1) ≤ m1 ∧
     ∀ key i, In (key, i) (columns model_file) → is_Some (line_value (F := F) i line)).
Proof.
  intros Hr HL Hin.
  apply read_Ok in Hr as (L' & mi & Hp & _).
  unfold effective_LMAX in HL. rewrite Hp in HL. simpl in HL. injection HL as ->.
  apply parse_model_Ok in Hp as (vars & ma & mb & m3 & _ & H1 & H2 & _ & H3 & H4).
  apply allocate_matrices in H3 as [H3 _].
  2:{ rewrite (read_header_frame _ ma mb "eclm" eq_refl H2).
      by apply (temporal_fields_keys _ _ _ "eclm" H1). }
  2:{ rewrite (read_header_frame _ ma mb "eslm" eq_refl H2).
      by apply (temporal_fields_keys _ _ _ "eslm" H1). }
  apply (matrices_mono _ (square L)) in H3; [| tauto].
  unfold read_data in H4. fold (data_lines FLAG text) in H4.
  destruct (for_each_rounds (matrices (square L) model_file) _ _ _ _ H3
              (λ x t t' _ Ht Hx,
                 proj1 (read_line_matrices (square L) (λ _ _, True)
                          (set_item_square_any L) model_file x L t t'
                          (λ _ _ _, I) Ht Hx))
              H4 line (proj2 (list_elem_of_In _ _) Hin))
    as (t & t' & Ht & Hline).
  apply read_line_indices in Hline as (l1 & m1 & Hli & Hline).
  exists l1, m1. split; [exact Hli |]. intros Hl Hm.
  rewrite bool_decide_eq_true_2 in Hline by lia.
  apply bind_Ok_inv in Hline as (sa & Ha & Hline).
  apply bind_Ok_inv in Hline as (sb & Hb & Hline).
  pose proof (store_matrices (square L) (λ _ _, True) (set_item_square_any L)
                model_file "clm" l1 m1 _ _ t sa ltac:(simpl; tauto) I Ht Ha) as [Hsa _].
  pose proof (store_matrices (square L) (λ _ _, True) (set_item_square_any L)
                model_file "slm" l1 m1 _ _ sa sb ltac:(simpl; tauto) I Hsa Hb) as [Hsb _].
  destruct (store_field L "clm" l1 m1 line 3 t sa (proj1 Ht) Ha) as (Hc3 & Hl1 & Hm1).
  destruct (store_field L "slm" l1 m1 line 4 sa sb (proj1 (proj2 Hsa)) Hb) as (Hc4 & _).
  split; [exact Hl1 |]. split; [exact Hm1 |].
  intros key i Hcol. unfold columns in Hcol.
  destruct (contains "SW_" model_file) eqn:Hsw; simpl negb in Hline.
  - simpl in Hcol. destruct Hcol as [[= <- <-] | [[= <- <-] | []]]; assumption.
  - apply bind_Ok_inv in Hline as (sc & Hc & Hline).
    pose proof (store_matrices (square L) (λ _ _, True) (set_item_square_any L)
                  model_file "eclm" l1 m1 _ _ sb sc ltac:(simpl; tauto) I Hsb Hc)
      as [Hsc _].
    destruct Hsb as (_ & _ & Heb). rewrite Hsw in Heb.
    destruct Hsc as (_ & _ & Hec). rewrite Hsw in Hec.
    destruct (store_field L "eclm" l1 m1 line 5 sb sc (proj1 Heb) Hc) as (Hc5 & _).
    destruct (store_field L "eslm" l1 m1 line 6 sc t' (proj2 Hec) Hline) as (Hc6 & _).
    simpl in Hcol.
    destruct Hcol as [[= <- <-] | [[= <- <-] | [[= <- <-] | [[= <- <-] | []]]]];
      assumption.
Qed.
End Lines.

(** ** The constants that a change of the tide system needs *)

Section TideConstants.
Context {F : Type} `{FloatArith F}.
Variable calculate_tidal_offset : string → F → F → string → F.

Lemma lookup_str_None (m : gmap string (value F)) (key : string) :
  m !! key = None → lookup_str m key = Raise KeyError.
Proof. intros Hm. unfold lookup_str. by rewrite Hm. Qed.

(** X20: a change of the tide system needs the two constants of the
    header. When the file is read as far as the tide system and no
    line of the header starts with [earth_gravity_constant], or none
    with [radius], the call with ['mean_tide'] or ['zero_tide'] raises
    [KeyError]; only for a missing [radius] can a [ValueError] come
    first, from a gravity constant that is no float. *)
Theorem read_tide_without_constants (model_file text : string) (LMAX : option Z)
    (TIDE : string) (FLAG : regex) (L : Z) (k : string) :
  effective_LMAX (F := F) model_file text LMAX FLAG = Ok L →
  TIDE = "mean_tide" ∨ TIDE = "zero_tide" →
  In k ["earth_gravity_constant"; "radius"] →
  ¬ In k (header_keys text) →
  read_ICGEM_harmonics calculate_tidal_offset model_file text LMAX TIDE FLAG
  = Raise KeyError ∨
  (k = "radius" ∧
   read_ICGEM_harmonics calculate_tidal_offset model_file text LMAX TIDE FLAG
   = Raise ValueError).
Proof.
  intros HL Htide Hk Hnot.
  unfold effective_LMAX in HL.
  destruct (parse_model model_file text LMAX FLAG) as [[L' m]|e] eqn:Hp;
    [| discriminate HL].
  simpl in HL. injection HL as ->.
  rewrite (read_parse calculate_tidal_offset model_file text LMAX TIDE FLAG L m Hp).
  apply parse_model_stages in Hp
    as (vars & m1 & m2 & _ & H1 & H2 & _ & Hs & _ & Hframe).
  assert (Hkh : is_header_key k = true).
  { simpl in Hk. destruct Hk as [<- | [<- | []]]; reflexivity. }
  assert (Hkey : ∀ k', is_header_key k' = true → k' ≠ "tide_system" →
            (<["tide_system" := VStr TIDE]> m : gmap string (value F)) !! k' = m2 !! k').
  { intros k' Hk' Hne. rewrite lookup_insert_ne by done.
    apply Hframe. by apply header_key_not_matrix. }
  assert (Hnone : (<["tide_system" := VStr TIDE]> m : gmap string (value F)) !! k = None).
  { rewrite Hkey; [| exact Hkh | intros ->; simpl in Hk; intuition discriminate].
    rewrite read_header_steps in H2. fold (header_lines text) in H2.
    pose proof (header_lines_keys calculate_tidal_offset (header_lines text) m1 m2 k H2)
      as Hh.
    fold (header_keys text) in Hh.
    destruct (m2 !! k) as [v|] eqn:Hv; [| reflexivity].
    destruct (proj1 Hh (mk_is_Some _ _ eq_refl)) as [Hm1 | Hin]; [| by apply Hnot in Hin].
    rewrite (temporal_fields_keys model_file vars m1 k H1) in Hm1;
      [by destruct Hm1 | intros ->; discriminate Hkh..]. }
  unfold tide_correction. rewrite bool_decide_eq_true_2 by exact Htide. cbv zeta.
  simpl in Hk. destruct Hk as [<- | [<- | []]].
  - left. by rewrite (lookup_str_None _ _ Hnone).
  - destruct (lookup_str (<["tide_system" := VStr TIDE]> m) "earth_gravity_constant")
      as [g|e] eqn:Hg.
    + simpl. destruct (py_float g) as [GM|e] eqn:HGM.
      * simpl. left. by rewrite (lookup_str_None _ _ Hnone).
      * right. split; [reflexivity |]. simpl. f_equal.
        unfold py_float in HGM.
        destruct (float_of_string g); simpl in HGM; congruence.
    + left. simpl. f_equal.
      apply (lookup_str_raises (<["tide_system" := VStr TIDE]> m)
               "earth_gravity_constant" e); [| reflexivity | exact Hg].
      intros k' v Hk' Hv.
      destruct (decide (k' = "tide_system")) as [-> | Hne].
      * rewrite lookup_insert_eq in Hv. injection Hv as <-. eauto.
      * rewrite Hkey in Hv by done. by apply (Hs k' v).
Qed.
End TideConstants.

Lemma read_Ok_lines_witness :
  ∃ l1 m1,
    line_indices "gfc 2 1 -2.0e-10 1.0e-09 1.0e-11 1.0e-11" = Some (l1, m1) ∧
    (l1 ≤ 2 → m1 ≤ 2 →
     - (2 + 1) ≤ l1 ∧ - (2 + 1) ≤ m1 ∧
     ∀ key i, In (key, i) (columns "EGM.gfc") →
       is_Some (line_value (F := float) i "gfc 2 1 -2.0e-10 1.0e-09 1.0e-11 1.0e-11")).
Proof.
  apply (read_Ok_lines sample_offset "EGM.gfc" sample_model None "tide_free" (RLit "gfc")
           (record_of (read_b64 "EGM.gfc" sample_model None "tide_free" (RLit "gfc")))).
  - apply is_ok_record. vm_compute. reflexivity.
  - vm_compute. reflexivity.
  - vm_compute. tauto.
Defined.

Lemma read_tide_without_constants_witness :
  read_b64 "EGM.gfc" sample_without_constants None "zero_tide" (RLit "gfc")
  = Raise KeyError ∨
  ("radius" = "radius" ∧
   read_b64 "EGM.gfc" sample_without_constants None "zero_tide" (RLit "gfc")
   = Raise ValueError).
Proof.
  apply (read_tide_without_constants sample_offset "EGM.gfc" sample_without_constants
           None "zero_tide" (RLit "gfc") 2 "radius").
  - vm_compute. reflexivity.
  - by right.
  - simpl. tauto.
  - vm_compute. intros [H | []]. discriminate H.
Defined.

(** ** The further properties on the sample files *)

Lemma read_dates_witness :
  let r := record_of (read_b64 "ITSG-Grace2018_n96_2008-05.gfc" sample_model None
                        "tide_free" (RLit "gfc")) in
  if has_dates "ITSG-Grace2018_n96_2008-05.gfc"
  then ∃ x, r !! "start" = Some (VNum x)
  else r !! "start" = None.
Proof.
  apply (read_dates sample_offset "ITSG-Grace2018_n96_2008-05.gfc" sample_model None
           "tide_free" (RLit "gfc")).
  - apply is_ok_record. vm_compute. reflexivity.
  - simpl. tauto.
Defined.

Lemma read_truncation_degree_witness :
  let r := record_of (read_b64 "EGM.gfc" sample_model None "tide_free" (RLit "gfc")) in
  ∃ (L : Z) (clm : ndarray float),
    r !! "clm" = Some (VMat clm) ∧
    shape clm = (Z.to_nat (L + 1), Z.to_nat (L + 1)) ∧
    -1 ≤ L ∧
    if py_not None
    then ∃ s, r !! "max_degree" = Some (VStr s) ∧ py_int s = Some L
    else None = Some L.
Proof.
  apply (read_truncation_degree sample_offset "EGM.gfc" sample_model None "tide_free"
           (RLit "gfc")).
  apply is_ok_record. vm_compute. reflexivity.
Defined.

Lemma read_header_without_value_witness :
  In "modelname" (header_lines sample_header_without_value) ∧
  read_b64 "EGM.gfc" sample_header_without_value None "tide_free" (RLit "gfc")
  = Raise IndexError.
Proof.
  assert (Hin : In "modelname" (header_lines sample_header_without_value))
    by (vm_compute; tauto).
  split; [exact Hin |].
  apply (read_header_without_value sample_offset "EGM.gfc" sample_header_without_value
           None "tide_free" (RLit "gfc") NoVars ∅ "modelname").
  - reflexivity.
  - reflexivity.
  - exact Hin.
  - vm_compute. lia.
Defined.

Lemma read_without_max_degree_witness :
  read_b64 "EGM.gfc" sample_without_max_degree (Some 0) "tide_free" (RLit "gfc")
  = Raise KeyError.
Proof.
  apply (read_without_max_degree sample_offset "EGM.gfc" sample_without_max_degree
           (Some 0) "tide_free" (RLit "gfc") NoVars ∅).
  - reflexivity.
  - reflexivity.
  - reflexivity.
  - intros line Hin. vm_compute in Hin. destruct Hin as [<- | []].
    split; [vm_compute; lia | vm_compute; discriminate].
Defined.

Lemma read_raises_witness :
  read_b64 sample_large_year sample_model None "tide_free" (RLit "gfc")
  = Raise OverflowError ∧
  OverflowError ≠ NameError ∧ OverflowError ≠ TypeError.
Proof.
  assert (Hr : read_b64 sample_large_year sample_model None "tide_free" (RLit "gfc")
               = Raise OverflowError)
    by (apply raised_Raise; vm_compute; reflexivity).
  split; [exact Hr |]. unfold read_b64 in Hr.
  exact (read_raises sample_offset sample_large_year sample_model None "tide_free"
           (RLit "gfc") OverflowError Hr).
Defined.

Lemma read_unnamed_coefficient_witness :
  coefficient (record_of (read_b64 "EGM.gfc" sample_model None "zero_tide" (RLit "gfc")))
    "slm" 1 1 = Some 0%float ∧
  0%float = of_int 0.
Proof.
  assert (Hx : coefficient
                 (record_of (read_b64 "EGM.gfc" sample_model None "zero_tide"
                               (RLit "gfc"))) "slm" 1 1 = Some 0%float)
    by (vm_compute; reflexivity).
  split; [exact Hx |].
  apply (read_unnamed_coefficient sample_offset "EGM.gfc" sample_model None "zero_tide"
           (RLit "gfc")
           (record_of (read_b64 "EGM.gfc" sample_model None "zero_tide" (RLit "gfc")))
           "slm" 1 1 0%float).
  - apply is_ok_record. vm_compute. reflexivity.
  - simpl. tauto.
  - intros line l1 m1 Hin Hli. vm_compute in Hin.
    repeat (destruct Hin as [<- | Hin];
            [vm_compute in Hli; injection Hli as <- <-;
             split; [lia | split; [lia | intros Hc; vm_compute in Hc; discriminate Hc]] |]).
    destruct Hin.
  - intros _ [=].
  - exact Hx.
Defined.

Lemma read_stored_coefficient_witness :
  let r := record_of (read_b64 "EGM.gfc" sample_model None "tide_free" (RLit "gfc")) in
  ∃ v : float,
    line_value 5 "gfc 2 0 -4.84D-04 0.0 1.0d-11 0.0" = Some v ∧
    coefficient r "eclm" (Z.to_nat 2) (Z.to_nat 0) = Some v.
Proof.
  apply (read_stored_coefficient sample_offset "EGM.gfc" sample_model None "tide_free"
           (RLit "gfc") _ 2
           ["gfc 0 0 1.0D+00 0.0 0.0 0.0"; "gfc 1 0 0.0 0.0 0.0 0.0"]
           ["gfc 2 1 -2.0e-10 1.0e-09 1.0e-11 1.0e-11";
            "gfc 2 2 2.4e-06 -1.4e-06 1.0e-11 1.0e-11"]
           "gfc 2 0 -4.84D-04 0.0 1.0d-11 0.0" 2 0 "eclm" 5).
  - apply is_ok_record. vm_compute. reflexivity.
  - vm_compute. reflexivity.
  - vm_compute. reflexivity.
  - vm_compute. reflexivity.
  - lia.
  - lia.
  - intros line l1 m1 Hin Hli. simpl in Hin.
    repeat (destruct Hin as [<- | Hin];
            [vm_compute in Hli; injection Hli as <- <-;
             split; [lia | split; [lia | discriminate]] |]).
    destruct Hin.
  - vm_compute. tauto.
  - intros [Ht | Ht]; discriminate Ht.
Defined.

Lemma read_within_truncation_witness :
  read_b64 "EGM.gfc" sample_beyond_truncation None "zero_tide" (RLit "gfc")
  = read_b64 "EGM.gfc" sample_model None "zero_tide" (RLit "gfc").
Proof.
  apply (read_within_truncation sample_offset "EGM.gfc" sample_model
           sample_beyond_truncation None "zero_tide" (RLit "gfc") 2).
  - vm_compute. reflexivity.
  - vm_compute. reflexivity.
  - vm_compute. reflexivity.
Defined.

Lemma month_days_tile_witness :
  ∃ (dpy e0 s e : Z) (s0 : num float),
    month_days 2008 (3 - 1) = (dpy, s0, NInt e0) ∧
    month_days 2008 3 = (dpy, NInt s, NInt e) ∧
    s = e0 + 1 ∧ s ≤ e ≤ dpy ∧ (3 = 12 → e = dpy) ∧
    dpy = (if bool_decide (2008 `mod` 4 = 0) then 366 else 365).
Proof. apply (month_days_tile 2008 3). lia. Defined.

Lemma read_header_value_witness :
  let r := record_of (read_b64 "EGM.gfc" sample_model None "tide_free" (RLit "gfc")) in
  r !! "norm" = Some (VStr "fully_normalized").
Proof.
  apply (read_header_value sample_offset "EGM.gfc" sample_model None "tide_free"
           (RLit "gfc") _
           ["modelname SAMPLE"; "earth_gravity_constant 0.3986004415E+15";
            "radius 0.6378136300E+07"; "max_degree 2"; "errors formal"]
           ["tide_system tide_free"]
           "norm fully_normalized" "norm" "fully_normalized" []).
  - apply is_ok_record. vm_compute. reflexivity.
  - vm_compute. reflexivity.
  - vm_compute. reflexivity.
  - intros line [<- | []]. vm_compute. discriminate.
  - intros _. discriminate.
Defined.

Lemma read_keys_witness :
  let r := record_of (read_b64 "SW_OPER_EGF_SHA_2__20131201T000000_20131231T235959_0101.gfc"
                        sample_model None "tide_free" (RLit "gfc")) in
  is_Some (r !! "eclm") ↔
    In "eclm" (header_keys sample_model) ∨
    In "eclm" (columns "SW_OPER_EGF_SHA_2__20131201T000000_20131231T235959_0101.gfc").*1 ∨
    (has_dates "SW_OPER_EGF_SHA_2__20131201T000000_20131231T235959_0101.gfc" = true ∧
     In "eclm" ["time"; "start"; "end"]) ∨
    (("tide_free" = "mean_tide" ∨ "tide_free" = "zero_tide") ∧ "eclm" = "tide_system").
Proof.
  apply (read_keys sample_offset "SW_OPER_EGF_SHA_2__20131201T000000_20131231T235959_0101.gfc"
           sample_model None "tide_free" (RLit "gfc")).
  apply is_ok_record. vm_compute. reflexivity.
Defined.

Lemma temporal_fields_consecutive_witness :
  ∃ (r r' : gmap string (value float)) (e s : float),
    temporal_fields "ITSG-Grace2018_n96_2008-12.gfc" (YearMonth 2008 12) ∅ = Ok r ∧
    temporal_fields "ITSG-Grace2018_n96_2008-12.gfc"
      (YearMonth (next_month 2008 12).1 (next_month 2008 12).2) ∅ = Ok r' ∧
    date r "end" = Some e ∧ date r' "start" = Some s ∧
    feqb s (fadd e (of_int 1)) = true.
Proof.
  apply (temporal_fields_consecutive "ITSG-Grace2018_n96_2008-12.gfc" 2008 12).
  - reflexivity.
  - lia.
  - lia.
Defined.

Lemma filename_fields_ITSG_witness :
  filename_fields (F := float) "models/ITSG-Grace_operational_n60_2018-11.gfc"
  = Ok (YearMonth (decimal "2018") (decimal "11")).
Proof.
  apply (filename_fields_ITSG "models/ITSG-Grace_operational_n60_2018-11.gfc"
           "ITSG" "Grace_operational" "n60" "2018" "11" ".gfc").
  - reflexivity.
  - reflexivity.
  - reflexivity.
  - simpl. tauto.
  - reflexivity.
  - discriminate.
  - reflexivity.
  - simpl. lia.
  - discriminate.
  - reflexivity.
  - simpl. lia.
  - simpl. tauto.
Defined.

Lemma filename_fields_SWARM_witness :
  filename_fields (F := float)
    "SW_OPER_EGF_SHA_2__20131201T000000_20131231T235959_0101.gfc"
  = Ok (YearMonth (decimal "2013") (decimal "12")).
Proof.
  apply (filename_fields_SWARM
           "SW_OPER_EGF_SHA_2__20131201T000000_20131231T235959_0101.gfc"
           "OPER" "2013" "12" "01T000000" "20131231T235959" "0101" ".gfc").
  - reflexivity.
  - reflexivity.
  - reflexivity.
  - reflexivity.
  - reflexivity.
  - reflexivity.
  - reflexivity.
  - reflexivity.
  - reflexivity.
  - reflexivity.
  - simpl. tauto.
Defined.

Lemma filename_fields_COSTG_witness :
  filename_fields (F := float) "COSTG/GSM-2_2002095-2002120_GRAC_COSTG_BF01_0100.gfc"
  = (start_yr ← py_float (take_str 4 "2002095");
     end_yr ← py_float (take_str 4 "2002120");
     start_day ← py_float (drop_str 4 "2002095");
     end_day ← py_float (drop_str 4 "2002120");
     Ok (StartEnd start_yr end_yr start_day end_day)).
Proof.
  apply (filename_fields_COSTG "COSTG/GSM-2_2002095-2002120_GRAC_COSTG_BF01_0100.gfc"
           "GSM" "2002095" "2002120" "GRAC" "BF01" "0100" "" ".gfc").
  - reflexivity.
  - reflexivity.
  - reflexivity.
  - reflexivity.
  - reflexivity.
  - discriminate.
  - reflexivity.
  - discriminate.
  - reflexivity.
  - reflexivity.
  - reflexivity.
  - discriminate.
  - reflexivity.
  - reflexivity.
  - simpl. tauto.
Defined.
